(** * gh-skyline: the STL mesh generator, embedded and checked against its specification

    The development follows the Go sources of the [stl] and [geometry]
    packages, and of [utils] and [skyline], which call them.
    Coordinates are IEEE-754 binary64 numbers, exactly Go's
    [float64] (Rocq's primitive floats); Go's [int] is [Z], with the
    wrap-around of 64 bits written out for the one counter that can reach
    the largest int; strings are sequences of bytes; slices are lists,
    written by index with stdpp's list insert where the source does so.
    A Go call that returns [(value, err)] is a [Result]; where a function
    of the sources can also panic or wait forever, it is an [Outcome].

    Layout: the embedding first (data, the packages the sources import, the
    functions of the sources in source order, one concrete environment to
    run them in), then the properties. *)

From Stdlib Require Import ZArith Uint63 PrimFloat FloatOps SpecFloat List Bool Ascii String Lia.
From Stdlib Require FloatAxioms.
From stdpp Require Import base list strings pretty.

Set Warnings "-inexact-float,-register-all".
Open Scope float_scope.

(** ** Data model ([types.Point3D], [types.Triangle], [types.ContributionDay]) *)

Record Point3D := mkPoint3D { X : float; Y : float; Z : float }.

Record Triangle := mkTriangle {
  Normal : Point3D;
  V1 : Point3D;
  V2 : Point3D;
  V3 : Point3D
}.

Record ContributionDay := mkDay { Date : string; ContributionCount : Z.t }.

(** One year of contributions, [[week][day]]. *)
Abbreviation Grid := (list (list ContributionDay)).

(** The zero value of a Go struct of floats: what [make] fills a slice with. *)
Definition zeroPoint : Point3D := mkPoint3D 0 0 0.
Definition zeroTriangle : Triangle := mkTriangle zeroPoint zeroPoint zeroPoint zeroPoint.

(** [float64(n)] for an [int] [n] with |n| < 2^63. *)
Definition float64 (n : Z.t) : float :=
  if (n <? 0)%Z then - PrimFloat.of_uint63 (Uint63.of_Z (- n))
  else PrimFloat.of_uint63 (Uint63.of_Z n).

(** [int(f)] for a [float64] [f]: truncation toward zero.  For infinities,
    NaN and values beyond [int64] Go leaves the result to the
    implementation; amd64 gives the least [int64] for the first two, and the
    last are left unreduced here. *)
Definition int (f : float) : Z.t :=
  match Prim2SF f with
  | S754_zero _ => 0%Z
  | S754_finite s m e =>
      let v := if (0 <=? e)%Z then (Z.pos m * 2 ^ e)%Z else (Z.pos m / 2 ^ (- e))%Z in
      if s then (- v)%Z else v
  | _ => (- 2 ^ 63)%Z
  end.

(** [math.MaxFloat64]. *)
Definition MaxFloat64 : float := 0x1.fffffffffffffp+1023.

(** ** Errors *)

Inductive ErrorType := ValidationError | IOError | STLError | NetworkError.

(** Modelled from the spec: package [internal/errors] is not among the
    sources.  The spec gives the taxonomy ([ValidationError], [IOError],
    [STLError], [NetworkError]) and says that errors are wrapped with context
    at each call boundary; [New] and [Wrap] are kept as free constructors, so
    a returned error shows how it was built.  [Foreign] stands for an error
    value made outside the repository (the operating system, the logger's
    writer, a decoder). *)
Inductive error :=
| New (kind : ErrorType) (message : string) (cause : option error)
| Wrap (cause : error) (message : string)
| Foreign (message : string).

(** ** Results and outcomes of a call *)

(** Go's [(value, err)]: a value when [err] is nil. *)
Inductive Result (A : Type) :=
| Ok (a : A)
| Err (e : error).
Arguments Ok {A} a.
Arguments Err {A} e.

Inductive Outcome (A : Type) :=
| Ret (a : A)            (* returned a value and a nil error *)
| Fail (e : error)       (* returned a non-nil error *)
| Panic (reason : string)(* run-time panic, e.g. index out of range *)
| Blocked.               (* waits forever on a channel *)
Arguments Ret {A} a.
Arguments Fail {A} e.
Arguments Panic {A} reason.
Arguments Blocked {A}.

Definition bindO {A B} (o : Outcome A) (k : A -> Outcome B) : Outcome B :=
  match o with
  | Ret a => k a
  | Fail e => Fail e
  | Panic r => Panic r
  | Blocked => Blocked
  end.

(** [if err != nil { return errors.Wrap(err, msg) }] *)
Definition wrapErr {A} (o : Outcome A) (msg : string) : Outcome A :=
  match o with
  | Fail e => Fail (Wrap e msg)
  | other => other
  end.

(** A function whose only result is an [error]. *)
Definition check (e : option error) : Outcome unit :=
  match e with
  | None => Ret tt
  | Some e => Fail e
  end.

Definition ofResult {A} (r : Result A) : Outcome A :=
  match r with
  | Ok a => Ret a
  | Err e => Fail e
  end.

(** [xs[i]], with Go's bounds check. *)
Definition index {A} (xs : list A) (i : nat) : Outcome A :=
  match xs !! i with
  | Some x => Ret x
  | None => Panic "index out of range"
  end.

Definition bindR {A B} (r : Result A) (k : A -> Result B) : Result B :=
  match r with
  | Ok a => k a
  | Err e => Err e
  end.

(** A loop whose body may return an error early, and cannot panic. *)
Fixpoint forEachR {A S : Type} (body : S -> A -> Result S) (xs : list A) (s : S) : Result S :=
  match xs with
  | [] => Ok s
  | x :: rest => bindR (body s x) (forEachR body rest)
  end.

(** A loop over a slice whose body may return early. *)
Fixpoint forEach {A S : Type} (body : S -> A -> Outcome S) (xs : list A) (s : S) : Outcome S :=
  match xs with
  | [] => Ret s
  | x :: rest => bindO (body s x) (forEach body rest)
  end.

(** [0, 1, ..., n-1] as [int]s, for [for x := 0; x < n; x++]; empty when [n <= 0]. *)
Definition upto (n : Z.t) : list Z.t := map Z.of_nat (seq 0 (Z.to_nat n)).
(** [n-1, ..., 1, 0], for [for y := n - 1; y >= 0; y--]. *)
Definition downfrom (n : Z.t) : list Z.t := rev (upto n).

(** ** Effects of the main goroutine

    A run of the top-level functions is an outcome together with the
    effects performed on the way, in order. *)

Inductive LogLevel := Debug | Info | Warning.

Inductive Task := TBase | TColumns | TText | TImage.

#[global] Instance Task_eq_dec : EqDecision Task.
Proof. solve_decision. Defined.

Definition taskName (t : Task) : string :=
  match t with
  | TBase => "base"
  | TColumns => "columns"
  | TText => "text"
  | TImage => "image"
  end.

Inductive Event :=
| EvLog (level : LogLevel) (format : string)
| EvGo (task : Task)                         (* a [go] statement *)
| EvRead (path : string)                     (* a file opened for reading *)
| EvWrite (path : string) (mesh : list Triangle).

Definition Run (A : Type) : Type := Outcome A * list Event.

Definition ret {A} (a : A) : Run A := (Ret a, []).
Definition emit (e : Event) : Run unit := (Ret tt, [e]).
Definition lift {A} (o : Outcome A) : Run A := (o, []).

Definition bind {A B} (m : Run A) (k : A -> Run B) : Run B :=
  match fst m with
  | Ret a => (fst (k a), snd m ++ snd (k a))
  | Fail e => (Fail e, snd m)
  | Panic r => (Panic r, snd m)
  | Blocked => (Blocked, snd m)
  end.

Definition wrapRun {A} (m : Run A) (msg : string) : Run A := (wrapErr (fst m) msg, snd m).

(** A call whose error the caller keeps in a variable instead of returning it. *)
Definition attempt {A} (o : Outcome A) : Run (Result A) :=
  match o with
  | Ret a => ret (Ok a)
  | Fail e => ret (Err e)
  | Panic reason => lift (Panic reason)
  | Blocked => lift Blocked
  end.

Notation "x <- m ;; k" := (bind m (fun x => k))
  (at level 100, m at next level, right associativity).
Notation "m ;;; k" := (bind m (fun _ => k))
  (at level 100, right associativity).

(** ** The packages the sources import

    The files of these packages are not among the sources; what the
    sources use of them is taken as a parameter. *)

(** [internal/logger]: a call may fail, and the caller tests its error.
    What a call returns is taken to depend on its level and format string. *)
Class Logger := {
  logCall : LogLevel -> string -> option error
}.

Inductive Font := PrimaryFont | FallbackFont.

(** [image/color]: the colours of the images [png.Decode] returns.  A PNG
    with an alpha channel or a transparent palette entry decodes to
    [color.NRGBA] (8 bits a channel) or [color.NRGBA64] (16 bits), whose
    channels are not premultiplied by alpha; a true-colour or paletted one
    without decodes to [color.RGBA] or [color.RGBA64], whose channels are; a
    grey one to [color.Gray] or [color.Gray16].  The fields hold values of
    their width. *)
Inductive Color :=
| NRGBA (R G B A : Z.t)
| NRGBA64 (R G B A : Z.t)
| RGBA8 (R G B A : Z.t)
| RGBA64 (R G B A : Z.t)
| Gray (Y : Z.t)
| Gray16 (Y : Z.t).

(** The four results of the method [RGBA] of a colour: alpha-premultiplied,
    each within [0, 0xffff]. *)
Record RGBA := mkRGBA { chR : Z.t; chG : Z.t; chB : Z.t; chA : Z.t }.

(** [Color.RGBA()], as package image/color defines it for each model
    ([r |= r << 8; r *= a; r /= 0xff] for [color.NRGBA]). *)
Definition colorRGBA (c : Color) : RGBA :=
  let widen (v : Z.t) := Z.lor v (Z.shiftl v 8) in
  match c with
  | NRGBA r g b a =>
      mkRGBA (widen r * a / 255) (widen g * a / 255) (widen b * a / 255) (widen a)
  | NRGBA64 r g b a =>
      mkRGBA (r * a / 65535) (g * a / 65535) (b * a / 65535) a
  | RGBA8 r g b a => mkRGBA (widen r) (widen g) (widen b) (widen a)
  | RGBA64 r g b a => mkRGBA r g b a
  | Gray y => mkRGBA (widen y) (widen y) (widen y) 65535
  | Gray16 y => mkRGBA y y y 65535
  end%Z.

(** A decoded image: [img.Bounds().Max] and [img.At(x, y)]. *)
Record Image := mkImage { boundsMaxX : Z.t; boundsMaxY : Z.t; At : Z.t -> Z.t -> Color }.

(** [internal/stl/geometry] (the files other than text.go) and the drawing
    and decoding libraries text.go calls. *)
Class Geometry := {
  GridSize : nat;
  CellSize : float;
  YearOffset : float;
  YearSpacing : float;
  BaseHeight : float;
  NormalizeContribution : Z.t -> Z.t -> float;
  CreateColumn : float -> float -> float -> float -> Result (list Triangle);
  CreateCube : float -> float -> float -> float -> float -> float -> Result (list Triangle);
  CreateCuboidBase : float -> float -> Result (list Triangle);
  CalculateMultiYearDimensions : Z.t -> float * float;
  (* geometry.CreateContributionGeometry, the two-result function that
     generateColumnsForYearRange calls *)
  yearGeometry : Grid -> Z.t -> Z.t -> Result (list Triangle);
  writeTempFont : Font -> Result string;
  LoadFontFace : string -> float -> option error;
  (* the red channel of the canvas after gg's DrawStringAnchored: canvas
     width and height, font path and size, text, anchor point, alignment *)
  canvasRed : Z.t -> Z.t -> string -> float -> string -> float -> float -> float -> float
              -> Z.t -> Z.t -> Z.t;
  (* os.Open followed by png.Decode *)
  osOpenImage : string -> option error;
  pngDecode : string -> Result Image;
  getEmbeddedImage : Result string
}.

Inductive NumError := ErrSyntax | ErrRange.

(** Files, [strconv] and the STL codec's binary half. *)
Class System := {
  (* os.Open(path), then Read of the first 80 bytes: [None] when the open
     fails, else the buffer and Read's error *)
  readHeader : string -> option (string * option error);
  (* os.Open(path), then a bufio.Scanner over the file: the lines it
     yields and scanner.Err() *)
  scanFile : string -> Result (list string * option error);
  (* strconv.ParseFloat(s, 64): a value and an error, both always present *)
  ParseFloat : string -> float * option NumError;
  ReadSTLBinary : string -> Result (list Triangle);
  WriteSTLBinary : string -> list Triangle -> option error
}.

(** ** strings *)

(** A Go string is a sequence of bytes, read as UTF-8 where runes matter;
    so is a [string] here.  [unicode.IsSpace] holds of U+0009 to U+000D,
    U+0020, U+0085, U+00A0, U+1680, U+2000 to U+200A, U+2028, U+2029,
    U+202F, U+205F and U+3000.  [spaceWidth s] is the number of bytes of the
    white-space rune that [s] starts with, and 0 when it starts with none.
    The first byte of an encoding is never a continuation byte, so a
    decoder that reads [s] from either end finds a white-space rune exactly
    where one of these encodings lies. *)
Definition spaceWidth (s : string) : nat :=
  match s with
  | EmptyString => 0
  | String c0 rest =>
      match N_of_ascii c0, rest with
      | (9 | 10 | 11 | 12 | 13 | 32)%N, _ => 1
      | 194%N, String c1 _ =>
          match N_of_ascii c1 with
          | (133 | 160)%N => 2
          | _ => 0
          end
      | 225%N, String c1 (String c2 _) =>
          match N_of_ascii c1, N_of_ascii c2 with
          | 154%N, 128%N => 3
          | _, _ => 0
          end
      | 226%N, String c1 (String c2 _) =>
          match N_of_ascii c1, N_of_ascii c2 with
          | 128%N, (128 | 129 | 130 | 131 | 132 | 133 | 134 | 135 | 136 | 137 | 138
                    | 168 | 169 | 175)%N => 3
          | 129%N, 159%N => 3
          | _, _ => 0
          end
      | 227%N, String c1 (String c2 _) =>
          match N_of_ascii c1, N_of_ascii c2 with
          | 128%N, 128%N => 3
          | _, _ => 0
          end
      | _, _ => 0
      end
  end.

Definition HasPrefix (s pre : string) : bool := String.prefix pre s.

(** [strings.TrimLeftFunc(s, unicode.IsSpace)]; [skip] counts the bytes
    still to drop of the white-space rune being passed. *)
Fixpoint trimLeftFrom (skip : nat) (s : string) : string :=
  match s with
  | EmptyString => EmptyString
  | String _ rest =>
      match skip with
      | S skip => trimLeftFrom skip rest
      | O =>
          match spaceWidth s with
          | S width => trimLeftFrom width rest
          | O => s
          end
      end
  end.

Definition trimLeft (s : string) : string := trimLeftFrom 0 s.

(** Whether [s] is made of white-space runes only. *)
Fixpoint allSpaceFrom (skip : nat) (s : string) : bool :=
  match s with
  | EmptyString => true
  | String _ rest =>
      match skip with
      | S skip => allSpaceFrom skip rest
      | O =>
          match spaceWidth s with
          | S width => allSpaceFrom width rest
          | O => false
          end
      end
  end.

(** [strings.TrimRightFunc(s, unicode.IsSpace)]: [s] without its longest
    tail of white-space runes. *)
Fixpoint trimRight (s : string) : string :=
  match s with
  | EmptyString => EmptyString
  | String c rest => if allSpaceFrom 0 s then EmptyString else String c (trimRight rest)
  end.

Definition TrimSpace (s : string) : string := trimRight (trimLeft s).

(** [strings.Fields]: the maximal runs of bytes between white-space runes;
    [cur] is the run being read, [skip] as above. *)
Fixpoint fieldsFrom (skip : nat) (s : string) (cur : string) : list string :=
  match s with
  | EmptyString => match cur with EmptyString => [] | _ => [cur] end
  | String c rest =>
      match skip with
      | S skip => fieldsFrom skip rest cur
      | O =>
          match spaceWidth s with
          | S width =>
              match cur with
              | EmptyString => fieldsFrom width rest EmptyString
              | _ => cur :: fieldsFrom width rest EmptyString
              end
          | O => fieldsFrom 0 rest (cur +:+ String c EmptyString)
          end
      end
  end.

Definition Fields (s : string) : list string := fieldsFrom 0 s EmptyString.

(** [fmt.Sprintf("%0<width>d", n)] *)
Definition padInt (width : nat) (n : Z.t) : string :=
  let digits := pretty (Z.abs n) in
  let sign := if (n <? 0)%Z then "-" else "" in
  let fill := (width - String.length sign - String.length digits)%nat in
  sign +:+ string_of_list_ascii (repeat "0"%char fill) +:+ digits.

(** ** Package stl: generator.go *)

Section Generator.
Context `{Logger} `{Geometry} `{System}.

(** A log call of the main goroutine: the effect, then the caller's
    [if err != nil { return errors.Wrap(err, msg) }]. *)
Definition logOr (level : LogLevel) (format : string) (msg : string) : Run unit :=
  emit (EvLog level format) ;;;
  lift (wrapErr (check (logCall level format)) msg).

(** *** STL ASCII reader *)

Record ReaderState := mkReader {
  rdTriangles : list Triangle;
  rdNormal : Point3D;
  rdVertices : list Point3D
}.

(** [v, _ := strconv.ParseFloat(field, 64)]: the error is dropped, the value kept. *)
Definition parseField (field : string) : float := fst (ParseFloat field).

(** The body of the scanner loop of [ReadASCIISTL], for one line. *)
Definition readLine (st : ReaderState) (text : string) : Outcome ReaderState :=
  let line := TrimSpace text in
  if HasPrefix line "facet normal" then
    let fields := Fields line in
    bindO (index fields 2) (fun f2 =>
    bindO (index fields 3) (fun f3 =>
    bindO (index fields 4) (fun f4 =>
    Ret (mkReader (rdTriangles st)
                  (mkPoint3D (parseField f2) (parseField f3) (parseField f4))
                  (rdVertices st)))))
  else if HasPrefix line "vertex" then
    let fields := Fields line in
    bindO (index fields 1) (fun f1 =>
    bindO (index fields 2) (fun f2 =>
    bindO (index fields 3) (fun f3 =>
    Ret (mkReader (rdTriangles st) (rdNormal st)
                  (rdVertices st ++ [mkPoint3D (parseField f1) (parseField f2) (parseField f3)])))))
  else if HasPrefix line "endfacet" then
    match rdVertices st with
    | [v0; v1; v2] =>
        Ret (mkReader (rdTriangles st ++ [mkTriangle (rdNormal st) v0 v1 v2]) (rdNormal st) [])
    | _ => Ret (mkReader (rdTriangles st) (rdNormal st) [])
    end
  else Ret st.

Definition ReadASCIISTL (filename : string) : Outcome (list Triangle) :=
  bindO (ofResult (scanFile filename)) (fun '(lines, scanErr) =>
  bindO (forEach readLine lines (mkReader [] zeroPoint [])) (fun st =>
  bindO (check scanErr) (fun _ =>
  Ret (rdTriangles st)))).

(** *** Dimensions and validation *)

Record modelDimensions := mkDims {
  innerWidth : float;
  innerDepth : float;
  imagePath : string
}.

Definition validateInput (contributions : Grid) (outputPath username : string) : Outcome unit :=
  if decide (length contributions = 0%nat) then
    Fail (New ValidationError "contributions data cannot be empty" None)
  else if decide (GridSize < length contributions)%nat then
    Fail (New ValidationError "contributions data exceeds maximum grid size" None)
  else if String.eqb outputPath "" then
    Fail (New ValidationError "output path cannot be empty" None)
  else if String.eqb username "" then
    Fail (New ValidationError "username cannot be empty" None)
  else Ret tt.

Definition calculateDimensions (yearCount : Z.t) : Outcome modelDimensions :=
  if (yearCount <=? 0)%Z then
    Fail (New ValidationError "year count must be positive" None)
  else
    let '(width, depth) := CalculateMultiYearDimensions yearCount in
    let dims := mkDims width depth "assets/invertocat.png" in
    if (innerWidth dims <=? 0) || (innerDepth dims <=? 0) then
      Fail (New ValidationError "invalid model dimensions" None)
    else Ret dims.

Definition findMaxContributions (contributions : Grid) : Z.t :=
  fold_left (fun maxContrib week =>
    fold_left (fun maxContrib day =>
      if (maxContrib <? ContributionCount day)%Z then ContributionCount day else maxContrib)
      week maxContrib)
    contributions 0%Z.

Definition findMaxContributionsAcrossYears (contributionsPerYear : list Grid) : Z.t :=
  fold_left (fun maxContrib yearContributions =>
    let yearMax := findMaxContributions yearContributions in
    if (maxContrib <? yearMax)%Z then yearMax else maxContrib)
    contributionsPerYear 0%Z.

(** *** The geometry producers

    Each producer is a goroutine that sends one [geometryResult] on its
    channel; the embedding gives what it sends, or [None] when it returns
    without sending. *)

Record geometryResult := mkResult {
  triangles : list Triangle;
  err : option error
}.

(** The shape shared by [generateBase], [generateText], [generateLogo] and
    [generateLogoWithCustomPath]: build, and on failure log a warning and
    send an empty mesh, with the logger's error if the warning failed. *)
Definition sendOrWarn (built : Result (list Triangle)) (format : string) : geometryResult :=
  match built with
  | Ok ts => mkResult ts None
  | Err _ =>
      match logCall Warning format with
      | Some logErr => mkResult [] (Some logErr)
      | None => mkResult [] None
      end
  end.

Definition generateBase (dims : modelDimensions) : geometryResult :=
  sendOrWarn (CreateCuboidBase (innerWidth dims) (innerDepth dims))
             "Failed to generate base geometry: %v. Continuing without base.".

Definition estimateTriangleCount (contributions : Grid) : Z.t :=
  let totalContributions :=
    fold_left (fun total week =>
      fold_left (fun total day =>
        if (0 <? ContributionCount day)%Z then (total + 1)%Z else total) week total)
      contributions 0%Z in
  let baseTrianglesCount := 12%Z in
  let columnsTrianglesCount := (totalContributions * 12)%Z in
  let textTrianglesEstimate := 1000%Z in
  (baseTrianglesCount + columnsTrianglesCount + textTrianglesEstimate)%Z.

(** The loop of [generateColumnsForYearRange]: [i] runs from [len - 1] down
    to 0; [years] holds the elements still to visit, last one first. *)
Fixpoint columnsLoop (len : Z.t) (maxContrib : Z.t) (years : list (Z.t * Grid))
    (yearTriangles : list Triangle) : option geometryResult :=
  match years with
  | [] => Some (mkResult yearTriangles None)
  | (i, contributions) :: rest =>
      let yearOffset := (len - 1 - i)%Z in
      match yearGeometry contributions yearOffset maxContrib with
      | Ok ts => columnsLoop len maxContrib rest (yearTriangles ++ ts)
      | Err _ =>
          match logCall Warning "Failed to generate column geometry for year %d: %v. Skipping year." with
          | Some _ => None
          | None => columnsLoop len maxContrib rest yearTriangles
          end
      end
  end.

Definition generateColumnsForYearRange (contributionsPerYear : list Grid) (maxContrib : Z.t)
    : option geometryResult :=
  let indexed := imap (fun i y => (Z.of_nat i, y)) contributionsPerYear in
  columnsLoop (Z.of_nat (length contributionsPerYear)) maxContrib (rev indexed) [].

(** The column of one cell, as [CreateContributionGeometry] asks for it. *)
Definition cellColumn (baseYOffset : float) (maxContrib : Z.t) (weekIdx dayIdx : Z.t)
    (day : ContributionDay) : Result (list Triangle) :=
  let height := NormalizeContribution (ContributionCount day) maxContrib in
  let x := float64 weekIdx * CellSize in
  let y := baseYOffset + float64 dayIdx * CellSize in
  CreateColumn x y height CellSize.

(** The inner loop of [CreateContributionGeometry] over the days of a week;
    [None] is the early [return nil]. *)
Fixpoint daysLoop (baseYOffset : float) (maxContrib : Z.t) (weekIdx : Z.t)
    (dayIdx : Z.t) (week : list ContributionDay) (acc : list Triangle)
    : option (list Triangle) :=
  match week with
  | [] => Some acc
  | day :: rest =>
      if (0 <? ContributionCount day)%Z then
        match cellColumn baseYOffset maxContrib weekIdx dayIdx day with
        | Ok columnTriangles =>
            daysLoop baseYOffset maxContrib weekIdx (dayIdx + 1) rest (acc ++ columnTriangles)
        | Err _ =>
            match logCall Warning "Failed to generate column geometry: %v. Skipping column." with
            | Some _ => None
            | None => daysLoop baseYOffset maxContrib weekIdx (dayIdx + 1) rest acc
            end
        end
      else daysLoop baseYOffset maxContrib weekIdx (dayIdx + 1) rest acc
  end.

Fixpoint weeksLoop (baseYOffset : float) (maxContrib : Z.t) (weekIdx : Z.t)
    (contributions : Grid) (acc : list Triangle) : option (list Triangle) :=
  match contributions with
  | [] => Some acc
  | week :: rest =>
      match daysLoop baseYOffset maxContrib weekIdx 0 week acc with
      | Some acc' => weeksLoop baseYOffset maxContrib (weekIdx + 1) rest acc'
      | None => None
      end
  end.

(** [CreateContributionGeometry] of generator.go: one result, [nil] on the
    early return. *)
Definition CreateContributionGeometry (contributions : Grid) (yearIndex : Z.t) (maxContrib : Z.t)
    : list Triangle :=
  let baseYOffset := float64 yearIndex * (YearOffset + YearSpacing) in
  match weeksLoop baseYOffset maxContrib 0 contributions [] with
  | Some ts => ts
  | None => []
  end.

End Generator.

(** ** Package geometry: text.go *)

Section Text.
Context `{Geometry}.

Definition baseWidthVoxelResolution : Z.t := 2000.
Definition voxelDepth : float := 1.0.

Definition logoScale : float := 0.5.
Definition logoTopOffset : float := -0.18.
Definition logoLeftOffset : float := 0.03.

Definition usernameFontSize : float := 120.0.
Definition usernameJustification : string := "left".
Definition usernameLeftOffset : float := 0.1.

Definition yearFontSize : float := 100.0.
Definition yearJustification : string := "right".
Definition yearLeftOffset : float := 0.97.

Definition additionalTextFontSize : float := 150.0.
Definition additionalTextJustification : string := "center".
Definition additionalTextLeftOffset : float := 0.5.
Definition additionalTextTopOffset : float := 0.5.

Definition createVoxelOnFace (x y height baseWidth baseHeight : float) : Result (list Triangle) :=
  let xResolution := float64 baseWidthVoxelResolution in
  let yResolution := xResolution * baseHeight / baseWidth in
  let voxelSize := 1.0 in
  let x := (x / xResolution) * baseWidth in
  let y := (y / yResolution) * baseHeight in
  let voxelSizeX := (voxelSize / xResolution) * baseWidth in
  let voxelSizeY := (voxelSize / yResolution) * baseHeight in
  CreateCube x (- height) (- voxelSizeY - y) voxelSizeX height voxelSizeY.

Definition createVoxelOnTop (x y height baseWidth baseDepth baseHeight : float)
    : Result (list Triangle) :=
  let xResolution := float64 baseWidthVoxelResolution in
  let yResolution := xResolution * baseDepth / baseWidth in
  let voxelSize := 1.0 in
  let x := (x / xResolution) * baseWidth in
  let y := baseDepth - (y / yResolution) * baseDepth in
  let voxelSizeX := (voxelSize / xResolution) * baseWidth in
  let voxelSizeY := (voxelSize / yResolution) * baseDepth in
  CreateCube x y 0 voxelSizeX voxelSizeY height.

(** [triangles = append(triangles, voxel...)] after the error test that
    follows every voxel construction in text.go. *)
Definition appendVoxel (triangles : list Triangle) (voxel : Result (list Triangle))
    : Result (list Triangle) :=
  match voxel with
  | Ok v => Ok (triangles ++ v)
  | Err e => Err (New STLError "failed to create cube" (Some e))
  end.

(** [writeTempFont(PrimaryFont)], the fallback font on failure, then
    [dc.LoadFontFace]. *)
Definition loadFont (fontSize : float) : Result string :=
  let loaded :=
    match writeTempFont PrimaryFont with
    | Ok fontPath => Ok fontPath
    | Err _ =>
        match writeTempFont FallbackFont with
        | Ok fontPath => Ok fontPath
        | Err e => Err (New IOError "failed to load any fonts" (Some e))
        end
    end in
  bindR loaded (fun fontPath =>
  match LoadFontFace fontPath fontSize with
  | Some e => Err (New IOError "failed to load font" (Some e))
  | None => Ok fontPath
  end).

Definition justificationPercent (justification : string) : float :=
  if String.eqb justification "center" then 0.5
  else if String.eqb justification "right" then 1.0
  else 0.0.

(** [isPixelActive]: the red channel of a canvas pixel. *)
Definition isPixelActive (red : Z.t -> Z.t -> Z.t) (x y : Z.t) : bool := (32768 <? red x y)%Z.

Definition renderText (text justification : string) (leftOffsetPercent fontSize : float)
    (baseWidth baseHeight : float) : Result (list Triangle) :=
  let faceWidthRes := baseWidthVoxelResolution in
  let faceHeightRes := int (float64 faceWidthRes * baseHeight / baseWidth) in
  bindR (loadFont fontSize) (fun fontPath =>
  let dc := canvasRed faceWidthRes faceHeightRes fontPath fontSize text
              (float64 faceWidthRes * leftOffsetPercent)
              (float64 faceHeightRes * 0.5)
              (justificationPercent justification) 0.5 in
  forEachR (fun triangles x =>
    forEachR (fun triangles y =>
      if isPixelActive dc x y then
        appendVoxel triangles
          (createVoxelOnFace (float64 x) (float64 y) voxelDepth baseWidth baseHeight)
      else Ok triangles)
      (upto faceHeightRes) triangles)
    (upto faceWidthRes) []).

Definition renderTextOnTop (text justification : string)
    (leftOffsetPercent topOffsetPercent fontSize baseWidth baseDepth baseHeight : float)
    : Result (list Triangle) :=
  let faceWidthRes := baseWidthVoxelResolution in
  let faceDepthRes := int (float64 faceWidthRes * baseDepth / baseWidth) in
  bindR (loadFont fontSize) (fun fontPath =>
  let dc := canvasRed faceWidthRes faceDepthRes fontPath fontSize text
              (float64 faceWidthRes * leftOffsetPercent)
              (float64 faceDepthRes * topOffsetPercent)
              (justificationPercent justification) 0.5 in
  forEachR (fun triangles x =>
    forEachR (fun triangles y =>
      if isPixelActive dc x y then
        appendVoxel triangles
          (createVoxelOnTop (float64 x) (float64 y) voxelDepth baseWidth baseDepth baseHeight)
      else Ok triangles)
      (upto faceDepthRes) triangles)
    (upto faceWidthRes) []).

Definition Create3DText (username year : string) (baseWidth baseHeight baseDepth : float)
    (additionalText : string) : Result (list Triangle) :=
  let allTriangles := [] in
  bindR (if String.eqb username "" then Ok allTriangles
         else bindR (renderText username usernameJustification usernameLeftOffset
                       usernameFontSize baseWidth baseHeight)
                    (fun usernameTriangles => Ok (allTriangles ++ usernameTriangles)))
    (fun allTriangles =>
  bindR (renderText year yearJustification yearLeftOffset yearFontSize baseWidth baseHeight)
    (fun yearTriangles =>
  let allTriangles := allTriangles ++ yearTriangles in
  if String.eqb additionalText "" then Ok allTriangles
  else bindR (renderTextOnTop additionalText additionalTextJustification
                additionalTextLeftOffset additionalTextTopOffset additionalTextFontSize
                baseWidth baseDepth baseHeight)
             (fun topTriangles => Ok (allTriangles ++ topTriangles)))).

Definition renderImage (filePath : string)
    (scale height leftOffsetPercent topOffsetPercent baseWidth baseHeight : float)
    : Result (list Triangle) :=
  let faceWidthRes := baseWidthVoxelResolution in
  let faceHeightRes := int (float64 faceWidthRes * baseHeight / baseWidth) in
  match osOpenImage filePath with
  | Some e => Err (New IOError "failed to open image" (Some e))
  | None =>
      match pngDecode filePath with
      | Err e => Err (New IOError "failed to decode PNG" (Some e))
      | Ok img =>
          let logoWidth := boundsMaxX img in
          let logoHeight := boundsMaxY img in
          forEachR (fun triangles x =>
            forEachR (fun triangles y =>
              let px := colorRGBA (At img x y) in
              let r := chR px in
              let a := chA px in
              if (32768 <? a)%Z && (32768 <? r)%Z then
                appendVoxel triangles
                  (createVoxelOnFace
                     ((leftOffsetPercent * float64 faceWidthRes) + float64 x * scale)
                     ((topOffsetPercent * float64 faceHeightRes) + float64 y * scale)
                     height baseWidth baseHeight)
              else Ok triangles)
              (downfrom logoHeight) triangles)
            (upto logoWidth) []
      end
  end.


Definition GenerateImageGeometryWithPath (imgPath : string) (baseWidth baseHeight : float)
    : Result (list Triangle) :=
  renderImage imgPath logoScale voxelDepth logoLeftOffset logoTopOffset baseWidth baseHeight.

End Text.

(** ** Package stl: generator.go, continued *)

(** *** Mesh transform utilities *)

(** [for i, t := range src { dst[i] = f(t) }], the loop of
    [translateTriangles] and [scaleTriangles]; [i] is the running index. *)
Fixpoint rangeStore {A B : Type} (f : A -> B) (i : nat) (src : list A) (dst : list B) : list B :=
  match src with
  | [] => dst
  | t :: rest => rangeStore f (S i) rest (<[i := f t]> dst)
  end.

Record BoundingBox := mkBox {
  minX : float; minY : float; minZ : float;
  maxX : float; maxY : float; maxZ : float
}.

Definition boxVertex (b : BoundingBox) (v : Point3D) : BoundingBox :=
  let b := if X v <? minX b then mkBox (X v) (minY b) (minZ b) (maxX b) (maxY b) (maxZ b) else b in
  let b := if Y v <? minY b then mkBox (minX b) (Y v) (minZ b) (maxX b) (maxY b) (maxZ b) else b in
  let b := if Z v <? minZ b then mkBox (minX b) (minY b) (Z v) (maxX b) (maxY b) (maxZ b) else b in
  let b := if maxX b <? X v then mkBox (minX b) (minY b) (minZ b) (X v) (maxY b) (maxZ b) else b in
  let b := if maxY b <? Y v then mkBox (minX b) (minY b) (minZ b) (maxX b) (Y v) (maxZ b) else b in
  let b := if maxZ b <? Z v then mkBox (minX b) (minY b) (minZ b) (maxX b) (maxY b) (Z v) else b in
  b.

Definition calcBoundingBox (triangles : list Triangle) : BoundingBox :=
  fold_left (fun b t => fold_left boxVertex [V1 t; V2 t; V3 t] b) triangles
    (mkBox MaxFloat64 MaxFloat64 MaxFloat64 (- MaxFloat64) (- MaxFloat64) (- MaxFloat64)).

Definition translateTriangles (triangles : list Triangle) (dx dy dz : float) : list Triangle :=
  let moved := replicate (length triangles) zeroTriangle in
  rangeStore (fun t =>
    mkTriangle (Normal t)
      (mkPoint3D (X (V1 t) + dx) (Y (V1 t) + dy) (Z (V1 t) + dz))
      (mkPoint3D (X (V2 t) + dx) (Y (V2 t) + dy) (Z (V2 t) + dz))
      (mkPoint3D (X (V3 t) + dx) (Y (V3 t) + dy) (Z (V3 t) + dz)))
    0%nat triangles moved.

Definition scaleTriangles (triangles : list Triangle) (scale : float) : list Triangle :=
  let scaled := replicate (length triangles) zeroTriangle in
  rangeStore (fun t =>
    mkTriangle (Normal t)
      (mkPoint3D (X (V1 t) * scale) (Y (V1 t) * scale) (Z (V1 t) * scale))
      (mkPoint3D (X (V2 t) * scale) (Y (V2 t) * scale) (Z (V2 t) * scale))
      (mkPoint3D (X (V3 t) * scale) (Y (V3 t) * scale) (Z (V3 t) * scale)))
    0%nat triangles scaled.

(** *** The fan-in of generateModelGeometry

    Four goroutines, one unbuffered channel each; the main goroutine
    receives from the channels in the order of a fixed list of names, then
    waits on the wait group.  A send on an unbuffered channel completes only
    together with the matching receive, and a goroutine's deferred
    [wg.Done] runs when it returns. *)

Module Orchestrator.

(** The order of [[]string{"base", "image", "columns", "text"}]. *)
Definition receiveOrder : list Task := [TBase; TImage; TColumns; TText].

(** What a goroutine will do with its channel: send this result, or
    return without sending. *)
Abbreviation Behaviour := (Task -> option geometryResult).

(** One iteration of the receive loop, given the value received. *)
Definition mergeResult (name : Task) (result : geometryResult) (modelTriangles : list Triangle)
    : Result (list Triangle) :=
  match err result with
  | Some e => Err (Wrap e ("failed to generate " +:+ taskName name +:+ " geometry"))
  | None => Ok (modelTriangles ++ triangles result)
  end.

(** The receive loop as the main goroutine sees it when every channel
    delivers at once. *)
Fixpoint receiveAll (deliver : Behaviour) (names : list Task) (modelTriangles : list Triangle)
    : Outcome (list Triangle) :=
  match names with
  | [] => Ret modelTriangles
  | name :: rest =>
      match deliver name with
      | None => Blocked
      | Some result =>
          match mergeResult name result modelTriangles with
          | Ok modelTriangles => receiveAll deliver rest modelTriangles
          | Err e => Fail e
          end
      end
  end.

(** The interleaving semantics. *)

Inductive Producer :=
| Working                       (* started by [go], not yet at its send *)
| Sending (r : geometryResult)  (* blocked in [ch <- r] *)
| Sent                          (* the send is done, the function has not returned *)
| Exited.                       (* returned; the deferred [wg.Done] has run *)

Inductive Main :=
| Receiving (names : list Task) (modelTriangles : list Triangle)
| Waiting (modelTriangles : list Triangle)      (* in [wg.Wait] *)
| Returned (result : Result (list Triangle)).

Record State := mkState {
  base : Producer; columns : Producer; text : Producer; image : Producer;
  main : Main
}.

Definition producer (st : State) (t : Task) : Producer :=
  match t with
  | TBase => base st
  | TColumns => columns st
  | TText => text st
  | TImage => image st
  end.

Definition setProducer (st : State) (t : Task) (p : Producer) : State :=
  match t with
  | TBase => mkState p (columns st) (text st) (image st) (main st)
  | TColumns => mkState (base st) p (text st) (image st) (main st)
  | TText => mkState (base st) (columns st) p (image st) (main st)
  | TImage => mkState (base st) (columns st) (text st) p (main st)
  end.

Definition setMain (st : State) (m : Main) : State :=
  mkState (base st) (columns st) (text st) (image st) m.

Definition isExited (p : Producer) : bool :=
  match p with Exited => true | _ => false end.

(** After the four [go] statements. *)
Definition start : State :=
  mkState Working Working Working Working (Receiving receiveOrder []).

(** The scheduler picks who moves next. *)
Inductive Action := RunProducer (t : Task) | RunMain.

Definition step (deliver : Behaviour) (st : State) (a : Action) : State :=
  match a with
  | RunProducer t =>
      match producer st t with
      | Working =>
          match deliver t with
          | Some r => setProducer st t (Sending r)
          | None => setProducer st t Exited
          end
      | Sending _ => st              (* a sender waits for the receiver *)
      | Sent => setProducer st t Exited
      | Exited => st
      end
  | RunMain =>
      match main st with
      | Receiving (name :: rest) modelTriangles =>
          match producer st name with
          | Sending r =>
              let st := setProducer st name Sent in
              match mergeResult name r modelTriangles with
              | Ok modelTriangles => setMain st (Receiving rest modelTriangles)
              | Err e => setMain st (Returned (Err e))
              end
          | _ => st                  (* the receive blocks *)
          end
      | Receiving [] modelTriangles => setMain st (Waiting modelTriangles)
      | Waiting modelTriangles =>
          if isExited (base st) && isExited (columns st) && isExited (text st)
             && isExited (image st)
          then setMain st (Returned (Ok modelTriangles))
          else st                    (* wg.Wait blocks *)
      | Returned _ => st
      end
  end.

Definition run (deliver : Behaviour) (schedule : list Action) : State :=
  fold_left (step deliver) schedule start.

(** What generateModelGeometry has returned, if it has. *)
Definition returned (st : State) : option (Result (list Triangle)) :=
  match main st with
  | Returned r => Some r
  | _ => None
  end.

(** One round in which every goroutine gets to move once, and six such
    rounds: enough for four receives, the end of the loop and the wait. *)
Definition round : list Action :=
  [RunProducer TBase; RunProducer TColumns; RunProducer TText; RunProducer TImage; RunMain].

Definition sixRounds : list Action :=
  round ++ round ++ round ++ round ++ round ++ round.

(** Every goroutine sends a result. *)
Definition sending (baseR columnsR textR imageR : geometryResult) : Behaviour :=
  fun t =>
    match t with
    | TBase => Some baseR
    | TColumns => Some columnsR
    | TText => Some textR
    | TImage => Some imageR
    end.

(** Every goroutine sends the mesh it built, with a nil error. *)
Definition delivering (baseT columnsT textT imageT : list Triangle) : Behaviour :=
  sending (mkResult baseT None) (mkResult columnsT None) (mkResult textT None)
          (mkResult imageT None).

End Orchestrator.

Section Generation.
Context `{Logger} `{Geometry} `{System}.

(** [fmt.Sprintf("%d", endYear)] or [fmt.Sprintf("%04d-%02d", startYear, endYear%100)] *)
Definition embossedRight (startYear endYear : Z.t) (rightText : string) : string :=
  if negb (String.eqb rightText "") then rightText
  else if (startYear =? endYear)%Z then pretty endYear
  else padInt 4 startYear +:+ "-" +:+ padInt 2 (Z.rem endYear 100).

Definition generateText (username : string) (startYear endYear : Z.t) (dims : modelDimensions)
    (topText rightText : string) : geometryResult :=
  sendOrWarn
    (Create3DText username (embossedRight startYear endYear rightText)
       (innerWidth dims) BaseHeight (innerDepth dims) topText)
    "Failed to generate text geometry: %v. Continuing without text.".


Definition generateLogoWithCustomPath (dims : modelDimensions) (logoPath : string)
    : geometryResult :=
  sendOrWarn (GenerateImageGeometryWithPath logoPath (innerWidth dims) BaseHeight)
             "Failed to generate logo geometry: %v. Continuing without logo.".

(** What each of the four goroutines started by [generateModelGeometry]
    does with its channel. *)
Definition producers (contributionsPerYear : list Grid) (dims : modelDimensions)
    (maxContrib : Z.t) (startYear endYear : Z.t) (topText rightText : string)
    : Orchestrator.Behaviour :=
  fun t =>
    match t with
    | TBase => Some (generateBase dims)
    | TColumns => generateColumnsForYearRange contributionsPerYear maxContrib
    | TText => Some (generateText "" startYear endYear dims topText rightText)
    | TImage => Some (generateLogoWithCustomPath dims "logo.png")
    end.

(** [generateModelGeometry], seen from the main goroutine: the guard, the
    four [go] statements, the receive loop. *)
Definition generateModelGeometry (contributionsPerYear : list Grid) (dims : modelDimensions)
    (maxContrib : Z.t) (username : string) (startYear endYear : Z.t)
    (topText rightText : string) : Run (list Triangle) :=
  if decide (length contributionsPerYear = 0%nat) then
    lift (Fail (New ValidationError "contributions data cannot be empty" None))
  else
    emit (EvGo TBase) ;;;
    emit (EvGo TColumns) ;;;
    emit (EvGo TText) ;;;
    emit (EvGo TImage) ;;;
    first <- lift (index contributionsPerYear 0) ;;
    let capacity := (estimateTriangleCount first * Z.of_nat (length contributionsPerYear))%Z in
    lift (Orchestrator.receiveAll
            (producers contributionsPerYear dims maxContrib startYear endYear topText rightText)
            Orchestrator.receiveOrder []).

(** The offsets [dx], [dy], [dz] that [GenerateSTLRange] computes for the
    scaled character mesh. *)
Definition characterOffset (dimensions : modelDimensions) (characterTriangles : list Triangle)
    : float * float * float :=
  let b := calcBoundingBox characterTriangles in
  let charWidth := maxX b - minX b in
  let charDepth := maxY b - minY b in
  let dx := innerWidth dimensions - charWidth - minX b - 10 in
  let offset := 3.0 in
  let dy := innerDepth dimensions - charDepth - minY b - offset in
  let dz := 0 - minZ b - 0.5 in
  (dx, dy, dz).

(** The character mesh as [GenerateSTLRange] appends it: scaled to 70%,
    then moved by [characterOffset]. *)
Definition placeCharacter (dimensions : modelDimensions) (characterTriangles : list Triangle)
    : list Triangle :=
  let characterTriangles := scaleTriangles characterTriangles 0.7 in
  let '(dx, dy, dz) := characterOffset dimensions characterTriangles in
  translateTriangles characterTriangles dx dy dz.

(** Reading character.stl: the probe of the first 80 bytes, then the
    reader it selects. *)
Definition readCharacter : Run (Result (list Triangle)) :=
  emit (EvRead "character.stl") ;;;
  let isBinary :=
    match readHeader "character.stl" with
    | Some (header, None) => negb (HasPrefix header "solid")
    | _ => true
    end in
  emit (EvRead "character.stl") ;;;
  attempt (if isBinary then ofResult (ReadSTLBinary "character.stl")
           else ReadASCIISTL "character.stl").

Definition GenerateSTLRange (contributions : list Grid) (outputPath username : string)
    (startYear endYear : Z.t) (topText rightText : string) : Run unit :=
  logOr Debug "Starting STL generation for user %s, years %d-%d"
        "failed to log debug message" ;;;
  first <- lift (index contributions 0) ;;
  lift (wrapErr (validateInput first outputPath username) "input validation failed") ;;;
  dimensions <- lift (wrapErr (calculateDimensions (Z.of_nat (length contributions)))
                        "failed to calculate dimensions") ;;
  let maxContribution := findMaxContributionsAcrossYears contributions in
  modelTriangles <- wrapRun (generateModelGeometry contributions dimensions maxContribution
                               username startYear endYear topText rightText)
                      "failed to generate geometry" ;;
  read <- readCharacter ;;
  modelTriangles <-
    (match read with
     | Ok (t :: ts) =>
         let characterTriangles := placeCharacter dimensions (t :: ts) in
         let modelTriangles := modelTriangles ++ characterTriangles in
         logOr Info "Merged character.stl with %d triangles (right-top, scaled)"
               "failed to log info message" ;;;
         ret modelTriangles
     | Ok [] | Err _ =>
         logOr Debug "No character.stl found or error reading it: %v"
               "failed to log debug message" ;;;
         ret modelTriangles
     end) ;;
  logOr Info "Model generation complete: %d total triangles" "failed to log info message" ;;;
  logOr Debug "Writing STL file to: %s" "failed to log debug message" ;;;
  emit (EvWrite outputPath modelTriangles) ;;;
  lift (wrapErr (check (WriteSTLBinary outputPath modelTriangles)) "failed to write STL file") ;;;
  logOr Info "STL file written successfully to: %s" "failed to log info message".

Definition GenerateSTL (contributions : Grid) (outputPath username : string) (year : Z.t)
    (topText rightText : string) : Run unit :=
  let contributionsRange := [contributions] in
  GenerateSTLRange contributionsRange outputPath username year year topText rightText.

End Generation.

(** ** A concrete environment

    Small stand-ins for the parameters above, to run the embedding on
    concrete inputs.  None of them is the repository's code. *)

Module Sample.

Definition quietLogger : Logger := {| logCall := fun _ _ => None |}.

(** A logger whose [Warning] fails and whose other levels work. *)
Definition brokenWarning : Logger :=
  {| logCall := fun level _ =>
       match level with
       | Warning => Some (Foreign "write: broken pipe")
       | _ => None
       end |}.

(** A logger on which every call fails. *)
Definition brokenLogger : Logger :=
  {| logCall := fun _ _ => Some (Foreign "write: broken pipe") |}.

(** The twelve triangles of the box with corner [(x, y, z)] and extents
    [(l, t, h)]. *)
Definition boxTriangles (x y z l t h : float) : list Triangle :=
  let p (a b c : bool) :=
    mkPoint3D (if a then x + l else x) (if b then y + t else y) (if c then z + h else z) in
  let face (n : Point3D) (a b c d : Point3D) := [mkTriangle n a b c; mkTriangle n a c d] in
  face (mkPoint3D 0 0 (-1)) (p false false false) (p false true false) (p true true false) (p true false false)
  ++ face (mkPoint3D 0 0 1) (p false false true) (p true false true) (p true true true) (p false true true)
  ++ face (mkPoint3D 0 (-1) 0) (p false false false) (p true false false) (p true false true) (p false false true)
  ++ face (mkPoint3D 0 1 0) (p false true false) (p false true true) (p true true true) (p true true false)
  ++ face (mkPoint3D (-1) 0 0) (p false false false) (p false false true) (p false true true) (p false true false)
  ++ face (mkPoint3D 1 0 0) (p true false false) (p true true false) (p true true true) (p true false true).

Definition sampleCube (x y z l t h : float) : Result (list Triangle) :=
  if (l <=? 0) || (t <=? 0) || (h <=? 0)
  then Err (New STLError "invalid cube dimensions" None)
  else Ok (boxTriangles x y z l t h).

(** A 2 x 2 image: an opaque white pixel, an opaque red-less pixel, a
    transparent white pixel and a pixel exactly at the threshold. *)
Definition sampleImage : Image :=
  mkImage 2 2 (fun x y =>
    match x, y with
    | 0%Z, 0%Z => NRGBA 255 255 255 255
    | 0%Z, 1%Z => NRGBA 0 255 255 255
    | 1%Z, 0%Z => NRGBA 255 255 255 0
    | 1%Z, 1%Z => RGBA64 32768 32768 32768 32768
    | _, _ => NRGBA 0 0 0 0
    end).

(** A 2 x 1 image of two translucent pixels: light grey (200 of 255) at an
    alpha of 160 of 255, and white at an alpha of 32768 of 65535. *)
Definition translucentImage : Image :=
  mkImage 2 1 (fun x y =>
    match x with
    | 0%Z => NRGBA 200 200 200 160
    | _ => NRGBA64 65535 65535 65535 32768
    end).

(** The environment for a logo and a [yearGeometry], which is tied below. *)
Definition geometryOf (logo : Image) (year : Grid -> Z.t -> Z.t -> Result (list Triangle))
    : Geometry :=
  {| GridSize := 53;
     CellSize := 2.5;
     YearOffset := 17.5;
     YearSpacing := 0;
     BaseHeight := 10;
     NormalizeContribution := fun count maxCount =>
       if (count =? 0)%Z then 0 else 1 + float64 count * 24 / float64 maxCount;
     CreateColumn := fun x y height size => sampleCube x y 0 size size height;
     CreateCube := sampleCube;
     CreateCuboidBase := fun width depth => sampleCube 0 0 (-10) width depth 10;
     CalculateMultiYearDimensions := fun yearCount => (132.5, float64 yearCount * 17.5);
     yearGeometry := year;
     writeTempFont := fun _ => Err (Foreign "font not available");
     LoadFontFace := fun _ _ => None;
     canvasRed := fun _ _ _ _ _ _ _ _ _ _ _ => 0%Z;
     osOpenImage := fun path =>
       if String.eqb path "logo.png" then None else Some (Foreign "no such file");
     pngDecode := fun _ => Ok logo;
     getEmbeddedImage := Ok "logo.png" |}.

Definition geometryWith (year : Grid -> Z.t -> Z.t -> Result (list Triangle)) : Geometry :=
  geometryOf sampleImage year.

(** The same with the translucent logo. *)
Definition translucentGeometry : Geometry := geometryOf translucentImage (fun _ _ _ => Ok []).


(** [geometry.CreateContributionGeometry] taken to be the function of the
    same name in generator.go, with a nil error. *)
Definition geometry : Geometry :=
  geometryWith (fun contributions yearIndex maxContrib =>
    Ok (@CreateContributionGeometry quietLogger (geometryWith (fun _ _ _ => Ok []))
          contributions yearIndex maxContrib)).

(** A geometry package in which nothing can be built. *)
Definition failingGeometry : Geometry :=
  {| GridSize := 53;
     CellSize := 2.5;
     YearOffset := 17.5;
     YearSpacing := 0;
     BaseHeight := 10;
     NormalizeContribution := fun _ _ => 1;
     CreateColumn := fun _ _ _ _ => Err (Foreign "no column");
     CreateCube := fun _ _ _ _ _ _ => Err (Foreign "no cube");
     CreateCuboidBase := fun _ _ => Err (Foreign "no base");
     CalculateMultiYearDimensions := fun yearCount => (132.5, float64 yearCount * 17.5);
     yearGeometry := fun _ _ _ => Ok [];
     writeTempFont := fun _ => Err (Foreign "font not available");
     LoadFontFace := fun _ _ => None;
     canvasRed := fun _ _ _ _ _ _ _ _ _ _ _ => 0%Z;
     osOpenImage := fun _ => Some (Foreign "no such file");
     pngDecode := fun _ => Err (Foreign "not a PNG");
     getEmbeddedImage := Err (Foreign "no embedded image") |}.

Definition isDigit (c : ascii) : bool :=
  (48 <=? nat_of_ascii c)%nat && (nat_of_ascii c <=? 57)%nat.

Fixpoint digitsValue (s : string) (acc : Z.t) : option Z.t :=
  match s with
  | EmptyString => Some acc
  | String c rest =>
      if isDigit c then digitsValue rest (10 * acc + Z.of_nat (nat_of_ascii c - 48))%Z
      else None
  end.

(** A stand-in for [strconv.ParseFloat]: decimal integers below 2^53 with
    an optional minus sign; every other string is reported as a syntax
    error with value 0 (strconv.ParseFloat accepts more). *)
Definition parseFloat (s : string) : float * option NumError :=
  let '(negative, body) :=
    match s with
    | String "-"%char rest => (true, rest)
    | _ => (false, s)
    end in
  match body with
  | EmptyString => (0, Some ErrSyntax)
  | _ =>
      match digitsValue body 0 with
      | Some v =>
          if (v <? 2 ^ 53)%Z
          then (if negative then - float64 v else float64 v, None)
          else (0, Some ErrSyntax)
      | None => (0, Some ErrSyntax)
      end
  end.

(** An ASCII STL file of one facet whose last coordinate is malformed. *)
Definition characterLines : list string :=
  ["solid character";
   "  facet normal 0 0 1";
   "    outer loop";
   "      vertex 0 0 4";
   "      vertex 10 0 4";
   "      vertex 0 10 4.x";
   "    endloop";
   "  endfacet";
   "endsolid character"].

(** A file system that holds character.stl in ASCII form. *)
Definition system : System :=
  {| readHeader := fun path =>
       if String.eqb path "character.stl" then Some ("solid character", None) else None;
     scanFile := fun path =>
       if String.eqb path "character.stl" then Ok (characterLines, None)
       else Err (Foreign "no such file");
     ParseFloat := parseFloat;
     ReadSTLBinary := fun _ => Err (Foreign "unexpected EOF");
     WriteSTLBinary := fun _ _ => None |}.

(** A file system without character.stl. *)
Definition bareSystem : System :=
  {| readHeader := fun _ => None;
     scanFile := fun _ => Err (Foreign "no such file");
     ParseFloat := parseFloat;
     ReadSTLBinary := fun _ => Err (Foreign "no such file");
     WriteSTLBinary := fun _ _ => None |}.




(** A no-break space, U+00A0, in UTF-8. *)
Definition nbsp : string := String "194"%char (String "160"%char EmptyString).

Definition day (count : Z.t) : ContributionDay := mkDay "2023-01-01" count.

(** One year: two weeks, with two active cells. *)
Definition year2023 : Grid := [[day 5; day 0]; [day 0; day 2]].

Definition unitTriangle : Triangle :=
  mkTriangle (mkPoint3D 0 0 1) (mkPoint3D 0 0 0) (mkPoint3D 1 0 0) (mkPoint3D 0 1 0).

End Sample.

(** ** Predicates used in the statements *)

(** The triangles of a successful construction; none for a failed one. *)
Definition trianglesOf (r : Result (list Triangle)) : list Triangle :=
  match r with
  | Ok ts => ts
  | Err _ => []
  end.

(** [|a - b| <= tol], as a float comparison. *)
Definition closeWithin (tol a b : float) : bool := abs (a - b) <=? tol.

(** The three vertices of a triangle. *)
Definition vertices (t : Triangle) : list Point3D := [V1 t; V2 t; V3 t].

(** A finite float64 is an integer multiple of 2^-1074: its value in these
    units, on the specification side of Rocq's floats and on the floats
    themselves (0 for an infinity and for a NaN). *)
Definition sfUnits (x : spec_float) : Z.t :=
  match x with
  | S754_finite s m e => (cond_Zopp s (Zpos m) * 2 ^ (e + 1074))%Z
  | _ => 0%Z
  end.

Definition sfFinite (x : spec_float) : bool :=
  match x with
  | S754_finite _ _ _ | S754_zero _ => true
  | _ => false
  end.

Definition units (f : float) : Z.t := sfUnits (Prim2SF f).

(** Neither an infinity nor a NaN. *)
Definition finite (f : float) : bool := sfFinite (Prim2SF f).

(** [c] and the offset [d] are finite, and |c| + |d| is at most 2^1021. *)
Definition moderate (d c : float) : Prop :=
  finite c = true /\ finite d = true
  /\ (Z.abs (units c) + Z.abs (units d) <= 2 ^ 2095)%Z.

(** [back] is finite and within 2^-51 * (|c| + |d|) of [c]. *)
Definition near (d c back : float) : Prop :=
  finite back = true
  /\ (2 ^ 51 * Z.abs (units back - units c) <= Z.abs (units c) + Z.abs (units d))%Z.

(** What a shift record of the rounding of a float says of the number [m0]
    it comes from, after [k] shifts to the right: the quotient, and where
    the remainder lies in the last unit. *)
Definition shifted (m0 : Z.t) (k : Z.t) (mrs : shr_record) : Prop :=
  (0 <= shr_m mrs
   /\ exists rem,
        m0 = shr_m mrs * 2 ^ k + rem /\ 0 <= rem < 2 ^ k
        /\ match shr_r mrs, shr_s mrs with
           | false, false => rem = 0
           | false, true => 0 < 2 * rem < 2 ^ k
           | true, false => 2 * rem = 2 ^ k
           | true, true => 2 ^ k < 2 * rem
           end)%Z.

(** One triangle after [scaleTriangles] and after [translateTriangles]. *)
Definition scaled (scale : float) (t : Triangle) : Triangle :=
  mkTriangle (Normal t)
    (mkPoint3D (X (V1 t) * scale) (Y (V1 t) * scale) (Z (V1 t) * scale))
    (mkPoint3D (X (V2 t) * scale) (Y (V2 t) * scale) (Z (V2 t) * scale))
    (mkPoint3D (X (V3 t) * scale) (Y (V3 t) * scale) (Z (V3 t) * scale)).

Definition moved (dx dy dz : float) (t : Triangle) : Triangle :=
  mkTriangle (Normal t)
    (mkPoint3D (X (V1 t) + dx) (Y (V1 t) + dy) (Z (V1 t) + dz))
    (mkPoint3D (X (V2 t) + dx) (Y (V2 t) + dy) (Z (V2 t) + dz))
    (mkPoint3D (X (V3 t) + dx) (Y (V3 t) + dy) (Z (V3 t) + dz)).


(** The mesh of the first write in a trace. *)
Fixpoint written (trace : list Event) : list Triangle :=
  match trace with
  | [] => []
  | EvWrite _ mesh :: _ => mesh
  | _ :: rest => written rest
  end.


Section ColumnPredicates.
Context `{Geo : Geometry}.

(** The box of one cell, if the cell is active and the box can be built. *)
Definition cellBox (yearIndex maxContrib : Z.t) (weekIdx dayIdx : Z.t) (day : ContributionDay)
    : list Triangle :=
  if (0 <? ContributionCount day)%Z then
    trianglesOf
      (CreateColumn (float64 weekIdx * CellSize)
                    (float64 yearIndex * (YearOffset + YearSpacing) + float64 dayIdx * CellSize)
                    (NormalizeContribution (ContributionCount day) maxContrib)
                    CellSize)
  else [].

(** Every active cell of the week gets its column built. *)
Definition columnsBuilt (yearIndex maxContrib : Z.t) (weekIdx : Z.t) (dayIdx : Z.t)
    (week : list ContributionDay) : Prop :=
  forall (d : nat) (day : ContributionDay),
    week !! d = Some day -> (0 < ContributionCount day)%Z ->
    exists box,
      CreateColumn (float64 weekIdx * CellSize)
                   (float64 yearIndex * (YearOffset + YearSpacing)
                    + float64 (dayIdx + Z.of_nat d) * CellSize)
                   (NormalizeContribution (ContributionCount day) maxContrib)
                   CellSize = Ok box.

End ColumnPredicates.

(** *** Invariants of the fan-in *)

Section FanInInvariants.
Import Orchestrator.
Variable deliver : Behaviour.

(** What the receive loop computes from the results the goroutines send. *)
Definition target : Outcome (list Triangle) := receiveAll deliver receiveOrder [].

(** The main goroutine is on its way to [target]. *)
Definition mainAgrees (m : Main) : Prop :=
  match m with
  | Receiving names modelTriangles => receiveAll deliver names modelTriangles = target
  | Waiting modelTriangles => Ret modelTriangles = target
  | Returned r => ofResult r = target
  end.

Definition Safe (st : State) : Prop :=
  (forall t r, producer st t = Sending r -> deliver t = Some r) /\ mainAgrees (main st).

(** A goroutine that has not completed its send. *)
Definition pending (p : Producer) : bool :=
  match p with
  | Working | Sending _ => true
  | Sent | Exited => false
  end.

(** The goroutines still to be received from are pending, unless they
    return without sending; the others are not. *)
Definition Live (st : State) : Prop :=
  match main st with
  | Receiving names _ =>
      (exists received, received ++ names = receiveOrder)
      /\ forall t, (t ∈ names -> deliver t <> None -> pending (producer st t) = true)
                   /\ (t ∉ names -> pending (producer st t) = false)
  | Waiting _ => forall t, pending (producer st t) = false
  | Returned _ => True
  end.

(** Rounds the main goroutine still needs. *)
Definition remaining (st : State) : nat :=
  match main st with
  | Receiving names _ => length names + 2
  | Waiting _ => 1
  | Returned _ => 0
  end.

(** A producer after it has been given one turn. *)
Definition settle (t : Task) (p : Producer) : Producer :=
  match p with
  | Working =>
      match deliver t with
      | Some r => Sending r
      | None => Exited
      end
  | Sending r => Sending r
  | Sent | Exited => Exited
  end.

End FanInInvariants.

(** ** Package utils *)

(** What package utils and package skyline take from Go's library:
    [strconv.Atoi], the year of [time.Now()], and the month of
    [time.Parse("2006-01-02", date)] ([None] when the date does not parse). *)
Class Library := {
  Atoi : string -> Result Z.t;
  currentYear : Z.t;
  parseMonth : string -> option Z.t
}.

Definition githubLaunchYear : Z.t := 2008.

(** [strings.Contains] *)
Fixpoint Contains (s substr : string) : bool :=
  String.prefix substr s
  || match s with
     | String _ rest => Contains rest substr
     | EmptyString => false
     end.

(** [strings.Split(s, sep)] for a separator of one byte; [cur] is the
    piece being read. *)
Fixpoint splitFrom (sep : ascii) (s : string) (cur : string) : list string :=
  match s with
  | EmptyString => [cur]
  | String c rest =>
      if Ascii.eqb c sep then cur :: splitFrom sep rest EmptyString
      else splitFrom sep rest (cur +:+ String c EmptyString)
  end.

Definition Split (s : string) (sep : ascii) : list string := splitFrom sep s EmptyString.

(** [strings.HasSuffix]: some tail of [s] is [suffix]. *)
Fixpoint HasSuffix (s suffix : string) : bool :=
  String.eqb s suffix
  || match s with
     | String _ rest => HasSuffix rest suffix
     | EmptyString => false
     end.

(** [strings.ToLower] on ASCII text: the letters A-Z are mapped, every
    other byte is kept. *)
Definition lowerChar (c : ascii) : ascii :=
  let n := nat_of_ascii c in
  if (65 <=? n)%nat && (n <=? 90)%nat then ascii_of_nat (n + 32) else c.

Fixpoint ToLower (s : string) : string :=
  match s with
  | EmptyString => EmptyString
  | String c rest => String (lowerChar c) (ToLower rest)
  end.

Section Utils.
Context `{Lib : Library}.

Definition validateYearRange (startYear endYear : Z.t) : option error :=
  if (startYear <? githubLaunchYear)%Z || (currentYear <? endYear)%Z then
    Some (Foreign ("years must be between " +:+ pretty githubLaunchYear +:+ " and "
                   +:+ pretty currentYear))
  else if (endYear <? startYear)%Z then
    Some (Foreign "start year cannot be after end year")
  else None.

(** [ParseYearRange] returns its three results together: on the early
    returns the years are 0; the last [return] gives the parsed years with
    whatever [validateYearRange] says. *)
Definition ParseYearRange (yearRange : string) : Z.t * Z.t * option error :=
  if Contains yearRange "-" then
    let parts := Split yearRange "-"%char in
    match parts with
    | [part0; part1] =>
        match Atoi part0 with
        | Err e => (0%Z, 0%Z, Some e)
        | Ok startYear =>
            match Atoi part1 with
            | Err e => (0%Z, 0%Z, Some e)
            | Ok endYear => (startYear, endYear, validateYearRange startYear endYear)
            end
        end
    | _ => (0%Z, 0%Z, Some (Foreign "invalid year range format"))
    end
  else
    match Atoi yearRange with
    | Err e => (0%Z, 0%Z, Some e)
    | Ok year => (year, year, validateYearRange year year)
    end.

Definition FormatYearRange (startYear endYear : Z.t) : string :=
  if (startYear =? endYear)%Z then pretty startYear
  else padInt 4 startYear +:+ "-" +:+ padInt 2 (Z.rem endYear 100).

Definition GenerateOutputFilename (user : string) (startYear endYear : Z.t) (output : string)
    : string :=
  if negb (String.eqb output "") then
    if negb (HasSuffix (ToLower output) ".stl") then output +:+ ".stl"
    else output
  else
    let yearStr := FormatYearRange startYear endYear in
    user +:+ "-" +:+ yearStr +:+ "-github-skyline.stl".

Definition ValidateMonthRange (startMonth endMonth : Z.t) : option error :=
  if (startMonth <? 1)%Z || (12 <? startMonth)%Z || (endMonth <? 1)%Z || (12 <? endMonth)%Z then
    Some (Foreign "months must be between 1 and 12")
  else if (endMonth <? startMonth)%Z then
    Some (Foreign "start month cannot be after end month")
  else None.

(** ** Package skyline: skyline.go *)

(** The days of a week that [filterContributionsByMonth] keeps. *)
Definition filterDays (week : list ContributionDay) (startMonth endMonth : Z.t)
    : list ContributionDay :=
  fold_left (fun filteredDays day =>
    match parseMonth (Date day) with
    | None => filteredDays
    | Some month =>
        if (startMonth <=? month)%Z && (month <=? endMonth)%Z
        then filteredDays ++ [day]
        else filteredDays
    end) week [].

Definition filterContributionsByMonth (contributions : Grid) (year : Z.t)
    (startMonth endMonth : Z.t) : Grid :=
  fold_left (fun filteredWeeks week =>
    let filteredDays := filterDays week startMonth endMonth in
    if decide (0 < length filteredDays)%nat then filteredWeeks ++ [filteredDays]
    else filteredWeeks) contributions [].

End Utils.

(** *** GenerateSkyline *)

(** [strings.Join] *)
Fixpoint Join (elems : list string) (sep : string) : string :=
  match elems with
  | [] => ""
  | s :: rest =>
      match rest with
      | [] => s
      | _ => s +:+ sep +:+ Join rest sep
      end
  end.

(** [strings.Trim(s, string(r))] for a cutset of the single rune whose
    UTF-8 encoding is [r]: the leading and the trailing copies of [r] are
    removed (for every rune but U+FFFD, removing the rune and removing its
    encoding are the same).  The fuel is the length of [s]. *)
Fixpoint trimLeftRune (fuel : nat) (s r : string) : string :=
  match fuel with
  | O => s
  | S fuel =>
      if negb (String.eqb r "") && String.prefix r s
      then trimLeftRune fuel
             (String.substring (String.length r) (String.length s - String.length r) s) r
      else s
  end.

Fixpoint trimRightRune (fuel : nat) (s r : string) : string :=
  match fuel with
  | O => s
  | S fuel =>
      if negb (String.eqb r "") && HasSuffix s r
      then trimRightRune fuel (String.substring 0 (String.length s - String.length r) s) r
      else s
  end.

Definition Trim (s r : string) : string :=
  let s := trimLeftRune (String.length s) s r in
  trimRightRune (String.length s) s r.

Definition newline : ascii := "010"%char.

(** A week of the calendar in the response of [FetchContributions]. *)
Record WeekData := mkWeek { ContributionDays : list ContributionDay }.

(** What [GenerateSkyline] takes from packages github and ascii, which are
    not among the sources: the error of [InitializeGitHubClient], the three
    methods of the client ([FetchContributions] gives the weeks of the
    calendar of its response), [ascii.GenerateASCII], the two block runes as
    strings, and the text of an error value as [%v] and [%w] print it. *)
Class Client := {
  InitializeGitHubClient : option error;
  GetAuthenticatedUser : Result string;
  GetUserJoinYear : string -> Result Z.t;
  FetchContributions : string -> Z.t -> Result (list WeekData);
  GenerateASCII : Grid -> string -> Z.t -> bool -> bool -> Result string;
  EmptyBlock : string;
  FoundationLow : string;
  ErrorText : error -> string
}.

(** The calls of the client, and what a run of [GenerateSkyline] does:
    effects of package stl and of the logger, calls of the client, lines
    printed on standard output. *)
Inductive Call :=
| InitializeClient
| AuthenticatedUser
| UserJoinYear (username : string)
| Contributions (username : string) (year : Z.t).

Inductive Effect :=
| Ev (e : Event)
| Net (c : Call)
| Println (text : string).

Definition Sky (A : Type) : Type := Outcome A * list Effect.

Definition retS {A} (a : A) : Sky A := (Ret a, []).

Definition bindS {A B} (m : Sky A) (k : A -> Sky B) : Sky B :=
  match fst m with
  | Ret a => (fst (k a), snd m ++ snd (k a))
  | Fail e => (Fail e, snd m)
  | Panic r => (Panic r, snd m)
  | Blocked => (Blocked, snd m)
  end.

Notation "x <~ m ;; k" := (bindS m (fun x => k))
  (at level 100, m at next level, right associativity).
Notation "m ~;; k" := (bindS m (fun _ => k))
  (at level 100, right associativity).

Definition call {A} (c : Call) (o : Outcome A) : Sky A := (o, [Net c]).
Definition println (text : string) : Sky unit := (Ret tt, [Println text]).
Definition fromStl {A} (m : Run A) : Sky A := (fst m, map Ev (snd m)).

(** A run that has returned, among runs that may still be going:
    [Ret None] is the outcome of a run that has not returned yet. *)
Definition finished {A} (m : Sky A) : Sky (option A) :=
  (match fst m with
   | Ret a => Ret (Some a)
   | Fail e => Fail e
   | Panic r => Panic r
   | Blocked => Blocked
   end, snd m).

(** The counter of the loop over the years is a Go [int], 64 bits wide on
    the platforms the program is built for: [year++] at the largest int
    gives the smallest. *)
Definition maxInt : Z.t := 9223372036854775807.
Definition minInt : Z.t := (-9223372036854775808)%Z.

Definition increment (n : Z.t) : Z.t :=
  if (n =? maxInt)%Z then minInt else (n + 1)%Z.

(** [for year := startYear; year <= endYear; year++]: the values that
    [year] has in the first [steps] iterations, and whether the loop has
    ended within them.  With [endYear] the largest int the test holds of
    every [year] and the loop ends only by a [return] in its body. *)
Fixpoint yearsFromTo (steps : nat) (year endYear : Z.t) : list Z.t :=
  match steps with
  | O => []
  | S steps =>
      if (year <=? endYear)%Z then year :: yearsFromTo steps (increment year) endYear
      else []
  end.

Fixpoint loopEnds (steps : nat) (year endYear : Z.t) : bool :=
  if (year <=? endYear)%Z then
    match steps with
    | O => false
    | S steps => loopEnds steps (increment year) endYear
    end
  else true.

Section Skyline.
Context `{Lib : Library} `{Log : Logger} `{Geo : Geometry} `{Sys : System} `{Cli : Client}.

(** A log call whose error [GenerateSkyline] returns as it is. *)
Definition logS (level : LogLevel) (format : string) : Sky unit :=
  (check (logCall level format), [Ev (EvLog level format)]).

(** The text of an error; an error made by [fmt.Errorf] carries its own. *)
Definition errorText (e : error) : string :=
  match e with
  | Foreign message => message
  | _ => ErrorText e
  end.

Definition fetchContributionData (username : string) (year : Z.t) : Sky Grid :=
  call (Contributions username year)
    (match FetchContributions username year with
     | Err err => Fail (Foreign ("failed to fetch contributions: " +:+ errorText err))
     | Ok weeks =>
         let contributionGrid := replicate (length weeks) [] in
         Ret (rangeStore ContributionDays 0%nat weeks contributionGrid)
     end).

(** The index of the first line of the grid in the art of a later year:
    [i] is the index of the first line of [lines]. *)
Fixpoint gridStartFrom (i : nat) (lines : list string) : nat :=
  match lines with
  | [] => 0%nat
  | line :: rest =>
      let containsEmptyBlock := Contains line EmptyBlock in
      let containsFoundationLow := Contains line FoundationLow in
      let isNotOnlyEmptyBlocks := negb (String.eqb (Trim line EmptyBlock) "") in
      if (containsEmptyBlock || containsFoundationLow) && isNotOnlyEmptyBlocks then i
      else gridStartFrom (S i) rest
  end.

(** What is printed for a year after the first: the art without its header. *)
Definition gridOnly (asciiArt : string) : string :=
  let lines := Split asciiArt newline in
  let gridStart := gridStartFrom 0%nat lines in
  Join (drop gridStart lines) (String newline EmptyString).

(** The iterations of the loop over the years of [GenerateSkyline] in
    which [year] has the values [years]. *)
Fixpoint yearsLoop (years : list Z.t) (startYear : Z.t) (targetUser : string) (artOnly : bool)
    (startMonth endMonth : Z.t) (allContributions : list Grid) : Sky (list Grid) :=
  match years with
  | [] => retS allContributions
  | year :: rest =>
      contributions <~ fetchContributionData targetUser year ;;
      let filteredContributions :=
        filterContributionsByMonth contributions year startMonth endMonth in
      let allContributions := allContributions ++ [filteredContributions] in
      (match GenerateASCII filteredContributions targetUser year
               ((year =? startYear)%Z && negb artOnly) (negb artOnly) with
       | Err _ => logS Warning "Failed to generate ASCII preview: %v"
       | Ok asciiArt =>
           if (year =? startYear)%Z then println asciiArt
           else println (gridOnly asciiArt)
       end) ~;;
      yearsLoop rest startYear targetUser artOnly startMonth endMonth allContributions
  end.

(** [GenerateSkyline], followed for [steps] iterations of its loop over the
    years: [Ret (Some tt)] when it has returned nil, [Ret None] when the
    loop is still going. *)
Definition GenerateSkyline (steps : nat) (startYear endYear : Z.t) (targetUser : string)
    (full : bool) (output : string) (artOnly : bool) (text : string)
    (startMonth endMonth : Z.t) (rightText : string) : Sky (option unit) :=
  call InitializeClient
    (match InitializeGitHubClient with
     | Some err => Fail (New NetworkError "failed to initialize GitHub client" (Some err))
     | None => Ret tt
     end) ~;;
  targetUser <~
    (if String.eqb targetUser "" then
       logS Debug "No target user specified, using authenticated user" ~;;
       call AuthenticatedUser
         (match GetAuthenticatedUser with
          | Err err => Fail (New NetworkError "failed to get authenticated user" (Some err))
          | Ok username => Ret username
          end)
     else retS targetUser) ;;
  years <~
    (if full then
       joinYear <~ call (UserJoinYear targetUser)
         (match GetUserJoinYear targetUser with
          | Err err => Fail (New NetworkError "failed to get user join year" (Some err))
          | Ok joinYear => Ret joinYear
          end) ;;
       retS (joinYear, currentYear)
     else retS (startYear, endYear)) ;;
  let startYear := fst years in
  let endYear := snd years in
  (match ValidateMonthRange startMonth endMonth with
   | Some err => (Fail (Foreign ("invalid month range: " +:+ errorText err)), [])
   | None => retS tt
   end) ~;;
  allContributions <~
    yearsLoop (yearsFromTo steps startYear endYear) startYear targetUser artOnly
      startMonth endMonth [] ;;
  if loopEnds steps startYear endYear then
    finished
      (if negb artOnly then
         let outputPath := GenerateOutputFilename targetUser startYear endYear output in
         match allContributions with
         | [only] =>
             fromStl (GenerateSTL only outputPath targetUser startYear text rightText)
         | _ =>
             fromStl (GenerateSTLRange allContributions outputPath targetUser startYear
                        endYear text rightText)
         end
       else retS tt)
  else retS None.

(** The part of [GenerateSkyline] that follows the checks: the loop over
    the years and the generation of the file, for the user and the years the
    set-up has settled. *)
Definition generation (steps : nat) (targetUser : string) (startYear endYear : Z.t)
    (output : string) (artOnly : bool) (text : string) (startMonth endMonth : Z.t)
    (rightText : string) : Sky (option unit) :=
  allContributions <~
    yearsLoop (yearsFromTo steps startYear endYear) startYear targetUser artOnly
      startMonth endMonth [] ;;
  if loopEnds steps startYear endYear then
    finished
      (if negb artOnly then
         let outputPath := GenerateOutputFilename targetUser startYear endYear output in
         match allContributions with
         | [only] =>
             fromStl (GenerateSTL only outputPath targetUser startYear text rightText)
         | _ =>
             fromStl (GenerateSTLRange allContributions outputPath targetUser startYear
                        endYear text rightText)
         end
       else retS tt)
  else retS None.

End Skyline.

(** ** A sample library *)

Module SampleLibrary.

(** A stand-in for [strconv.Atoi]: an optional sign, then decimal digits. *)
Definition atoi (s : string) : Result Z.t :=
  let '(negative, body) :=
    match s with
    | String "-"%char rest => (true, rest)
    | String "+"%char rest => (false, rest)
    | _ => (false, s)
    end in
  match body with
  | EmptyString => Err (Foreign "invalid syntax")
  | _ =>
      match Sample.digitsValue body 0 with
      | Some v => Ok (if negative then (- v)%Z else v)
      | None => Err (Foreign "invalid syntax")
      end
  end.

(** A stand-in for the month of [time.Parse("2006-01-02", date)]: the text
    must have the shape dddd-dd-dd with a month from 01 to 12 (the day of the
    month is not checked). *)
Definition monthOf (date : string) : option Z.t :=
  match date with
  | String y1 (String y2 (String y3 (String y4 (String "-"
      (String m1 (String m2 (String "-" (String d1 (String d2 EmptyString))))))))) =>
      if forallb Sample.isDigit [y1; y2; y3; y4; m1; m2; d1; d2] then
        let month := (10 * Z.of_nat (nat_of_ascii m1 - 48)
                      + Z.of_nat (nat_of_ascii m2 - 48))%Z in
        if (1 <=? month)%Z && (month <=? 12)%Z then Some month else None
      else None
  | _ => None
  end.

Definition library : Library :=
  {| Atoi := atoi; currentYear := 2026; parseMonth := monthOf |}.

Definition day (date : string) (count : Z.t) : ContributionDay := mkDay date count.

(** Two weeks around the turn of January to February. *)
Definition winter : Grid :=
  [[day "2023-01-30" 4; day "2023-01-31" 0; day "2023-02-01" 7];
   [day "2023-02-02" 1; day "2023-02-03" 9]].

(** A client that knows one year of one user, and an art generator that
    always draws the same. *)
Definition client : Client :=
  {| InitializeGitHubClient := None;
     GetAuthenticatedUser := Ok "alice";
     GetUserJoinYear := fun _ => Ok 2022%Z;
     FetchContributions := fun _ year =>
       if (year =? 2023)%Z then Ok (map mkWeek winter) else Ok [];
     GenerateASCII := fun _ _ _ _ _ => Ok "art";
     EmptyBlock := " ";
     FoundationLow := ".";
     ErrorText := fun _ => "error" |}.

End SampleLibrary.

(** ** Further predicates used in the statements *)

(** The number of bytes [c] in [s]. *)
Fixpoint countChar (c : ascii) (s : string) : nat :=
  match s with
  | EmptyString => 0
  | String d rest => (if Ascii.eqb d c then 1 else 0) + countChar c rest
  end.

(** The test of [filterContributionsByMonth] on one day. *)
Definition inMonths `{Lib : Library} (startMonth endMonth : Z.t) (day : ContributionDay) : bool :=
  match parseMonth (Date day) with
  | Some month => (startMonth <=? month)%Z && (month <=? endMonth)%Z
  | None => false
  end.

Definition nonEmpty {A} (xs : list A) : bool :=
  match xs with
  | [] => false
  | _ => true
  end.

(** *** Lines of an ASCII STL file, as [ReadASCIISTL] tells them apart *)

Section ReaderPredicates.
Context `{Sys : System}.

(** A facet-normal line with fewer than five fields, or a vertex line with
    fewer than four. *)
Definition shortLine (text : string) : bool :=
  let line := TrimSpace text in
  if HasPrefix line "facet normal" then (length (Fields line) <? 5)%nat
  else if HasPrefix line "vertex" then (length (Fields line) <? 4)%nat
  else false.

(** A line that is none of facet normal, vertex, endfacet. *)
Definition otherLine (text : string) : bool :=
  let line := TrimSpace text in
  negb (HasPrefix line "facet normal") && negb (HasPrefix line "vertex")
  && negb (HasPrefix line "endfacet").

Definition endsFacet (text : string) : bool :=
  let line := TrimSpace text in
  negb (HasPrefix line "facet normal") && negb (HasPrefix line "vertex")
  && HasPrefix line "endfacet".

(** The normal of a complete facet-normal line, the point of a complete
    vertex line. *)
Definition normalOf (text : string) : option Point3D :=
  let line := TrimSpace text in
  if HasPrefix line "facet normal" then
    match Fields line with
    | _ :: _ :: a :: b :: c :: _ => Some (mkPoint3D (parseField a) (parseField b) (parseField c))
    | _ => None
    end
  else None.

Definition vertexOf (text : string) : option Point3D :=
  let line := TrimSpace text in
  if HasPrefix line "facet normal" then None
  else if HasPrefix line "vertex" then
    match Fields line with
    | _ :: a :: b :: c :: _ => Some (mkPoint3D (parseField a) (parseField b) (parseField c))
    | _ => None
    end
  else None.

(** A facet as written in a file: a normal and any number of vertices. *)
Record Facet := mkFacet { facetNormal : Point3D; facetVertices : list Point3D }.

Definition facetTriangles (f : Facet) : list Triangle :=
  match facetVertices f with
  | [v0; v1; v2] => [mkTriangle (facetNormal f) v0 v1 v2]
  | _ => []
  end.

(** The lines of one facet, lines of the other kind left out: the normal,
    the vertices, endfacet. *)
Definition facetLines (f : Facet) (block : list string) : Prop :=
  exists (n : string) (vs : list string) (e : string),
    block = n :: vs ++ [e]
    /\ normalOf n = Some (facetNormal f)
    /\ Forall2 (fun v q => vertexOf v = Some q) vs (facetVertices f)
    /\ endsFacet e = true.

End ReaderPredicates.

(** A file system whose character.stl is ASCII and breaks off inside a
    vertex line. *)
Definition truncatedSystem : System :=
  {| readHeader := fun path =>
       if String.eqb path "character.stl" then Some ("solid character", None) else None;
     scanFile := fun path =>
       if String.eqb path "character.stl"
       then Ok (["solid character"; "  facet normal 0 0 1"; "    outer loop";
                 "      vertex 0 0 4"; "      vertex 10 0"], None)
       else Err (Foreign "no such file");
     ParseFloat := Sample.parseFloat;
     ReadSTLBinary := fun _ => Err (Foreign "unexpected EOF");
     WriteSTLBinary := fun _ _ => None |}.

(** *** The canvases of text.go *)

Section TextPredicates.
Context `{Geo : Geometry}.

(** The height in pixels of the canvas of [renderText], and the depth of
    the canvas of [renderTextOnTop]. *)
Definition faceRes (baseWidth baseExtent : float) : Z.t :=
  int (float64 baseWidthVoxelResolution * baseExtent / baseWidth).

(** The red channel of the canvas of [renderText] after the text is drawn. *)
Definition faceCanvas (text justification : string) (leftOffsetPercent fontSize : float)
    (baseWidth baseHeight : float) (fontPath : string) : Z.t -> Z.t -> Z.t :=
  canvasRed baseWidthVoxelResolution (faceRes baseWidth baseHeight) fontPath fontSize text
    (float64 baseWidthVoxelResolution * leftOffsetPercent)
    (float64 (faceRes baseWidth baseHeight) * 0.5)
    (justificationPercent justification) 0.5.

(** The same for [renderTextOnTop]. *)
Definition topCanvas (text justification : string)
    (leftOffsetPercent topOffsetPercent fontSize : float)
    (baseWidth baseDepth : float) (fontPath : string) : Z.t -> Z.t -> Z.t :=
  canvasRed baseWidthVoxelResolution (faceRes baseWidth baseDepth) fontPath fontSize text
    (float64 baseWidthVoxelResolution * leftOffsetPercent)
    (float64 (faceRes baseWidth baseDepth) * topOffsetPercent)
    (justificationPercent justification) 0.5.

(** The voxels of the pixels [xs] x [ys] whose red channel exceeds 32768,
    column by column. *)
Definition activeVoxels (red : Z.t -> Z.t -> Z.t) (voxel : Z.t -> Z.t -> Result (list Triangle))
    (xs ys : list Z.t) : list Triangle :=
  concat (map (fun x =>
    concat (map (fun y => if (32768 <? red x y)%Z then trianglesOf (voxel x y) else []) ys))
    xs).

(** [err] is the error text.go makes of a pixel above the threshold whose
    cube cannot be built. *)
Definition failedCube (red : Z.t -> Z.t -> Z.t) (voxel : Z.t -> Z.t -> Result (list Triangle))
    (xs ys : list Z.t) (err : error) : Prop :=
  exists (x y : Z.t) (e : error),
    In x xs /\ In y ys /\ (32768 < red x y)%Z /\ voxel x y = Err e
    /\ err = New STLError "failed to create cube" (Some e).

End TextPredicates.

(** *** Traces of [GenerateSkyline] *)

(** The effects of package stl and of the logger in a trace. *)
Fixpoint events (trace : list Effect) : list Event :=
  match trace with
  | [] => []
  | Ev e :: rest => e :: events rest
  | _ :: rest => events rest
  end.

(** The contributions requested in a trace: user and year. *)
Fixpoint fetches (trace : list Effect) : list (string * Z.t) :=
  match trace with
  | [] => []
  | Net (Contributions username year) :: rest => (username, year) :: fetches rest
  | _ :: rest => fetches rest
  end.

Definition isLog (e : Event) : bool :=
  match e with
  | EvLog _ _ => true
  | _ => false
  end.

(** What [GenerateSkyline] does before it looks at the months. *)
Definition setupEffect (eff : Effect) : bool :=
  match eff with
  | Net InitializeClient | Net AuthenticatedUser | Net (UserJoinYear _) => true
  | Ev (EvLog Debug _) => true
  | _ => false
  end.

(** *** Bounding boxes *)

(** One step of [calcBoundingBox] on one coordinate: [if c < lo { lo = c }]
    and [if c > hi { hi = c }]. *)
Definition lowest (lo c : float) : float := if c <? lo then c else lo.
Definition highest (hi c : float) : float := if hi <? c then c else hi.

(** A float that is not NaN. *)
Definition number (c : float) : Prop := Prim2SF c <> S754_nan.

(** The coordinates of the vertices of a mesh along one axis, in the order
    in which [calcBoundingBox] visits them. *)
Definition coordinates (axis : Point3D -> float) (triangles : list Triangle) : list float :=
  flat_map (fun t => map axis (vertices t)) triangles.

(** No coordinate is below [lo] or above [hi], and each bound is a
    coordinate unless it still has its initial value. *)
Definition bounds (lo hi : float) (cs : list float) : Prop :=
  Forall (fun c => (c <? lo) = false /\ (hi <? c) = false) cs
  /\ (lo = MaxFloat64 \/ In lo cs)
  /\ (hi = - MaxFloat64 \/ In hi cs).

(** The body of the inner loop of [findMaxContributions]. *)
Definition maxStep (maxContrib : Z.t) (day : ContributionDay) : Z.t :=
  if (maxContrib <? ContributionCount day)%Z then ContributionCount day else maxContrib.

(** The number of cells of a week, and of a grid, with a count above 0. *)
Fixpoint activeDays (week : list ContributionDay) : Z.t :=
  match week with
  | [] => 0%Z
  | day :: rest =>
      ((if (0 <? ContributionCount day)%Z then 1 else 0) + activeDays rest)%Z
  end.

Fixpoint activeCells (contributions : Grid) : Z.t :=
  match contributions with
  | [] => 0%Z
  | week :: rest => (activeDays week + activeCells rest)%Z
  end.

Section ColumnCounts.
Context `{Geo : Geometry}.

(** Every active cell of the week gets a column of twelve triangles. *)
Definition twelvePerColumn (yearIndex maxContrib : Z.t) (weekIdx : Z.t) (dayIdx : Z.t)
    (week : list ContributionDay) : Prop :=
  forall (d : nat) (day : ContributionDay),
    week !! d = Some day -> (0 < ContributionCount day)%Z ->
    exists box,
      CreateColumn (float64 weekIdx * CellSize)
                   (float64 yearIndex * (YearOffset + YearSpacing)
                    + float64 (dayIdx + Z.of_nat d) * CellSize)
                   (NormalizeContribution (ContributionCount day) maxContrib)
                   CellSize = Ok box
      /\ length box = 12%nat.

End ColumnCounts.

(** The log call of [GenerateSTLRange] that follows the reading of
    character.stl. *)
Definition characterEvent (read : Result (list Triangle)) : Event :=
  match read with
  | Ok (_ :: _) => EvLog Info "Merged character.stl with %d triangles (right-top, scaled)"
  | _ => EvLog Debug "No character.stl found or error reading it: %v"
  end.

(** * Properties *)

(** ** Mesh transforms *)

Lemma rangeStore_spec {A B : Type} (f : A -> B) (src : list A) :
  forall (i : nat) (dst : list B),
    length dst = (i + length src)%nat ->
    rangeStore f i src dst = take i dst ++ map f src.
Proof.
  induction src as [|t rest IH]; intros i dst Hlen; simpl in *.
  - rewrite Nat.add_0_r in Hlen. rewrite <- Hlen, firstn_all. now rewrite app_nil_r.
  - rewrite IH by (rewrite length_insert; lia).
    assert (Hi : (i < length dst)%nat) by lia.
    rewrite (take_S_r (<[i:=f t]> dst) i (f t)).
    + rewrite take_insert_ge by lia. now rewrite <- app_assoc.
    + now apply list_lookup_insert_eq.
Qed.

Lemma rangeStore_make {A B : Type} (f : A -> B) (zero : B) (src : list A) :
  rangeStore f 0 src (replicate (length src) zero) = map f src.
Proof. rewrite rangeStore_spec by (now rewrite length_replicate). reflexivity. Qed.

Lemma scaleTriangles_map (ts : list Triangle) (scale : float) :
  scaleTriangles ts scale = map (scaled scale) ts.
Proof. apply rangeStore_make. Qed.

Lemma translateTriangles_map (ts : list Triangle) (dx dy dz : float) :
  translateTriangles ts dx dy dz = map (moved dx dy dz) ts.
Proof. apply rangeStore_make. Qed.

(** Two floats that differ under IEEE equality are different values. *)
Lemma float_neq (a b : float) :
  PrimFloat.eqb a b = false -> PrimFloat.eqb b b = true -> a <> b.
Proof. intros Hab Hbb ->. rewrite Hbb in Hab. discriminate. Qed.

(** C2 (amended): for every mesh and every factor, [scaleTriangles] returns a
    new mesh with one triangle per input triangle, in the same order, in
    which every coordinate of the three vertices is the input coordinate
    multiplied by the factor and the normal vector is the input triangle's
    normal, not scaled. *)
Theorem scaleTriangles_vertices_only (ts : list Triangle) (scale : float) :
  scaleTriangles ts scale =
  map (fun t =>
    mkTriangle (Normal t)
      (mkPoint3D (X (V1 t) * scale) (Y (V1 t) * scale) (Z (V1 t) * scale))
      (mkPoint3D (X (V2 t) * scale) (Y (V2 t) * scale) (Z (V2 t) * scale))
      (mkPoint3D (X (V3 t) * scale) (Y (V3 t) * scale) (Z (V3 t) * scale)))
    ts.
Proof. apply scaleTriangles_map. Qed.

(** C2 as stated fails: scaling the triangle with normal (0,0,1) by 2
    leaves the normal (0,0,1), where the claim has (0,0,2). *)
Lemma scaleTriangles_normal_not_scaled :
  ~ (forall t',
        scaleTriangles [Sample.unitTriangle] 2 !! 0%nat = Some t' ->
        Normal t' = mkPoint3D (X (Normal Sample.unitTriangle) * 2)
                              (Y (Normal Sample.unitTriangle) * 2)
                              (Z (Normal Sample.unitTriangle) * 2)).
Proof.
  intros H. specialize (H _ eq_refl).
  apply (f_equal Z) in H. vm_compute in H.
  revert H. apply float_neq; reflexivity.
Qed.

(** *** The rounding of a float64 addition

    Rocq's floats come with their specification, [SpecFloat]: [Prim2SF]
    gives the sign, mantissa and exponent of a float, and [SFadd] is the
    addition on these, rounding to nearest even.  What follows bounds the
    error of that rounding. *)

Section Rounding.
Local Open Scope Z_scope.

Lemma digits2_pos_spec (p : positive) :
  2 ^ (Zpos (digits2_pos p) - 1) <= Zpos p < 2 ^ Zpos (digits2_pos p).
Proof.
  induction p as [p IH|p IH|]; cbn [digits2_pos].
  - rewrite Pos2Z.inj_succ, Pos2Z.inj_xI.
    set (d := Zpos (digits2_pos p)) in *. assert (Hd : 0 < d) by (subst d; lia). clearbody d.
    replace (Z.succ d - 1) with (Z.succ (d - 1)) by lia.
    rewrite !Z.pow_succ_r by lia.
    generalize dependent (2 ^ (d - 1)). generalize dependent (2 ^ d). intros; lia.
  - rewrite Pos2Z.inj_succ. change (Zpos p~0) with (2 * Zpos p).
    set (d := Zpos (digits2_pos p)) in *. assert (Hd : 0 < d) by (subst d; lia). clearbody d.
    replace (Z.succ d - 1) with (Z.succ (d - 1)) by lia.
    rewrite !Z.pow_succ_r by lia.
    generalize dependent (2 ^ (d - 1)). generalize dependent (2 ^ d). intros; lia.
  - simpl. lia.
Qed.

Lemma digits_unique (q d d' : Z.t) :
  0 < d -> 0 < d' -> 2 ^ (d - 1) <= q < 2 ^ d -> 2 ^ (d' - 1) <= q < 2 ^ d' -> d = d'.
Proof.
  intros Hd Hd' H1 H2.
  destruct (Z.lt_trichotomy d d') as [Hlt|[Heq|Hgt]]; [exfalso|exact Heq|exfalso].
  - assert (2 ^ d <= 2 ^ (d' - 1)) by (apply Z.pow_le_mono_r; lia). lia.
  - assert (2 ^ d' <= 2 ^ (d - 1)) by (apply Z.pow_le_mono_r; lia). lia.
Qed.

Lemma iter_pos_inv {A : Type} (f : A -> A) (P : Z.t -> A -> Prop) :
  (forall k x, 0 <= k -> P k x -> P (k + 1) (f x)) ->
  forall p k x, 0 <= k -> P k x -> P (k + Zpos p) (SpecFloat.iter_pos f p x).
Proof.
  intros Hstep. induction p as [p IH|p IH|]; intros k x Hk Hx; cbn [SpecFloat.iter_pos].
  - replace (k + Zpos p~1) with (k + 1 + Zpos p + Zpos p) by lia.
    apply IH; [lia|]. apply IH; [lia|]. now apply Hstep.
  - replace (k + Zpos p~0) with (k + Zpos p + Zpos p) by lia.
    apply IH; [lia|]. now apply IH.
  - now apply Hstep.
Qed.

Lemma shifted_step (m0 k : Z.t) (mrs : shr_record) :
  0 <= k -> shifted m0 k mrs -> shifted m0 (k + 1) (shr_1 mrs).
Proof.
  intros Hk (Hm & rem & Hm0 & Hrem & Hloc).
  destruct mrs as [m r s]. cbn [shr_m shr_r shr_s] in *. unfold shifted.
  rewrite Z.pow_add_r, Z.pow_1_r by lia.
  assert (Hpow : 0 < 2 ^ k) by (apply Z.pow_pos_nonneg; lia).
  set (P := 2 ^ k) in *. clearbody P.
  destruct m as [|p|p]; [| |lia].
  - split; [simpl; lia|]. exists rem. cbn [shr_1 shr_m shr_r shr_s].
    destruct r, s; cbn [orb] in *; lia.
  - destruct p as [p|p|]; cbn [shr_1 shr_m shr_r shr_s]; (split; [lia|]).
    + exists (rem + P). rewrite Pos2Z.inj_xI in Hm0.
      destruct r, s; cbn [orb] in *; nia.
    + exists rem. change (Zpos p~0) with (2 * Zpos p) in Hm0.
      destruct r, s; cbn [orb] in *; nia.
    + exists (rem + P). destruct r, s; cbn [orb] in *; nia.
Qed.

Lemma shifted_iter (m0 : Z.t) (p : positive) (mrs : shr_record) :
  shifted m0 0 mrs -> shifted m0 (Zpos p) (SpecFloat.iter_pos shr_1 p mrs).
Proof.
  intros H0. change (Zpos p) with (0 + Zpos p).
  apply (iter_pos_inv shr_1 (shifted m0)); [|lia|exact H0].
  intros k x Hk Hx. now apply shifted_step.
Qed.

Lemma shifted_start (m0 : Z.t) : 0 <= m0 -> shifted m0 0 (shr_record_of_loc m0 loc_Exact).
Proof. intros H. split; [exact H|]. exists 0. simpl. lia. Qed.

(** Rounding to nearest even of a shifted number. *)
Lemma round_nearest_even_shifted (m0 k : Z.t) (mrs : shr_record) :
  0 <= k -> shifted m0 k mrs ->
  let m := round_nearest_even (shr_m mrs) (loc_of_shr_record mrs) in
  shr_m mrs <= m <= shr_m mrs + 1
  /\ 2 * Z.abs (m * 2 ^ k - m0) <= 2 ^ k
  /\ (m0 = shr_m mrs * 2 ^ k -> m = shr_m mrs).
Proof.
  intros Hk (Hm & rem & Hm0 & Hrem & Hloc).
  destruct mrs as [m r s]. cbn [shr_m shr_r shr_s] in *.
  assert (Hpow : 0 < 2 ^ k) by (apply Z.pow_pos_nonneg; lia).
  set (P := 2 ^ k) in *. clearbody P.
  destruct r, s; cbn [loc_of_shr_record round_nearest_even]; try destruct (Z.even m);
    repeat split; try lia; try nia.
Qed.

Lemma fexp64_eq (e : Z.t) : fexp prec emax e = Z.max (e - 53) (-1074).
Proof. reflexivity. Qed.

Lemma shr_fexp_spec (m e : Z.t) :
  0 <= m -> 0 <= fexp prec emax (Zdigits2 m + e) - e ->
  exists mrs,
    shr_fexp prec emax m e loc_Exact = (mrs, e + (fexp prec emax (Zdigits2 m + e) - e))
    /\ shifted m (fexp prec emax (Zdigits2 m + e) - e) mrs.
Proof.
  intros Hm Hn. unfold shr_fexp, shr.
  destruct (fexp prec emax (Zdigits2 m + e) - e) as [|p|p] eqn:En; [| |lia].
  - exists (shr_record_of_loc m loc_Exact). rewrite Z.add_0_r. split; [reflexivity|].
    now apply shifted_start.
  - exists (SpecFloat.iter_pos shr_1 p (shr_record_of_loc m loc_Exact)). split; [reflexivity|].
    apply shifted_iter. now apply shifted_start.
Qed.

Lemma Zdigits2_eq (q d : Z.t) : 0 < d -> 2 ^ (d - 1) <= q < 2 ^ d -> Zdigits2 q = d.
Proof.
  intros Hd Hq.
  assert (0 < 2 ^ (d - 1)) by (apply Z.pow_pos_nonneg; lia).
  destruct q as [|p|p]; [lia| |lia]. cbn [Zdigits2].
  apply (digits_unique (Zpos p)); [lia|lia|apply digits2_pos_spec|exact Hq].
Qed.

Lemma round_bound (mx m' rem mr Q : Z.t) :
  0 < Q -> 4503599627370496 * Q <= mx < 9007199254740992 * Q ->
  mx = m' * Q + rem -> 0 <= rem < Q -> m' <= mr <= m' + 1 ->
  2 * Z.abs (mr * Q - mx) <= Q ->
  4503599627370496 <= mr <= 9007199254740992
  /\ 9007199254740992 * Z.abs (mr * Q - mx) <= mx.
Proof. intros HQ Hmx Hm Hrem Hmr Habs. split; [nia|lia]. Qed.

Lemma scaled_bound (a b T : Z.t) :
  0 <= T -> 9007199254740992 * Z.abs (a - b) <= b ->
  9007199254740992 * Z.abs (a * T - b * T) <= b * T.
Proof.
  intros HT H. replace (a * T - b * T) with ((a - b) * T) by ring.
  rewrite Z.abs_mul, (Z.abs_eq T) by exact HT. nia.
Qed.

Lemma overflow_bound (x y : Z.t) :
  4503599627370496 * 2 ^ 2046 <= x -> 9007199254740992 * Z.abs (x - y) <= y ->
  2 ^ 2097 <= y.
Proof.
  intros HX HY. change 2097 with (51 + 2046).
  rewrite Z.pow_add_r by lia. change (2 ^ 51) with 2251799813685248.
  revert HX HY. generalize (2 ^ 2046). intros; lia.
Qed.

(** The rounding step of float64: a positive integer [mx] with exponent [ex]
    not below the one its size calls for comes out as infinity, or as a
    finite number within a relative 2^-53 of it. Values are counted in units
    of 2^-1074. *)
Lemma binary_round_aux_spec (sx : bool) (mx : positive) (ex : Z.t) :
  -1074 <= ex -> ex <= fexp prec emax (Zdigits2 (Zpos mx) + ex) ->
  (binary_round_aux prec emax sx (Zpos mx) ex loc_Exact = S754_infinity sx
   /\ (971 < ex \/ 2 ^ 2097 <= Zpos mx * 2 ^ (ex + 1074)))
  \/ exists m e,
       binary_round_aux prec emax sx (Zpos mx) ex loc_Exact = S754_finite sx m e
       /\ -1074 <= e
       /\ 9007199254740992 * Z.abs (Zpos m * 2 ^ (e + 1074) - Zpos mx * 2 ^ (ex + 1074))
          <= Zpos mx * 2 ^ (ex + 1074).
Proof.
  intros Hex Hfexp.
  assert (HT : 0 < 2 ^ (ex + 1074)) by (apply Z.pow_pos_nonneg; lia).
  pose proof (digits2_pos_spec mx) as HD.
  destruct (shr_fexp_spec (Zpos mx) ex) as (mrs1 & Heq1 & Hsh1); [lia|lia|].
  unfold binary_round_aux. rewrite Heq1. clear Heq1.
  cbn [Zdigits2] in *.
  set (D := Zpos (digits2_pos mx)) in *.
  assert (HDpos : 0 < D) by (subst D; lia).
  set (n1 := fexp prec emax (D + ex) - ex) in *.
  assert (Hn1 : 0 <= n1) by (subst n1; lia).
  pose proof (round_nearest_even_shifted _ _ _ Hn1 Hsh1) as Hround.
  cbv zeta in Hround.
  set (mr := round_nearest_even (shr_m mrs1) (loc_of_shr_record mrs1)) in *.
  destruct Hround as (Hr1 & Hr2 & _).
  destruct Hsh1 as (Hm1 & rem & Hm0 & Hrem & _).
  assert (HQ : 0 < 2 ^ n1) by (apply Z.pow_pos_nonneg; lia).
  (* the rounded mantissa, its size and what it stands for *)
  assert (Hcase :
    (n1 = 0 /\ mr = Zpos mx)
    \/ (0 < n1 /\ n1 = D - 53 /\ 4503599627370496 <= mr <= 9007199254740992
        /\ 9007199254740992 * Z.abs (mr * 2 ^ n1 - Zpos mx) <= Zpos mx)).
  { destruct (Z.eq_dec n1 0) as [E0|N0]; [left|right].
    - split; [exact E0|]. rewrite E0 in *. change (2 ^ 0) with 1 in *. lia.
    - assert (E1 : n1 = D - 53).
      { subst n1. rewrite fexp64_eq in *. lia. }
      split; [lia|]. split; [exact E1|].
      assert (P1 : 2 ^ (D - 1) = 4503599627370496 * 2 ^ n1).
      { replace (D - 1) with (52 + n1) by lia. rewrite Z.pow_add_r by lia. reflexivity. }
      assert (P2 : 2 ^ D = 9007199254740992 * 2 ^ n1).
      { replace D with (53 + n1) at 1 by lia. rewrite Z.pow_add_r by lia. reflexivity. }
      rewrite P1, P2 in HD.
      apply (round_bound (Zpos mx) (shr_m mrs1) rem mr (2 ^ n1)); assumption. }
  assert (He1 : -1074 <= ex + n1) by lia.
  assert (Hsecond : exists mrs2 m e,
      shr_fexp prec emax mr (ex + n1) loc_Exact = (mrs2, e)
      /\ shr_m mrs2 = Zpos m /\ -1074 <= e
      /\ Zpos m * 2 ^ (e + 1074) = mr * 2 ^ n1 * 2 ^ (ex + 1074)
      /\ (e = ex \/ 4503599627370496 <= Zpos m)).
  { destruct Hcase as [(E0 & Emr)|(Hpos & E1 & Hmr & _)].
    - destruct (shr_fexp_spec mr (ex + n1)) as (mrs2 & Heq2 & Hsh2).
      + lia.
      + rewrite Emr, E0, Z.add_0_r. cbn [Zdigits2]. fold D. fold n1. lia.
      + revert Heq2 Hsh2. rewrite Emr, E0, Z.add_0_r. cbn [Zdigits2]. fold D. fold n1.
        rewrite E0, Z.add_0_r. intros Heq2 (Hm2 & rem2 & Hm20 & Hrem2 & _).
        change (2 ^ 0) with 1 in *.
        exists mrs2, mx, ex. split; [exact Heq2|].
        split; [lia|]. split; [lia|]. split; [lia|]. left; reflexivity.
    - destruct (Z.eq_dec mr 9007199254740992) as [Etop|Ntop].
      + assert (Hdig : Zdigits2 mr = 54) by (apply Zdigits2_eq; [lia|rewrite Etop; simpl; lia]).
        destruct (shr_fexp_spec mr (ex + n1)) as (mrs2 & Heq2 & Hsh2).
        * lia.
        * rewrite Hdig, fexp64_eq. lia.
        * revert Heq2 Hsh2. rewrite Hdig, fexp64_eq.
          replace (Z.max (54 + (ex + n1) - 53) (-1074) - (ex + n1)) with 1 by lia.
          intros Heq2 (Hm2 & rem2 & Hm20 & Hrem2 & _).
          change (2 ^ 1) with 2 in *.
          assert (Em2 : shr_m mrs2 = 4503599627370496) by lia.
          exists mrs2, 4503599627370496%positive, (ex + n1 + 1).
          split; [exact Heq2|]. split; [exact Em2|]. split; [lia|].
          rewrite Etop.
          replace (ex + n1 + 1 + 1074) with (1 + (n1 + (ex + 1074))) by lia.
          rewrite !Z.pow_add_r by lia. change (2 ^ 1) with 2. split; [ring|right; lia].
      + assert (Hdig : Zdigits2 mr = 53) by (apply Zdigits2_eq; [lia|simpl; lia]).
        destruct (shr_fexp_spec mr (ex + n1)) as (mrs2 & Heq2 & Hsh2).
        * lia.
        * rewrite Hdig, fexp64_eq. lia.
        * revert Heq2 Hsh2. rewrite Hdig, fexp64_eq.
          replace (Z.max (53 + (ex + n1) - 53) (-1074) - (ex + n1)) with 0 by lia.
          rewrite Z.add_0_r.
          intros Heq2 (Hm2 & rem2 & Hm20 & Hrem2 & _).
          change (2 ^ 0) with 1 in *.
          assert (Em2 : shr_m mrs2 = mr) by lia.
          destruct mr as [|q|q]; [lia| |lia].
          exists mrs2, q, (ex + n1).
          split; [exact Heq2|]. split; [exact Em2|]. split; [lia|].
          replace (ex + n1 + 1074) with (n1 + (ex + 1074)) by lia.
          rewrite Z.pow_add_r by lia. split; [ring|right; lia]. }
  destruct Hsecond as (mrs2 & m & e & Heq2 & Em & He & Hval & Hbig).
  rewrite Heq2, Em.
  assert (Hb : 9007199254740992
               * Z.abs (Zpos m * 2 ^ (e + 1074) - Zpos mx * 2 ^ (ex + 1074))
               <= Zpos mx * 2 ^ (ex + 1074)).
  { rewrite Hval. apply scaled_bound; [lia|].
    destruct Hcase as [(E0 & Emr)|(_ & _ & _ & Hb)].
    - rewrite Emr, E0. change (2 ^ 0) with 1. rewrite Z.mul_1_r, Z.sub_diag. simpl. lia.
    - exact Hb. }
  destruct (Z.leb e (emax - prec)) eqn:Ele; [right|left].
  - exists m, e. split; [reflexivity|]. split; [exact He|exact Hb].
  - split; [reflexivity|]. apply Z.leb_gt in Ele. change (emax - prec) with 971 in Ele.
    destruct Hbig as [Ee|Hm]; [left; lia|right].
    apply (overflow_bound (Zpos m * 2 ^ (e + 1074))); [|exact Hb].
    assert (2 ^ 2046 <= 2 ^ (e + 1074)) by (apply Z.pow_le_mono_r; lia).
    assert (0 < 2 ^ 2046) by (apply Z.pow_pos_nonneg; lia). nia.
Qed.

Lemma iter_xO_value (mx d : positive) : Zpos (Pos.iter xO mx d) = Zpos mx * 2 ^ Zpos d.
Proof.
  induction d as [|d IH] using Pos.peano_ind.
  - simpl. lia.
  - rewrite Pos.iter_succ, Pos2Z.inj_succ, Z.pow_succ_r by lia.
    change (Zpos (Pos.iter xO mx d)~0) with (2 * Zpos (Pos.iter xO mx d)).
    rewrite IH. ring.
Qed.

Lemma shl_align_spec (mx : positive) (ex ex' : Z.t) :
  snd (shl_align mx ex ex') = Z.min ex ex'
  /\ Zpos (fst (shl_align mx ex ex')) = Zpos mx * 2 ^ (ex - Z.min ex ex').
Proof.
  unfold shl_align. destruct (ex' - ex) as [|d|d] eqn:Ed; cbn [fst snd].
  - replace (Z.min ex ex') with ex by lia. rewrite Z.sub_diag. simpl. lia.
  - replace (Z.min ex ex') with ex by lia. rewrite Z.sub_diag. simpl. lia.
  - replace (Z.min ex ex') with ex' by lia. split; [reflexivity|].
    rewrite iter_xO_value. f_equal. f_equal. lia.
Qed.

Lemma binary_round_spec (sx : bool) (mx : positive) (ex : Z.t) :
  -1074 <= ex ->
  (binary_round prec emax sx mx ex = S754_infinity sx
   /\ (971 < ex \/ 2 ^ 2097 <= Zpos mx * 2 ^ (ex + 1074)))
  \/ exists m e,
       binary_round prec emax sx mx ex = S754_finite sx m e
       /\ -1074 <= e
       /\ 9007199254740992 * Z.abs (Zpos m * 2 ^ (e + 1074) - Zpos mx * 2 ^ (ex + 1074))
          <= Zpos mx * 2 ^ (ex + 1074).
Proof.
  intros Hex. unfold binary_round.
  pose proof (shl_align_spec mx ex (fexp prec emax (Zpos (digits2_pos mx) + ex))) as (Hs & Hf).
  destruct (shl_align mx ex (fexp prec emax (Zpos (digits2_pos mx) + ex))) as [mz ez].
  cbn [fst snd] in Hs, Hf.
  set (D := Zpos (digits2_pos mx)) in *.
  pose proof (digits2_pos_spec mx) as HD. fold D in HD.
  assert (HDpos : 0 < D) by (subst D; lia).
  assert (Hfe : -1074 <= fexp prec emax (D + ex)) by (rewrite fexp64_eq; lia).
  assert (Hez : -1074 <= ez <= ex) by lia.
  assert (Hdig : Zdigits2 (Zpos mz) = D + (ex - ez)).
  { apply Zdigits2_eq; [lia|]. rewrite Hf, <- Hs.
    replace (D + (ex - ez) - 1) with ((D - 1) + (ex - ez)) by lia.
    rewrite !Z.pow_add_r by lia.
    assert (0 < 2 ^ (ex - ez)) by (apply Z.pow_pos_nonneg; lia). nia. }
  assert (Hval : Zpos mz * 2 ^ (ez + 1074) = Zpos mx * 2 ^ (ex + 1074)).
  { rewrite Hf, <- Hs. replace (ex + 1074) with ((ex - ez) + (ez + 1074)) by lia.
    rewrite (Z.pow_add_r 2 (ex - ez) (ez + 1074)) by lia. ring. }
  destruct (binary_round_aux_spec sx mz ez) as [(Hinf & Hover)|(m & e & Hfin & He & Hb)].
  - lia.
  - rewrite Hdig. replace (D + (ex - ez) + ez) with (D + ex) by lia. lia.
  - left. split; [exact Hinf|]. rewrite <- Hval. destruct Hover; [left; lia|now right].
  - right. exists m, e. rewrite <- Hval. auto.
Qed.

Lemma valid_exponent (s : bool) (m : positive) (e : Z.t) :
  valid_binary prec emax (S754_finite s m e) = true -> -1074 <= e <= 971.
Proof.
  cbn [valid_binary]. unfold bounded, canonical_mantissa.
  intros H. apply andb_prop in H as [H H']. apply Z.eqb_eq in H. apply Z.leb_le in H'.
  change (emax - prec) with 971 in H'. rewrite fexp64_eq in H. lia.
Qed.

(** Float64 addition on the specification side: the sum of two finite numbers
    is finite when the exact sum is below 2^1023, and a finite sum is within
    a relative 2^-53 of the exact one. *)
Lemma SFadd_error (x y : spec_float) :
  valid_binary prec emax x = true -> valid_binary prec emax y = true ->
  sfFinite x = true -> sfFinite y = true ->
  (Z.abs (sfUnits x + sfUnits y) < 2 ^ 2097 -> sfFinite (SFadd prec emax x y) = true)
  /\ (sfFinite (SFadd prec emax x y) = true ->
      9007199254740992 * Z.abs (sfUnits (SFadd prec emax x y) - (sfUnits x + sfUnits y))
      <= Z.abs (sfUnits x + sfUnits y)).
Proof.
  intros Vx Vy Fx Fy.
  destruct x as [sx|sx| |sx mx ex]; try discriminate Fx;
    destruct y as [sy|sy| |sy my ey]; try discriminate Fy.
  - split; [now destruct sx, sy|]. intros _. destruct sx, sy; simpl; lia.
  - split; [reflexivity|]. intros _. cbn [SFadd sfUnits].
    replace (_ - _) with 0 by lia. simpl. lia.
  - split; [reflexivity|]. intros _. cbn [SFadd sfUnits].
    replace (_ - _) with 0 by lia. simpl. lia.
  - apply valid_exponent in Vx, Vy. cbn [SFadd]. cbv zeta.
    set (ez := Z.min ex ey).
    pose proof (shl_align_spec mx ex ez) as (_ & Hx).
    pose proof (shl_align_spec my ey ez) as (_ & Hy).
    replace (Z.min ex ez) with ez in Hx by lia.
    replace (Z.min ey ez) with ez in Hy by lia.
    set (ax := fst (shl_align mx ex ez)) in *. set (ay := fst (shl_align my ey ez)) in *.
    assert (Hsum : sfUnits (S754_finite sx mx ex) + sfUnits (S754_finite sy my ey)
                   = (cond_Zopp sx (Zpos ax) + cond_Zopp sy (Zpos ay)) * 2 ^ (ez + 1074)).
    { cbn [sfUnits]. rewrite Hx, Hy.
      replace (ex + 1074) with ((ex - ez) + (ez + 1074)) by lia.
      replace (ey + 1074) with ((ey - ez) + (ez + 1074)) by lia.
      rewrite (Z.pow_add_r 2 (ex - ez) (ez + 1074)), (Z.pow_add_r 2 (ey - ez) (ez + 1074)) by lia.
      destruct sx, sy; cbn [cond_Zopp]; ring. }
    rewrite Hsum. clear Hsum Hx Hy.
    assert (Hez : -1074 <= ez <= 971) by lia.
    assert (HT : 0 < 2 ^ (ez + 1074)) by (apply Z.pow_pos_nonneg; lia).
    destruct (cond_Zopp sx (Zpos ax) + cond_Zopp sy (Zpos ay)) as [|m|m]; cbn [binary_normalize].
    + split; [reflexivity|]. intros _. simpl. lia.
    + destruct (binary_round_spec false m ez) as [(Hinf & Hover)|(m' & e' & Hfin & He & Hb)];
        [lia| |].
      * rewrite Hinf. split; [|discriminate]. intros Hsmall.
        rewrite Z.abs_eq in Hsmall by lia. lia.
      * rewrite Hfin. split; [reflexivity|]. intros _. cbn [sfUnits cond_Zopp].
        rewrite (Z.abs_eq (Zpos m * _)) by lia. exact Hb.
    + destruct (binary_round_spec true m ez) as [(Hinf & Hover)|(m' & e' & Hfin & He & Hb)];
        [lia| |].
      * rewrite Hinf. split; [|discriminate]. intros Hsmall.
        replace (Zneg m * 2 ^ (ez + 1074)) with (- (Zpos m * 2 ^ (ez + 1074))) in Hsmall by lia.
        rewrite Z.abs_opp, Z.abs_eq in Hsmall by lia. lia.
      * rewrite Hfin. split; [reflexivity|]. intros _. cbn [sfUnits cond_Zopp].
        replace (- Zpos m' * 2 ^ (e' + 1074) - Zneg m * 2 ^ (ez + 1074))
          with (- (Zpos m' * 2 ^ (e' + 1074) - Zpos m * 2 ^ (ez + 1074))) by lia.
        rewrite Z.abs_opp.
        replace (Zneg m * 2 ^ (ez + 1074)) with (- (Zpos m * 2 ^ (ez + 1074))) by lia.
        rewrite Z.abs_opp, (Z.abs_eq (Zpos m * _)) by lia. exact Hb.
Qed.

Lemma add_error (x y : float) :
  finite x = true -> finite y = true -> finite (x + y) = true ->
  9007199254740992 * Z.abs (units (x + y) - (units x + units y))
  <= Z.abs (units x + units y).
Proof.
  unfold finite, units. rewrite FloatAxioms.add_spec. intros Fx Fy.
  apply SFadd_error; try apply FloatAxioms.Prim2SF_valid; assumption.
Qed.

Lemma add_finite (x y : float) :
  finite x = true -> finite y = true -> Z.abs (units x + units y) < 2 ^ 2097 ->
  finite (x + y) = true.
Proof.
  unfold finite, units. rewrite FloatAxioms.add_spec. intros Fx Fy.
  apply SFadd_error; try apply FloatAxioms.Prim2SF_valid; assumption.
Qed.

Lemma units_opp (x : float) : units (- x) = - units x.
Proof.
  unfold units. rewrite FloatAxioms.opp_spec.
  destruct (Prim2SF x) as [s|s| |s m e]; cbn [SFopp sfUnits]; try reflexivity.
  destruct s; cbn [negb cond_Zopp]; lia.
Qed.

Lemma finite_opp (x : float) : finite (- x) = finite x.
Proof.
  unfold finite. rewrite FloatAxioms.opp_spec.
  now destruct (Prim2SF x).
Qed.

(** Adding an offset and taking it away again. *)
Lemma round_trip_error (c d : float) :
  finite c = true -> finite d = true ->
  finite (c + d) = true -> finite (c + d + - d) = true ->
  2251799813685248 * Z.abs (units (c + d + - d) - units c)
  <= Z.abs (units c) + Z.abs (units d).
Proof.
  intros Fc Fd F1 F2.
  pose proof (add_error c d Fc Fd F1) as E1.
  assert (Fd' : finite (- d) = true) by (rewrite finite_opp; exact Fd).
  pose proof (add_error (c + d) (- d) F1 Fd' F2) as E2.
  rewrite units_opp in E2. lia.
Qed.

(** Below 2^1021 no step of the round trip overflows. *)
Lemma round_trip_finite (c d : float) :
  finite c = true -> finite d = true ->
  Z.abs (units c) + Z.abs (units d) <= 2 ^ 2095 ->
  finite (c + d) = true /\ finite (c + d + - d) = true.
Proof.
  intros Fc Fd Hsmall.
  assert (P : 2 ^ 2097 = 4 * 2 ^ 2095) by (change 2097 with (2 + 2095); now rewrite Z.pow_add_r by lia).
  assert (F1 : finite (c + d) = true) by (apply add_finite; [assumption|assumption|lia]).
  split; [exact F1|].
  pose proof (add_error c d Fc Fd F1) as E1.
  apply add_finite; [exact F1|rewrite finite_opp; exact Fd|].
  rewrite units_opp. lia.
Qed.

Lemma round_trip_near (c d : float) : moderate d c -> near d c (c + d + - d).
Proof.
  intros (Fc & Fd & Hsmall).
  destruct (round_trip_finite c d Fc Fd Hsmall) as [F1 F2].
  split; [exact F2|]. change (2 ^ 51) with 2251799813685248.
  now apply round_trip_error.
Qed.

End Rounding.

Lemma moved_there_and_back (dx dy dz : float) (t : Triangle) :
  moved (- dx) (- dy) (- dz) (moved dx dy dz t)
  = mkTriangle (Normal t)
      (mkPoint3D (X (V1 t) + dx + - dx) (Y (V1 t) + dy + - dy) (Z (V1 t) + dz + - dz))
      (mkPoint3D (X (V2 t) + dx + - dx) (Y (V2 t) + dy + - dy) (Z (V2 t) + dz + - dz))
      (mkPoint3D (X (V3 t) + dx + - dx) (Y (V3 t) + dy + - dy) (Z (V3 t) + dz + - dz)).
Proof. reflexivity. Qed.

(** C9 (amended): for every mesh and offsets, translation adds the offsets
    to the coordinates of every vertex and leaves every triangle's normal
    exactly unchanged; translating the result by the negated offsets gives,
    with the same normals, the coordinates [(c + d) + (- d)] in float64
    arithmetic.  Where a coordinate [c] and its offset [d] are finite and
    |c| + |d| is at most 2^1021, that is finite and within
    2^-51 * (|c| + |d|) of [c]; the same bound holds whenever [c], [d] and
    the two sums are finite. *)
Theorem translateTriangles_round_trip (ts : list Triangle) (dx dy dz : float) :
  translateTriangles ts dx dy dz =
    map (fun t =>
      mkTriangle (Normal t)
        (mkPoint3D (X (V1 t) + dx) (Y (V1 t) + dy) (Z (V1 t) + dz))
        (mkPoint3D (X (V2 t) + dx) (Y (V2 t) + dy) (Z (V2 t) + dz))
        (mkPoint3D (X (V3 t) + dx) (Y (V3 t) + dy) (Z (V3 t) + dz))) ts
  /\ map Normal (translateTriangles ts dx dy dz) = map Normal ts
  /\ translateTriangles (translateTriangles ts dx dy dz) (- dx) (- dy) (- dz) =
       map (fun t =>
         mkTriangle (Normal t)
           (mkPoint3D (X (V1 t) + dx + - dx) (Y (V1 t) + dy + - dy) (Z (V1 t) + dz + - dz))
           (mkPoint3D (X (V2 t) + dx + - dx) (Y (V2 t) + dy + - dy) (Z (V2 t) + dz + - dz))
           (mkPoint3D (X (V3 t) + dx + - dx) (Y (V3 t) + dy + - dy) (Z (V3 t) + dz + - dz)))
         ts
  /\ (Forall (fun t =>
        Forall (fun v => moderate dx (X v) /\ moderate dy (Y v) /\ moderate dz (Z v))
               (vertices t)) ts ->
      Forall2 (fun t back =>
                 Normal back = Normal t
                 /\ Forall2 (fun v w => near dx (X v) (X w) /\ near dy (Y v) (Y w)
                                        /\ near dz (Z v) (Z w))
                            (vertices t) (vertices back))
        ts (translateTriangles (translateTriangles ts dx dy dz) (- dx) (- dy) (- dz)))
  /\ (forall c d : float,
        finite c = true -> finite d = true ->
        finite (c + d) = true -> finite (c + d + - d) = true ->
        near d c (c + d + - d)).
Proof.
  assert (Hback : translateTriangles (translateTriangles ts dx dy dz) (- dx) (- dy) (- dz)
                  = map (fun t => moved (- dx) (- dy) (- dz) (moved dx dy dz t)) ts).
  { now rewrite !translateTriangles_map, map_map. }
  split; [apply translateTriangles_map|]. split; [|split; [|split]].
  - rewrite translateTriangles_map, map_map. reflexivity.
  - exact Hback.
  - intros Hts. rewrite Hback. clear Hback.
    induction Hts as [|t rest Ht _ IH]; simpl; constructor; [|exact IH].
    split; [reflexivity|].
    unfold vertices in *.
    apply Forall_cons in Ht as [(Hx1 & Hy1 & Hz1) Ht].
    apply Forall_cons in Ht as [(Hx2 & Hy2 & Hz2) Ht].
    apply Forall_cons in Ht as [(Hx3 & Hy3 & Hz3) _].
    rewrite moved_there_and_back. cbn [V1 V2 V3 X Y Z].
    repeat constructor; now apply round_trip_near.
  - intros c d Fc Fd F1 F2. split; [exact F2|].
    change (2 ^ 51)%Z with 2251799813685248%Z. now apply round_trip_error.
Qed.

Lemma translateTriangles_round_trip_witness :
  let t := mkTriangle (mkPoint3D 0 0 1) (mkPoint3D 0.1 0 0) (mkPoint3D 1 0 0)
                      (mkPoint3D 0 1 0) in
  Forall2 (fun t back =>
             Normal back = Normal t
             /\ Forall2 (fun v w => near 0.3 (X v) (X w) /\ near 0.3 (Y v) (Y w)
                                    /\ near 0.3 (Z v) (Z w))
                        (vertices t) (vertices back))
    [t] (translateTriangles (translateTriangles [t] 0.3 0.3 0.3) (- 0.3) (- 0.3) (- 0.3))
  /\ (0.1 + 0.3 + - 0.3 =? 0.1) = false.
Proof.
  intros t. split; [|reflexivity].
  apply (translateTriangles_round_trip [t] 0.3 0.3 0.3).
  repeat constructor; vm_compute; discriminate.
Defined.

(** C9 as stated fails: with a vertex at X = MaxFloat64 and dx = MaxFloat64
    (both finite) the sum overflows, and the way back gives X = +infinity,
    which is within no finite tolerance of the original. *)
Lemma translateTriangles_round_trip_overflows :
  let t := mkTriangle (mkPoint3D 0 0 1) (mkPoint3D MaxFloat64 0 0) (mkPoint3D 1 0 0)
                      (mkPoint3D 0 1 0) in
  ~ (forall t',
        translateTriangles (translateTriangles [t] MaxFloat64 0 0) (- MaxFloat64) (- 0) (- 0)
          !! 0%nat = Some t' ->
        closeWithin MaxFloat64 (X (V1 t')) (X (V1 t)) = true).
Proof.
  intros t H. specialize (H _ eq_refl). vm_compute in H. discriminate.
Qed.

(** Absorption: a vertex at X = 1 moved by 2^60 and back ends at X = 0. *)
Example translateTriangles_round_trip_absorbs :
  map (fun t => X (V1 t))
      (translateTriangles
         (translateTriangles
            [mkTriangle (mkPoint3D 0 0 1) (mkPoint3D 1 0 0) (mkPoint3D 0 1 0)
                        (mkPoint3D 0 0 0)] 0x1p+60 0 0)
         (- 0x1p+60) 0 0)
  = [0].
Proof. reflexivity. Qed.

(** ** The fan-in of generateModelGeometry *)

Section FanIn.
Import Orchestrator.
Variable deliver : Behaviour.

Lemma producer_setProducer st t u p :
  producer (setProducer st t p) u = if decide (t = u) then p else producer st u.
Proof. destruct st, t, u; reflexivity. Qed.

Lemma main_setProducer st t p : main (setProducer st t p) = main st.
Proof. destruct st, t; reflexivity. Qed.

Lemma producer_setMain st m u : producer (setMain st m) u = producer st u.
Proof. destruct st, u; reflexivity. Qed.

Lemma main_setMain st m : main (setMain st m) = m.
Proof. reflexivity. Qed.

Lemma setProducer_same st t : setProducer st t (producer st t) = st.
Proof. destruct st, t; reflexivity. Qed.

Lemma step_producer st t :
  step deliver st (RunProducer t) = setProducer st t (settle deliver t (producer st t)).
Proof.
  unfold step, settle. destruct (producer st t) eqn:Hp.
  - destruct (deliver t); reflexivity.
  - rewrite <- Hp. now rewrite setProducer_same.
  - reflexivity.
  - rewrite <- Hp. now rewrite setProducer_same.
Qed.

Lemma Safe_start : Safe deliver start.
Proof. split; [intros [] r; discriminate | reflexivity]. Qed.

Lemma Safe_step st a : Safe deliver st -> Safe deliver (step deliver st a).
Proof.
  intros [Hsend Hmain]. destruct a as [t|].
  - rewrite step_producer. split.
    + intros u r. rewrite producer_setProducer. case_decide as Htu; [subst u|apply Hsend].
      unfold settle. destruct (producer st t) eqn:Hp; try discriminate.
      * destruct (deliver t); congruence.
      * intros [= <-]. eauto.
    + now rewrite main_setProducer.
  - unfold step. destruct (main st) as [[|name rest] acc|acc|r] eqn:Hm.
    + split; [intros u r; rewrite producer_setMain; apply Hsend|].
      destruct st; simpl in *. now subst.
    + destruct (producer st name) eqn:Hp; try (split; [assumption|now rewrite Hm]).
      pose proof (Hsend _ _ Hp) as Hd.
      simpl in Hmain. rewrite Hd in Hmain.
      destruct (mergeResult name r acc) as [acc'|e].
      * split.
        -- intros u r'. rewrite producer_setMain, producer_setProducer.
           case_decide; [discriminate|apply Hsend].
        -- destruct st, name; simpl in *; assumption.
      * split.
        -- intros u r'. rewrite producer_setMain, producer_setProducer.
           case_decide; [discriminate|apply Hsend].
        -- destruct st, name; simpl in *; assumption.
    + destruct (isExited (base st) && isExited (columns st) && isExited (text st)
                && isExited (image st)).
      * split; [intros u r; rewrite producer_setMain; apply Hsend|].
        destruct st; simpl in *. now subst.
      * split; [assumption|now rewrite Hm].
    + split; [assumption|now rewrite Hm].
Qed.

Lemma Safe_fold schedule : forall st, Safe deliver st -> Safe deliver (fold_left (step deliver) schedule st).
Proof.
  induction schedule as [|a rest IH]; intros st Hst; simpl; [assumption|].
  apply IH, Safe_step, Hst.
Qed.

(** Whatever the schedule, the main goroutine has either not returned or
    returned what the receive loop computes from the four results. *)
Lemma run_safe (schedule : list Action) :
  match returned (run deliver schedule) with
  | Some r => ofResult r = target deliver
  | None => True
  end.
Proof.
  destruct (Safe_fold schedule start Safe_start) as [_ Hmain].
  unfold returned, run. destruct (main _); simpl in *; auto.
Qed.

Lemma pending_settle t p : deliver t <> None -> pending (settle deliver t p) = pending p.
Proof.
  intros Hsend. destruct p; simpl; try reflexivity.
  destruct (deliver t); [reflexivity|contradiction].
Qed.

Lemma settle_done t p : pending p = false -> pending (settle deliver t p) = false.
Proof. destruct p; simpl; try discriminate; reflexivity. Qed.

Lemma NoDup_receiveOrder : NoDup receiveOrder.
Proof. compute_done. Qed.

Lemma Live_start : Live deliver start.
Proof.
  split; [exists []; reflexivity|].
  intros t. split; [intros _ _; now destruct t|].
  intros Hnot. exfalso. apply Hnot.
  unfold receiveOrder. rewrite !elem_of_cons. destruct t; auto.
Qed.

Lemma Live_step st a : Live deliver st -> Live deliver (step deliver st a).
Proof.
  intros Hl. destruct a as [t|].
  - rewrite step_producer. unfold Live in *. rewrite main_setProducer.
    destruct (main st) as [names acc|acc|r]; [|intros u|exact I].
    + destruct Hl as [Hdone Hp]. split; [assumption|]. intros u.
      rewrite producer_setProducer. case_decide; [subst u|apply Hp].
      destruct (Hp t) as [Hin Hout]. split.
      * intros Ht Hsend. rewrite pending_settle by exact Hsend. now apply Hin.
      * intros Ht. apply settle_done. now apply Hout.
    + rewrite producer_setProducer. case_decide; [subst u; apply settle_done|]; apply Hl.
  - unfold step. destruct (main st) as [[|name rest] acc|acc|r] eqn:Hm.
    + unfold Live in *. rewrite Hm in Hl. destruct Hl as [_ Hp].
      replace (main (setMain st (Waiting acc))) with (Waiting acc) by (now destruct st).
      intros t. rewrite producer_setMain. apply Hp. apply not_elem_of_nil.
    + destruct (producer st name) eqn:Hp; try assumption.
      unfold Live in Hl. rewrite Hm in Hl. destruct Hl as [[received Hrec] Hpend].
      assert (Hnodup : name ∉ rest).
      { pose proof NoDup_receiveOrder as Hnd. rewrite <- Hrec in Hnd.
        apply NoDup_app in Hnd as (_ & _ & Hnd). now apply NoDup_cons in Hnd. }
      destruct (mergeResult name r acc) as [acc'|e].
      * unfold Live.
        replace (main (setMain (setProducer st name Sent) (Receiving rest acc')))
          with (Receiving rest acc') by (now destruct st, name).
        split.
        -- exists (received ++ [name]). now rewrite <- app_assoc.
        -- intros t. rewrite producer_setMain, producer_setProducer.
           case_decide as Hnt.
           ++ subst t. simpl. split; [intros Hin; contradiction|reflexivity].
           ++ destruct (Hpend t) as [Hin Hout]. split.
              ** intros Ht. apply Hin. now apply elem_of_cons; right.
              ** intros Ht. apply Hout. rewrite elem_of_cons. intuition congruence.
      * unfold Live. now destruct st, name.
    + destruct (isExited (base st) && isExited (columns st) && isExited (text st)
                && isExited (image st)); [|assumption].
      unfold Live. now destruct st.
    + assumption.
Qed.

Lemma Live_fold schedule :
  forall st, Live deliver st -> Live deliver (fold_left (step deliver) schedule st).
Proof.
  induction schedule as [|a rest IH]; intros st Hst; simpl; [assumption|].
  apply IH, Live_step, Hst.
Qed.

(** The four producer turns of a round. *)
Lemma producers_turn st :
  fold_left (step deliver)
    [RunProducer TBase; RunProducer TColumns; RunProducer TText; RunProducer TImage] st
  = mkState (settle deliver TBase (base st)) (settle deliver TColumns (columns st))
            (settle deliver TText (text st)) (settle deliver TImage (image st)) (main st).
Proof. cbn [fold_left]. rewrite !step_producer. destruct st; reflexivity. Qed.

Lemma settled_pending t p :
  pending (settle deliver t p) = true -> exists r, settle deliver t p = Sending r.
Proof.
  destruct p; simpl; try discriminate; eauto.
  destruct (deliver t); [eauto|discriminate].
Qed.

Lemma settled_done t p :
  pending (settle deliver t p) = false -> isExited (settle deliver t p) = true.
Proof.
  destruct p; simpl; try discriminate; auto.
  destruct (deliver t); [discriminate|reflexivity].
Qed.

(** From here on the receive loop does not block: every goroutine it comes
    to receive from sends. *)
Hypothesis no_block : target deliver <> Blocked.

(** A round brings the main goroutine one step nearer to its return. *)
Lemma round_progress st :
  Live deliver st -> Safe deliver st ->
  (remaining (fold_left (step deliver) round st) <= remaining st - 1)%nat.
Proof.
  intros Hl Hs. unfold round.
  change [RunProducer TBase; RunProducer TColumns; RunProducer TText; RunProducer TImage; RunMain]
    with ([RunProducer TBase; RunProducer TColumns; RunProducer TText; RunProducer TImage]
          ++ [RunMain]).
  rewrite fold_left_app.
  assert (Hl' := Live_fold [RunProducer TBase; RunProducer TColumns; RunProducer TText;
                            RunProducer TImage] st Hl).
  assert (Hs' := Safe_fold [RunProducer TBase; RunProducer TColumns; RunProducer TText;
                            RunProducer TImage] st Hs).
  rewrite producers_turn in *.
  set (st' := mkState _ _ _ _ _) in *.
  assert (Hrem : remaining st' = remaining st) by reflexivity.
  rewrite <- Hrem. clear Hrem.
  assert (Hprod : forall t, producer st' t = settle deliver t (producer st t))
    by (intros []; reflexivity).
  clearbody st'. cbn [fold_left]. unfold step, remaining.
  destruct (main st') as [[|name rest] acc|acc|r] eqn:Hm.
  - rewrite main_setMain. simpl. lia.
  - unfold Live in Hl'. rewrite Hm in Hl'. destruct Hl' as [_ Hpend].
    destruct Hs' as [_ Hmain]. rewrite Hm in Hmain. cbn [mainAgrees receiveAll] in Hmain.
    assert (Hsend : deliver name <> None).
    { intros Hnone. rewrite Hnone in Hmain. now apply no_block. }
    assert (Hp : pending (producer st' name) = true) by (apply Hpend; [left|exact Hsend]).
    rewrite Hprod in Hp. apply settled_pending in Hp as [r Hr].
    rewrite Hprod, Hr.
    destruct (mergeResult name r acc) as [acc'|e]; rewrite main_setMain; simpl; lia.
  - unfold Live in Hl'. rewrite Hm in Hl'.
    assert (Hex : forall t, isExited (producer st' t) = true).
    { intros t. rewrite Hprod. apply settled_done. rewrite <- Hprod. apply Hl'. }
    pose proof (Hex TBase) as Hb. pose proof (Hex TColumns) as Hc.
    pose proof (Hex TText) as Ht. pose proof (Hex TImage) as Hi.
    simpl in Hb, Hc, Ht, Hi. rewrite Hb, Hc, Ht, Hi. simpl. lia.
  - rewrite Hm. lia.
Qed.

Lemma Live_remaining st : Live deliver st -> (remaining st <= 6)%nat.
Proof.
  unfold Live, remaining. destruct (main st) as [names acc|acc|r]; try lia.
  intros [[received Hrec] _].
  apply (f_equal (@length Task)) in Hrec. rewrite length_app in Hrec. simpl in Hrec. lia.
Qed.

(** After any schedule, six more rounds make the main goroutine return. *)
Lemma sixRounds_return st :
  Live deliver st -> Safe deliver st ->
  remaining (fold_left (step deliver) sixRounds st) = 0%nat.
Proof.
  intros Hl Hs. unfold sixRounds. rewrite !fold_left_app.
  pose proof (Live_remaining st Hl) as H0.
  pose proof (round_progress st Hl Hs) as H1.
  set (s1 := fold_left (step deliver) round st) in *.
  assert (L1 : Live deliver s1) by (apply Live_fold, Hl).
  assert (S1 : Safe deliver s1) by (apply Safe_fold, Hs).
  pose proof (round_progress s1 L1 S1) as H2.
  set (s2 := fold_left (step deliver) round s1) in *.
  assert (L2 : Live deliver s2) by (apply Live_fold, L1).
  assert (S2 : Safe deliver s2) by (apply Safe_fold, S1).
  pose proof (round_progress s2 L2 S2) as H3.
  set (s3 := fold_left (step deliver) round s2) in *.
  assert (L3 : Live deliver s3) by (apply Live_fold, L2).
  assert (S3 : Safe deliver s3) by (apply Safe_fold, S2).
  pose proof (round_progress s3 L3 S3) as H4.
  set (s4 := fold_left (step deliver) round s3) in *.
  assert (L4 : Live deliver s4) by (apply Live_fold, L3).
  assert (S4 : Safe deliver s4) by (apply Safe_fold, S3).
  pose proof (round_progress s4 L4 S4) as H5.
  set (s5 := fold_left (step deliver) round s4) in *.
  assert (L5 : Live deliver s5) by (apply Live_fold, L4).
  assert (S5 : Safe deliver s5) by (apply Safe_fold, S4).
  pose proof (round_progress s5 L5 S5) as H6.
  lia.
Qed.

Lemma sixRounds_result st :
  Live deliver st -> Safe deliver st ->
  exists r : Result (list Triangle),
    returned (fold_left (step deliver) sixRounds st) = Some r /\ ofResult r = target deliver.
Proof.
  intros Hl Hs.
  pose proof (sixRounds_return st Hl Hs) as Hrem.
  pose proof (Safe_fold sixRounds st Hs) as [_ Hmain].
  revert Hrem Hmain. generalize (fold_left (step deliver) sixRounds st). intros final.
  unfold remaining, returned.
  destruct (main final) as [names acc|acc|r]; intros Hrem Hmain.
  - exfalso. clear -Hrem. lia.
  - discriminate.
  - exists r. split; [reflexivity|exact Hmain].
Qed.

(** Every schedule followed by six rounds ends with the main goroutine
    returning what the receive loop computes. *)
Lemma run_returns (schedule : list Action) :
  exists r : Result (list Triangle),
    returned (run deliver (schedule ++ sixRounds)) = Some r /\ ofResult r = target deliver.
Proof.
  unfold run. rewrite fold_left_app.
  apply sixRounds_result; [apply Live_fold, Live_start | apply Safe_fold, Safe_start].
Qed.

End FanIn.

Lemma ofResult_inj {A} (r1 r2 : Result A) : ofResult r1 = ofResult r2 -> r1 = r2.
Proof. destruct r1, r2; simpl; congruence. Qed.

Lemma sending_all (baseR columnsR textR imageR : geometryResult) (t : Task) :
  exists r, Orchestrator.sending baseR columnsR textR imageR t = Some r.
Proof. destruct t; simpl; eauto. Qed.

Lemma receiveAll_all_send (deliver : Orchestrator.Behaviour) :
  (forall t, exists r, deliver t = Some r) ->
  forall names acc, Orchestrator.receiveAll deliver names acc <> Blocked.
Proof.
  intros Hall. induction names as [|name rest IH]; intros acc; simpl; [discriminate|].
  destruct (Hall name) as [r ->].
  destruct (Orchestrator.mergeResult name r acc); [apply IH|discriminate].
Qed.

Lemma sending_no_block (baseR columnsR textR imageR : geometryResult) :
  target (Orchestrator.sending baseR columnsR textR imageR) <> Blocked.
Proof. apply receiveAll_all_send, sending_all. Qed.

(** With four results sent, the outcome of a run is the same for every
    schedule that lets the goroutines finish. *)
Lemma run_sending (baseR columnsR textR imageR : geometryResult)
    (schedule : list Orchestrator.Action) (r : Result (list Triangle)) :
  ofResult r = target (Orchestrator.sending baseR columnsR textR imageR) ->
  Orchestrator.returned
    (Orchestrator.run (Orchestrator.sending baseR columnsR textR imageR)
       (schedule ++ Orchestrator.sixRounds)) = Some r.
Proof.
  intros Hr.
  destruct (run_returns _ (sending_no_block baseR columnsR textR imageR) schedule) as (r' & Hret & Hr').
  rewrite Hret. f_equal. apply ofResult_inj. congruence.
Qed.

Lemma target_delivering (baseT columnsT textT imageT : list Triangle) :
  target (Orchestrator.delivering baseT columnsT textT imageT)
  = Ret (baseT ++ imageT ++ columnsT ++ textT).
Proof. unfold target. simpl. now rewrite <- !app_assoc. Qed.

(** A run in which the text goroutine is the first to reach its send. *)
Example fan_in_text_first :
  Orchestrator.returned
    (Orchestrator.run
       (Orchestrator.delivering [Sample.unitTriangle] [] [zeroTriangle] [])
       (Orchestrator.RunProducer TText :: Orchestrator.RunProducer TColumns
        :: Orchestrator.RunMain :: Orchestrator.sixRounds))
  = Some (Ok [Sample.unitTriangle; zeroTriangle]).
Proof. reflexivity. Qed.

(** ** The ASCII STL reader *)



Lemma index_no_fail {A} (xs : list A) (i : nat) (e : error) : index xs i <> Fail e.
Proof. unfold index. destruct (xs !! i); discriminate. Qed.


Section Reader.
Context `{Sys : System}.



End Reader.

Section Silent.
Context (Sys : System).



End Silent.



(** A malformed field, for which [strconv.ParseFloat] returns 0 with a
    syntax error, is read as 0. *)
Example ReadASCIISTL_malformed_field :
  @ParseFloat Sample.system "4.x" = (0, Some ErrSyntax)
  /\ @ReadASCIISTL Sample.system "character.stl"
     = Ret [mkTriangle (mkPoint3D 0 0 1) (mkPoint3D 0 0 4) (mkPoint3D 10 0 4) (mkPoint3D 0 10 0)].
Proof. split; vm_compute; reflexivity. Qed.

(** A vertex line with too few fields is not a malformed number: the
    access [fields[3]] panics. *)
Example readLine_short_vertex :
  @readLine Sample.system (mkReader [] zeroPoint []) "vertex 1 2"
  = Panic "index out of range".
Proof. reflexivity. Qed.

(** White space is Unicode's: a no-break space separates fields and is
    trimmed like a blank. *)
Example readLine_no_break_space :
  @readLine Sample.system (mkReader [] zeroPoint [])
     (Sample.nbsp +:+ "vertex 1 2" +:+ Sample.nbsp +:+ "3")
  = Ret (mkReader [] zeroPoint [mkPoint3D 1 2 3]).
Proof. vm_compute. reflexivity. Qed.

(** ** Top-level generation *)

Lemma fst_bind {A B} (m : Run A) (k : A -> Run B) :
  fst (bind m k) = match fst m with
                   | Ret a => fst (k a)
                   | Fail e => Fail e
                   | Panic r => Panic r
                   | Blocked => Blocked
                   end.
Proof. unfold bind. destruct (fst m); reflexivity. Qed.

Lemma snd_bind {A B} (m : Run A) (k : A -> Run B) :
  snd (bind m k) = match fst m with
                   | Ret a => snd m ++ snd (k a)
                   | _ => snd m
                   end.
Proof. unfold bind. destruct (fst m); reflexivity. Qed.

Section InputValidation.
Context `{Log : Logger} `{Geo : Geometry} `{Sys : System}.

Lemma validateInput_rejects (contributions : Grid) (outputPath username : string) :
  length contributions = 0%nat \/ outputPath = "" \/ username = "" ->
  exists msg, validateInput contributions outputPath username
              = Fail (New ValidationError msg None).
Proof.
  intros Hbad. unfold validateInput.
  repeat case_decide; eauto.
  destruct (String.eqb_spec outputPath ""); eauto.
  destruct (String.eqb_spec username ""); eauto.
  exfalso. intuition.
Qed.

Lemma GenerateSTL_rejected (contributions : Grid) (outputPath username : string) (year : Z.t)
    (topText rightText : string) :
  length contributions = 0%nat \/ outputPath = "" \/ username = "" ->
  snd (GenerateSTL contributions outputPath username year topText rightText)
    = [EvLog Debug "Starting STL generation for user %s, years %d-%d"]
  /\ match logCall Debug "Starting STL generation for user %s, years %d-%d" with
     | Some e =>
         fst (GenerateSTL contributions outputPath username year topText rightText)
         = Fail (Wrap e "failed to log debug message")
     | None =>
         exists msg,
           fst (GenerateSTL contributions outputPath username year topText rightText)
           = Fail (Wrap (New ValidationError msg None) "input validation failed")
     end.
Proof.
  intros Hbad. destruct (validateInput_rejects _ _ _ Hbad) as [msg Hmsg].
  unfold GenerateSTL, GenerateSTLRange, logOr.
  rewrite !snd_bind, !fst_bind. simpl.
  destruct (logCall Debug _); simpl; [split; reflexivity|].
  rewrite Hmsg. simpl. split; [reflexivity|]. eauto.
Qed.

End InputValidation.

Lemma in_bind {A B} (m : Run A) (k : A -> Run B) (ev : Event) :
  In ev (snd (bind m k)) -> In ev (snd m) \/ exists a, fst m = Ret a /\ In ev (snd (k a)).
Proof.
  rewrite snd_bind. destruct (fst m) as [a| | |]; auto.
  rewrite in_app_iff. intros [Hin|Hin]; eauto.
Qed.

Lemma avoids_bind {A B} (m : Run A) (k : A -> Run B) (bad : error) :
  fst m <> Fail bad -> (forall a, fst m = Ret a -> fst (k a) <> Fail bad) ->
  fst (bind m k) <> Fail bad.
Proof.
  intros Hm Hk. rewrite fst_bind. destruct (fst m) as [a|e| |]; try discriminate; auto.
  intros [= ->]. now apply Hm.
Qed.

Lemma receiveAll_fail deliver names acc e :
  Orchestrator.receiveAll deliver names acc = Fail e -> exists e' msg, e = Wrap e' msg.
Proof.
  revert acc. induction names as [|name rest IH]; intros acc; simpl; [discriminate|].
  destruct (deliver name) as [r|]; [|discriminate].
  unfold Orchestrator.mergeResult. destruct (err r) as [e0|]; [|apply IH].
  intros [= <-]. eauto.
Qed.

Lemma attempt_trace {A} (o : Outcome A) : snd (attempt o) = [].
Proof. destruct o; reflexivity. Qed.

Section Stages.
Context `{Log : Logger} `{Geo : Geometry} `{Sys : System}.

Lemma logOr_run level format msg :
  logOr level format msg = (wrapErr (check (logCall level format)) msg, [EvLog level format]).
Proof.
  unfold logOr, bind, emit, lift. simpl.
  destruct (wrapErr (check (logCall level format)) msg); reflexivity.
Qed.

Lemma generateModelGeometry_run contributionsPerYear dims maxContrib username startYear endYear
    topText rightText :
  contributionsPerYear <> [] ->
  generateModelGeometry contributionsPerYear dims maxContrib username startYear endYear
    topText rightText
  = (Orchestrator.receiveAll
       (producers contributionsPerYear dims maxContrib startYear endYear topText rightText)
       Orchestrator.receiveOrder [],
     [EvGo TBase; EvGo TColumns; EvGo TText; EvGo TImage]).
Proof.
  intros Hne. destruct contributionsPerYear as [|first rest]; [contradiction|].
  unfold generateModelGeometry. simpl decide. cbv iota.
  unfold bind, emit, lift, index. simpl.
  destruct (Orchestrator.mergeResult _ _ _); reflexivity.
Qed.

Lemma readCharacter_trace :
  snd readCharacter = [EvRead "character.stl"; EvRead "character.stl"].
Proof.
  unfold readCharacter. rewrite !snd_bind. simpl. now rewrite attempt_trace.
Qed.

End Stages.

Lemma columnsLoop_nil_error `{Log : Logger} `{Geo : Geometry} (len maxContrib : Z.t)
    (years : list (Z.t * Grid)) :
  forall acc r, columnsLoop len maxContrib years acc = Some r -> err r = None.
Proof.
  induction years as [|[i grid] rest IH]; intros acc r; cbn [columnsLoop].
  - now intros [= <-].
  - destruct (yearGeometry grid (len - 1 - i) maxContrib); [apply IH|].
    destruct (logCall Warning _); [discriminate|apply IH].
Qed.

Section FixedOrder.
Context `{Log : Logger} `{Geo : Geometry}.
Variables (contributionsPerYear : list Grid) (dims : modelDimensions) (maxContrib : Z.t).
Variables (username : string) (startYear endYear : Z.t) (topText rightText : string).

Local Abbreviation deliver :=
  (producers contributionsPerYear dims maxContrib startYear endYear topText rightText).

(** The columns producer sends no error. *)
Lemma columns_nil_error (columnsR : geometryResult) :
  generateColumnsForYearRange contributionsPerYear maxContrib = Some columnsR ->
  err columnsR = None.
Proof. apply columnsLoop_nil_error. Qed.

(** What the receive loop makes of the four producers of
    [generateModelGeometry], case by case in the order of the receives. *)
Lemma producers_target :
  target deliver
  = match err (generateBase dims) with
    | Some e => Fail (Wrap e "failed to generate base geometry")
    | None =>
        match err (generateLogoWithCustomPath dims "logo.png") with
        | Some e => Fail (Wrap e "failed to generate image geometry")
        | None =>
            match generateColumnsForYearRange contributionsPerYear maxContrib with
            | None => Blocked
            | Some columnsR =>
                match err (generateText "" startYear endYear dims topText rightText) with
                | Some e => Fail (Wrap e "failed to generate text geometry")
                | None =>
                    Ret (triangles (generateBase dims)
                         ++ triangles (generateLogoWithCustomPath dims "logo.png")
                         ++ triangles columnsR
                         ++ triangles (generateText "" startYear endYear dims topText
                                         rightText))
                end
            end
        end
    end.
Proof.
  unfold target, deliver, Orchestrator.receiveOrder.
  cbn [Orchestrator.receiveAll producers]. unfold Orchestrator.mergeResult.
  destruct (err (generateBase dims)); [reflexivity|].
  destruct (err (generateLogoWithCustomPath dims "logo.png")); [reflexivity|].
  destruct (generateColumnsForYearRange contributionsPerYear maxContrib) as [columnsR|] eqn:Hc;
    [|reflexivity].
  rewrite (columns_nil_error columnsR Hc).
  destruct (err (generateText "" startYear endYear dims topText rightText)); [reflexivity|].
  cbn [app]. now rewrite <- !app_assoc.
Qed.

Lemma generateModelGeometry_target :
  contributionsPerYear <> [] ->
  generateModelGeometry contributionsPerYear dims maxContrib username startYear endYear
    topText rightText
  = (target deliver, [EvGo TBase; EvGo TColumns; EvGo TText; EvGo TImage]).
Proof. intros Hne. now rewrite generateModelGeometry_run. Qed.

(** A run of the goroutines of [generateModelGeometry] that is given six
    rounds returns what the receive loop computes, if that is a result. *)
Lemma producers_return (schedule : list Orchestrator.Action) (r : Result (list Triangle)) :
  target deliver = ofResult r ->
  Orchestrator.returned (Orchestrator.run deliver (schedule ++ Orchestrator.sixRounds))
  = Some r.
Proof.
  intros Ht.
  destruct (run_returns deliver) with (schedule := schedule) as (r' & Hret & Hr').
  - rewrite Ht. destruct r; discriminate.
  - rewrite Hret. f_equal. apply ofResult_inj. congruence.
Qed.

(** C1: whatever the four producers of [generateModelGeometry] send, with
    the columns producer sending, and whatever the schedule of the
    goroutines (so every order in which they complete): a run that has
    returned has returned what the function returns, every run that is
    given six more rounds returns it, so any two such runs return the same;
    and when the four results carry no error it is the meshes of
    [generateBase], [generateLogoWithCustomPath], [generateColumnsForYearRange]
    and [generateText] in this order: base, image, columns, text. *)
Theorem generateModelGeometry_fixed_order
    (columnsR : geometryResult) (schedule schedule' : list Orchestrator.Action) :
  let baseR := generateBase dims in
  let imageR := generateLogoWithCustomPath dims "logo.png" in
  let textR := generateText "" startYear endYear dims topText rightText in
  let call :=
    generateModelGeometry contributionsPerYear dims maxContrib username startYear endYear
      topText rightText in
  let returned (schedule : list Orchestrator.Action) :=
    Orchestrator.returned (Orchestrator.run deliver schedule) in
  contributionsPerYear <> [] ->
  generateColumnsForYearRange contributionsPerYear maxContrib = Some columnsR ->
  (exists r,
     fst call = ofResult r
     /\ returned (schedule ++ Orchestrator.sixRounds) = Some r
     /\ returned (schedule' ++ Orchestrator.sixRounds) = Some r
     /\ (returned schedule = None \/ returned schedule = Some r))
  /\ snd call = [EvGo TBase; EvGo TColumns; EvGo TText; EvGo TImage]
  /\ (err baseR = None -> err imageR = None -> err textR = None ->
      let merged := triangles baseR ++ triangles imageR ++ triangles columnsR
                    ++ triangles textR in
      fst call = Ret merged
      /\ returned (schedule ++ Orchestrator.sixRounds) = Some (Ok merged)).
Proof.
  intros baseR imageR textR call returned Hne Hcolumns.
  unfold call. rewrite (generateModelGeometry_target Hne). cbn [fst snd].
  assert (Hreturns : exists r : Result (list Triangle), target deliver = ofResult r).
  { rewrite producers_target, Hcolumns.
    destruct (err (generateBase dims)) as [e|];
      [exists (Err (Wrap e "failed to generate base geometry")); reflexivity|].
    destruct (err (generateLogoWithCustomPath dims "logo.png")) as [e|];
      [exists (Err (Wrap e "failed to generate image geometry")); reflexivity|].
    destruct (err (generateText "" startYear endYear dims topText rightText)) as [e|];
      [exists (Err (Wrap e "failed to generate text geometry")); reflexivity|].
    eexists (Ok _). reflexivity. }
  destruct Hreturns as [r Hr].
  split; [|split; [reflexivity|]].
  - exists r. split; [exact Hr|]. unfold returned.
    split; [now apply producers_return|]. split; [now apply producers_return|].
    pose proof (run_safe deliver schedule) as Hsafe.
    destruct (Orchestrator.returned (Orchestrator.run deliver schedule)) as [r'|];
      [right|now left].
    f_equal. apply ofResult_inj. congruence.
  - intros Hb Hi Ht. cbv zeta.
    assert (Hmerged : target deliver
                      = Ret (triangles baseR ++ triangles imageR ++ triangles columnsR
                             ++ triangles textR)).
    { rewrite producers_target, Hcolumns. fold baseR imageR textR.
      now rewrite Hb, Hi, Ht. }
    split; [exact Hmerged|]. unfold returned. now apply producers_return.
Qed.

End FixedOrder.

Lemma generateModelGeometry_fixed_order_witness :
  let dims := mkDims 132.5 17.5 "assets/invertocat.png" in
  let deliver := @producers Sample.quietLogger Sample.geometry [Sample.year2023] dims 5
                   2023 2023 "" "" in
  let merged :=
    triangles (@generateBase Sample.quietLogger Sample.geometry dims)
    ++ triangles (@generateLogoWithCustomPath Sample.quietLogger Sample.geometry dims "logo.png")
    ++ @CreateContributionGeometry Sample.quietLogger Sample.geometry Sample.year2023 0 5
    ++ [] in
  fst (@generateModelGeometry Sample.quietLogger Sample.geometry [Sample.year2023] dims 5
         "alice" 2023 2023 "" "") = Ret merged
  /\ Orchestrator.returned
       (Orchestrator.run deliver
          ([Orchestrator.RunProducer TText; Orchestrator.RunProducer TColumns;
            Orchestrator.RunMain] ++ Orchestrator.sixRounds))
     = Some (Ok merged)
  /\ length merged = 48%nat.
Proof.
  intros dims deliver merged.
  destruct (@generateModelGeometry_fixed_order Sample.quietLogger Sample.geometry
              [Sample.year2023] dims 5 "alice" 2023 2023 "" ""
              (mkResult (@CreateContributionGeometry Sample.quietLogger Sample.geometry
                           Sample.year2023 0 5) None)
              [Orchestrator.RunProducer TText; Orchestrator.RunProducer TColumns;
               Orchestrator.RunMain] [])
    as (_ & _ & Hmerged); [discriminate|vm_compute; reflexivity|].
  destruct Hmerged as [Hcall Hrun]; [reflexivity..|].
  split; [exact Hcall|]. split; [exact Hrun|]. vm_compute. reflexivity.
Defined.

Section WrittenMesh.
Context `{Log : Logger} `{Geo : Geometry} `{Sys : System}.

(** What [GenerateSTLRange] hands to [WriteSTLBinary]. *)
Lemma GenerateSTLRange_written (contributions : list Grid) (outputPath username : string)
    (startYear endYear : Z.t) (topText rightText : string) (path : string)
    (mesh : list Triangle) :
  In (EvWrite path mesh)
     (snd (GenerateSTLRange contributions outputPath username startYear endYear
             topText rightText)) ->
  exists dims model read,
    calculateDimensions (Z.of_nat (length contributions)) = Ret dims
    /\ fst (generateModelGeometry contributions dims
              (findMaxContributionsAcrossYears contributions)
              username startYear endYear topText rightText) = Ret model
    /\ fst readCharacter = Ret read
    /\ path = outputPath
    /\ mesh = match read with
              | Ok (t :: ts) => model ++ placeCharacter dims (t :: ts)
              | _ => model
              end.
Proof.
  unfold GenerateSTLRange. intros Hin.
  apply in_bind in Hin as [Hin|(_ & _ & Hin)];
    [rewrite logOr_run in Hin; simpl in Hin; intuition discriminate|].
  apply in_bind in Hin as [Hin|(first & _ & Hin)]; [contradiction|].
  apply in_bind in Hin as [Hin|(_ & _ & Hin)]; [contradiction|].
  apply in_bind in Hin as [Hin|(dims & Hdims & Hin)]; [contradiction|].
  apply in_bind in Hin as [Hin|(model & Hmodel & Hin)].
  { exfalso. simpl in Hin.
    destruct (decide (contributions = [])) as [->|Hne]; [contradiction|].
    rewrite generateModelGeometry_run in Hin by assumption.
    simpl in Hin. intuition discriminate. }
  apply in_bind in Hin as [Hin|(read & Hread & Hin)];
    [rewrite readCharacter_trace in Hin; simpl in Hin; intuition discriminate|].
  apply in_bind in Hin as [Hin|(final & Hfinal & Hin)].
  { exfalso. destruct read as [[|t ts]|e];
      rewrite snd_bind, logOr_run in Hin; simpl in Hin;
      destruct (logCall _ _); simpl in Hin; intuition discriminate. }
  apply in_bind in Hin as [Hin|(_ & _ & Hin)];
    [rewrite logOr_run in Hin; simpl in Hin; intuition discriminate|].
  apply in_bind in Hin as [Hin|(_ & _ & Hin)];
    [rewrite logOr_run in Hin; simpl in Hin; intuition discriminate|].
  apply in_bind in Hin as [Hin|(_ & _ & Hin)].
  - simpl in Hin. destruct Hin as [[= <- <-]|[]].
    exists dims, model, read.
    simpl in Hdims, Hmodel.
    assert (Hd : calculateDimensions (Z.of_nat (length contributions)) = Ret dims).
    { destruct (calculateDimensions _); simpl in Hdims; congruence. }
    assert (Hm : fst (generateModelGeometry contributions dims
                  (findMaxContributionsAcrossYears contributions)
                  username startYear endYear topText rightText) = Ret model).
    { destruct (fst (generateModelGeometry _ _ _ _ _ _ _ _)); simpl in Hmodel; congruence. }
    repeat split; try assumption.
    destruct read as [[|t ts]|e]; rewrite fst_bind, logOr_run in Hfinal;
      simpl in Hfinal; destruct (logCall _ _); simpl in Hfinal; congruence.
  - apply in_bind in Hin as [Hin|(_ & _ & Hin)]; [contradiction|].
    rewrite logOr_run in Hin. simpl in Hin. intuition discriminate.
Qed.

End WrittenMesh.

Lemma attempt_no_fail {A} (o : Outcome A) (e : error) : fst (attempt o) <> Fail e.
Proof. destruct o; discriminate. Qed.

Section RangeGeneration.
Context `{Log : Logger} `{Geo : Geometry} `{Sys : System}.

Lemma GenerateSTLRange_avoids (contributions : list Grid) (outputPath username : string)
    (startYear endYear : Z.t) (topText rightText : string) :
  fst (GenerateSTLRange contributions outputPath username startYear endYear topText rightText)
  <> Fail (Wrap (New ValidationError "contributions data cannot be empty" None)
                "failed to generate geometry").
Proof.
  unfold GenerateSTLRange.
  apply avoids_bind;
    [rewrite logOr_run; simpl; destruct (logCall _ _); simpl; discriminate|intros _ _].
  apply avoids_bind; [apply index_no_fail|intros first Hfirst].
  apply avoids_bind;
    [simpl; destruct (validateInput _ _ _); simpl; discriminate|intros _ _].
  apply avoids_bind;
    [simpl; destruct (calculateDimensions _); simpl; discriminate|intros dims _].
  apply avoids_bind.
  { assert (Hne : contributions <> []) by (intros ->; discriminate).
    rewrite generateModelGeometry_run by assumption. unfold wrapRun. cbn [fst].
    destruct (Orchestrator.receiveAll _ _ _) as [model|e|r|] eqn:Hr; simpl; try discriminate.
    apply receiveAll_fail in Hr as (e' & msg & ->). discriminate. }
  intros model _.
  apply avoids_bind.
  { unfold readCharacter. rewrite !fst_bind. simpl. apply attempt_no_fail. }
  intros read _.
  apply avoids_bind.
  { destruct read as [[|t ts]|e]; rewrite fst_bind, logOr_run; simpl;
      destruct (logCall _ _); simpl; discriminate. }
  intros final _.
  apply avoids_bind;
    [rewrite logOr_run; simpl; destruct (logCall _ _); simpl; discriminate|intros _ _].
  apply avoids_bind;
    [rewrite logOr_run; simpl; destruct (logCall _ _); simpl; discriminate|intros _ _].
  apply avoids_bind; [discriminate|intros _ _].
  apply avoids_bind;
    [simpl; destruct (WriteSTLBinary _ _); simpl; discriminate|intros _ _].
  rewrite logOr_run; simpl; destruct (logCall _ _); simpl; discriminate.
Qed.

Lemma GenerateSTLRange_no_years (outputPath username : string) (startYear endYear : Z.t)
    (topText rightText : string) :
  logCall Debug "Starting STL generation for user %s, years %d-%d" = None ->
  GenerateSTLRange [] outputPath username startYear endYear topText rightText
  = (Panic "index out of range",
     [EvLog Debug "Starting STL generation for user %s, years %d-%d"]).
Proof.
  intros Hlog. unfold GenerateSTLRange. rewrite logOr_run, Hlog. reflexivity.
Qed.

(** C10: with an empty list of years, and the first debug message logged,
    [GenerateSTLRange] panics on [contributions[0]] ahead of every check of
    the list; the empty-data branch of [generateModelGeometry] does return
    its ValidationError when called with an empty list, but no call of
    [GenerateSTLRange] ends with that error. *)
Theorem GenerateSTLRange_indexes_before_checking
    (contributions : list Grid) (dims : modelDimensions) (maxContrib : Z.t)
    (outputPath username : string) (startYear endYear : Z.t) (topText rightText : string) :
  (logCall Debug "Starting STL generation for user %s, years %d-%d" = None ->
   fst (GenerateSTLRange [] outputPath username startYear endYear topText rightText)
   = Panic "index out of range")
  /\ fst (generateModelGeometry [] dims maxContrib username startYear endYear
            topText rightText)
     = Fail (New ValidationError "contributions data cannot be empty" None)
  /\ fst (GenerateSTLRange contributions outputPath username startYear endYear
            topText rightText)
     <> Fail (Wrap (New ValidationError "contributions data cannot be empty" None)
                   "failed to generate geometry").
Proof.
  split; [|split].
  - intros Hlog. now rewrite GenerateSTLRange_no_years.
  - reflexivity.
  - apply GenerateSTLRange_avoids.
Qed.

(** C5: if the grid passed to [GenerateSTL] has no weeks, or the output path
    or the username is empty, no goroutine is started; when the first debug
    message is logged the call returns a ValidationError, wrapped as "input
    validation failed", and when that log call fails it returns the log
    error instead. *)
Theorem GenerateSTL_rejects_before_launch
    (contributions : Grid) (outputPath username : string) (year : Z.t)
    (topText rightText : string) :
  length contributions = 0%nat \/ outputPath = "" \/ username = "" ->
  (forall t, ~ In (EvGo t)
                  (snd (GenerateSTL contributions outputPath username year topText rightText)))
  /\ (logCall Debug "Starting STL generation for user %s, years %d-%d" = None ->
      exists msg,
        fst (GenerateSTL contributions outputPath username year topText rightText)
        = Fail (Wrap (New ValidationError msg None) "input validation failed"))
  /\ (forall e,
        logCall Debug "Starting STL generation for user %s, years %d-%d" = Some e ->
        fst (GenerateSTL contributions outputPath username year topText rightText)
        = Fail (Wrap e "failed to log debug message")).
Proof.
  intros Hbad. destruct (GenerateSTL_rejected contributions outputPath username year
                           topText rightText Hbad) as [Htrace Hout].
  split; [|split].
  - intros t. rewrite Htrace. simpl. intuition discriminate.
  - intros Hlog. now rewrite Hlog in Hout.
  - intros e Hlog. now rewrite Hlog in Hout.
Qed.


End RangeGeneration.


Lemma GenerateSTL_rejects_before_launch_witness :
  (forall t, ~ In (EvGo t)
       (snd (@GenerateSTL Sample.quietLogger Sample.geometry Sample.bareSystem
               [] "out.stl" "alice" 2023 "" "")))
  /\ exists msg,
       fst (@GenerateSTL Sample.quietLogger Sample.geometry Sample.bareSystem
              [] "out.stl" "alice" 2023 "" "")
       = Fail (Wrap (New ValidationError msg None) "input validation failed").
Proof.
  destruct (@GenerateSTL_rejects_before_launch Sample.quietLogger Sample.geometry
              Sample.bareSystem [] "out.stl" "alice" 2023 "" "" (or_introl eq_refl))
    as (Hgo & Hfail & _).
  split; [exact Hgo|]. apply Hfail. reflexivity.
Defined.

Lemma GenerateSTLRange_indexes_before_checking_witness :
  fst (@GenerateSTLRange Sample.quietLogger Sample.geometry Sample.bareSystem
         [] "out.stl" "alice" 2023 2023 "" "")
  = Panic "index out of range".
Proof.
  apply (@GenerateSTLRange_indexes_before_checking Sample.quietLogger Sample.geometry
           Sample.bareSystem [] (mkDims 132.5 17.5 "") 0 "out.stl" "alice" 2023 2023 "" "").
  reflexivity.
Defined.



Example character_sinks_half_a_millimetre :
  minZ (calcBoundingBox (placeCharacter (mkDims 132.5 17.5 "assets/invertocat.png")
                           [Sample.unitTriangle])) = -0.5.
Proof. vm_compute. reflexivity. Qed.

(** ** Failure of a whole producer *)

Section Producers.
Context `{Log : Logger} `{Geo : Geometry}.


End Producers.




Section WholeGeneration.
Context `{Log : Logger} `{Geo : Geometry} `{Sys : System}.

Lemma generateModelGeometry_without_base (contributions : list Grid) (dims : modelDimensions)
    (maxContrib : Z.t) (username : string) (startYear endYear : Z.t)
    (topText rightText : string) (e logErr : error) :
  contributions <> [] ->
  CreateCuboidBase (innerWidth dims) (innerDepth dims) = Err e ->
  logCall Warning "Failed to generate base geometry: %v. Continuing without base."
    = Some logErr ->
  fst (generateModelGeometry contributions dims maxContrib username startYear endYear
         topText rightText)
  = Fail (Wrap logErr "failed to generate base geometry").
Proof.
  intros Hne Hbase Hwarn. rewrite generateModelGeometry_run by assumption.
  unfold Orchestrator.receiveOrder. cbn [fst Orchestrator.receiveAll producers].
  unfold generateBase, sendOrWarn, Orchestrator.mergeResult.
  now rewrite Hbase, Hwarn.
Qed.

(** The fatal case seen from the caller: the base cannot be built, the
    warning cannot be logged, and [GenerateSTLRange] returns the log error
    and writes no file. *)
Lemma GenerateSTLRange_aborts_without_base (contributions : list Grid)
    (outputPath username : string) (startYear endYear : Z.t) (topText rightText : string)
    (first : Grid) (dims : modelDimensions) (e logErr : error) :
  logCall Debug "Starting STL generation for user %s, years %d-%d" = None ->
  contributions !! 0%nat = Some first ->
  validateInput first outputPath username = Ret tt ->
  calculateDimensions (Z.of_nat (length contributions)) = Ret dims ->
  CreateCuboidBase (innerWidth dims) (innerDepth dims) = Err e ->
  logCall Warning "Failed to generate base geometry: %v. Continuing without base."
    = Some logErr ->
  fst (GenerateSTLRange contributions outputPath username startYear endYear
         topText rightText)
  = Fail (Wrap (Wrap logErr "failed to generate base geometry")
               "failed to generate geometry")
  /\ forall path mesh,
       ~ In (EvWrite path mesh)
            (snd (GenerateSTLRange contributions outputPath username startYear endYear
                    topText rightText)).
Proof.
  intros Hlog Hfirst Hvalid Hdims Hbase Hwarn.
  assert (Hne : contributions <> []) by (intros ->; discriminate).
  split.
  - unfold GenerateSTLRange.
    rewrite fst_bind, logOr_run, Hlog. cbn [fst check wrapErr].
    rewrite fst_bind. unfold index. rewrite Hfirst. cbn [fst lift].
    rewrite fst_bind, Hvalid. cbn [fst lift wrapErr].
    rewrite fst_bind, Hdims. cbn [fst lift wrapErr].
    rewrite fst_bind. unfold wrapRun. cbn [fst].
    rewrite (generateModelGeometry_without_base _ _ _ _ _ _ _ _ e logErr) by assumption.
    reflexivity.
  - intros path mesh Hin.
    apply GenerateSTLRange_written in Hin as (dims' & model & _ & Hdims' & Hmodel & _).
    rewrite Hdims in Hdims'. injection Hdims' as <-.
    rewrite (generateModelGeometry_without_base _ _ _ _ _ _ _ _ e logErr) in Hmodel
      by assumption.
    discriminate.
Qed.

End WholeGeneration.

Example generation_aborts_without_base :
  fst (@GenerateSTLRange Sample.brokenWarning Sample.failingGeometry Sample.bareSystem
         [Sample.year2023] "out.stl" "alice" 2023 2023 "" "")
  = Fail (Wrap (Wrap (Foreign "write: broken pipe") "failed to generate base geometry")
               "failed to generate geometry").
Proof. reflexivity. Qed.

Example generation_continues_without_base :
  fst (@GenerateSTLRange Sample.quietLogger Sample.failingGeometry Sample.bareSystem
         [Sample.year2023] "out.stl" "alice" 2023 2023 "" "")
  = Ret tt.
Proof. reflexivity. Qed.

(** ** Contribution columns *)

Section Columns.
Context `{Log : Logger} `{Geo : Geometry}.

Lemma daysLoop_spec (yearIndex maxContrib weekIdx : Z.t) (week : list ContributionDay) :
  forall (dayIdx : Z.t) (acc : list Triangle),
    columnsBuilt yearIndex maxContrib weekIdx dayIdx week ->
    daysLoop (float64 yearIndex * (YearOffset + YearSpacing)) maxContrib weekIdx dayIdx week acc
    = Some (acc ++ concat (imap (fun d day =>
                cellBox yearIndex maxContrib weekIdx (dayIdx + Z.of_nat d) day) week)).
Proof.
  induction week as [|day rest IH]; intros dayIdx acc Hbuilt.
  - simpl. now rewrite app_nil_r.
  - rewrite imap_cons. cbn [daysLoop concat].
    assert (Hrest : columnsBuilt yearIndex maxContrib weekIdx (dayIdx + 1) rest).
    { intros d day' Hd Hpos. specialize (Hbuilt (S d) day' Hd Hpos).
      now replace (dayIdx + 1 + Z.of_nat d)%Z with (dayIdx + Z.of_nat (S d))%Z by lia. }
    assert (Himap : imap ((fun d day0 => cellBox yearIndex maxContrib weekIdx
                                          (dayIdx + Z.of_nat d) day0) ∘ S) rest
                    = imap (fun d day0 => cellBox yearIndex maxContrib weekIdx
                                            (dayIdx + 1 + Z.of_nat d) day0) rest).
    { apply imap_ext. intros d day' _. simpl. f_equal. lia. }
    rewrite Himap. unfold cellBox at 1. rewrite Z.add_0_r.
    destruct (0 <? ContributionCount day)%Z eqn:Hpos.
    + destruct (Hbuilt 0%nat day eq_refl) as [box Hbox]; [now apply Z.ltb_lt|].
      rewrite Z.add_0_r in Hbox. unfold cellColumn. rewrite Hbox. simpl.
      rewrite IH by assumption. now rewrite <- app_assoc.
    + rewrite IH by assumption. reflexivity.
Qed.

Lemma weeksLoop_spec (yearIndex maxContrib : Z.t) (contributions : Grid) :
  forall (weekIdx : Z.t) (acc : list Triangle),
    (forall (w : nat) (week : list ContributionDay),
        contributions !! w = Some week ->
        columnsBuilt yearIndex maxContrib (weekIdx + Z.of_nat w) 0 week) ->
    weeksLoop (float64 yearIndex * (YearOffset + YearSpacing)) maxContrib weekIdx
      contributions acc
    = Some (acc ++ concat (imap (fun w week =>
                concat (imap (fun d day =>
                  cellBox yearIndex maxContrib (weekIdx + Z.of_nat w) (Z.of_nat d) day) week))
              contributions)).
Proof.
  induction contributions as [|week rest IH]; intros weekIdx acc Hbuilt.
  - simpl. now rewrite app_nil_r.
  - rewrite imap_cons. cbn [weeksLoop concat].
    assert (Hhead : imap (fun d day => cellBox yearIndex maxContrib weekIdx
                                         (0 + Z.of_nat d) day) week
                    = imap (fun d day => cellBox yearIndex maxContrib
                                           (weekIdx + Z.of_nat 0) (Z.of_nat d) day) week).
    { apply imap_ext. intros d day _. f_equal; lia. }
    assert (Hrest : imap ((fun w week0 => concat (imap (fun d day =>
                      cellBox yearIndex maxContrib (weekIdx + Z.of_nat w) (Z.of_nat d) day)
                      week0)) ∘ S) rest
                    = imap (fun w week0 => concat (imap (fun d day =>
                        cellBox yearIndex maxContrib (weekIdx + 1 + Z.of_nat w)
                          (Z.of_nat d) day) week0)) rest).
    { apply imap_ext. intros w week' _. simpl. f_equal.
      apply imap_ext. intros d day _. f_equal. lia. }
    rewrite daysLoop_spec
      by (specialize (Hbuilt 0%nat week eq_refl); now rewrite Z.add_0_r in Hbuilt).
    rewrite Hhead, Hrest, IH.
    + now rewrite <- app_assoc.
    + intros w week' Hw. specialize (Hbuilt (S w) week' Hw).
      now replace (weekIdx + 1 + Z.of_nat w)%Z with (weekIdx + Z.of_nat (S w))%Z by lia.
Qed.

Lemma columnsLoop_spec (len maxContrib : Z.t) (years : list (Z.t * Grid)) :
  forall (acc : list Triangle),
    (forall i grid, In (i, grid) years ->
       exists ts, yearGeometry grid (len - 1 - i) maxContrib = Ok ts) ->
    columnsLoop len maxContrib years acc
    = Some (mkResult
              (acc ++ concat (map (fun y =>
                 trianglesOf (yearGeometry (snd y) (len - 1 - fst y) maxContrib)) years))
              None).
Proof.
  induction years as [|[i grid] rest IH]; intros acc Hok.
  - simpl. now rewrite app_nil_r.
  - cbn [columnsLoop map concat fst snd].
    destruct (Hok i grid) as [ts Hts]; [now left|].
    rewrite Hts. simpl. rewrite IH by (intros; apply Hok; now right).
    now rewrite <- app_assoc.
Qed.

(** C4: when every column asked for can be built, [CreateContributionGeometry]
    for a year at depth index [yearIndex] returns, week by week and day by
    day, the box of exactly the cells with a count above 0: the box that
    [CreateColumn] builds at X = week index * CellSize and
    Y = yearIndex * (YearOffset + YearSpacing) + day index * CellSize, with
    height [NormalizeContribution count maxContrib]; a cell with count 0
    adds nothing.  [generateColumnsForYearRange] gives the year at position
    [p] of [n] years the depth index [n - 1 - p] (the last, most recent
    year gets 0) and sends the years' meshes from the last year to the
    first. *)
Theorem CreateContributionGeometry_columns
    (contributions : Grid) (yearIndex maxContrib : Z.t) (contributionsPerYear : list Grid) :
  ((forall (w d : nat) (week : list ContributionDay) (day : ContributionDay),
      contributions !! w = Some week -> week !! d = Some day ->
      (0 < ContributionCount day)%Z ->
      exists box,
        CreateColumn (float64 (Z.of_nat w) * CellSize)
                     (float64 yearIndex * (YearOffset + YearSpacing)
                      + float64 (Z.of_nat d) * CellSize)
                     (NormalizeContribution (ContributionCount day) maxContrib)
                     CellSize = Ok box) ->
   CreateContributionGeometry contributions yearIndex maxContrib
   = concat (imap (fun w week =>
      concat (imap (fun d day =>
        if (0 <? ContributionCount day)%Z then
          trianglesOf
            (CreateColumn (float64 (Z.of_nat w) * CellSize)
                          (float64 yearIndex * (YearOffset + YearSpacing)
                           + float64 (Z.of_nat d) * CellSize)
                          (NormalizeContribution (ContributionCount day) maxContrib)
                          CellSize)
        else []) week)) contributions))
  /\ ((forall (p : nat) (grid : Grid),
         contributionsPerYear !! p = Some grid ->
         exists ts,
           yearGeometry grid (Z.of_nat (length contributionsPerYear) - 1 - Z.of_nat p)
             maxContrib = Ok ts) ->
      generateColumnsForYearRange contributionsPerYear maxContrib
      = Some (mkResult
                (concat (rev (imap (fun p grid =>
                   trianglesOf
                     (yearGeometry grid
                        (Z.of_nat (length contributionsPerYear) - 1 - Z.of_nat p) maxContrib))
                   contributionsPerYear)))
                None)).
Proof.
  split; [intros Hcells|intros Hyears].
  - unfold CreateContributionGeometry. rewrite weeksLoop_spec.
    + reflexivity.
    + intros w week Hw d day Hd Hpos. rewrite !Z.add_0_l. eauto.
  - unfold generateColumnsForYearRange. rewrite columnsLoop_spec.
    + simpl. rewrite map_rev. do 3 f_equal.
      change (map ?f ?l) with (f <$> l). rewrite fmap_imap. reflexivity.
    + intros i grid Hin. apply in_rev in Hin.
      apply list_elem_of_In, elem_of_lookup_imap in Hin as (p & g & [= -> ->] & Hp).
      eauto.
Qed.

End Columns.

Lemma CreateContributionGeometry_columns_witness :
  length (@CreateContributionGeometry Sample.quietLogger Sample.geometry Sample.year2023 1 5)
  = 24%nat
  /\ @generateColumnsForYearRange Sample.quietLogger Sample.geometry
       [Sample.year2023; []] 5
     = Some (mkResult
               (@CreateContributionGeometry Sample.quietLogger Sample.geometry
                  Sample.year2023 1 5)
               None).
Proof.
  destruct (@CreateContributionGeometry_columns Sample.quietLogger Sample.geometry
              Sample.year2023 1 5 [Sample.year2023; []]) as [Hyear Hrange].
  split.
  - rewrite Hyear; [vm_compute; reflexivity|].
    intros [|[|w]] [|[|d]] week day Hw Hd Hpos; simpl in Hw; try discriminate;
      injection Hw as <-; simpl in Hd; try discriminate; injection Hd as <-;
      try (exfalso; vm_compute in Hpos; discriminate);
      vm_compute; eexists; reflexivity.
  - rewrite Hrange; [vm_compute; reflexivity|].
    intros p grid Hp. simpl. eauto.
Defined.

(** ** The image path of the rasteriser *)

Lemma forEachR_collect {A : Type} (body : list Triangle -> A -> Result (list Triangle))
    (g : A -> list Triangle) (xs : list A) :
  (forall acc x, In x xs -> body acc x = Ok (acc ++ g x)) ->
  forall acc, forEachR body xs acc = Ok (acc ++ concat (map g xs)).
Proof.
  induction xs as [|x rest IH]; intros Hbody acc; simpl.
  - now rewrite app_nil_r.
  - rewrite Hbody by now left. simpl.
    rewrite IH by (intros; apply Hbody; now right).
    now rewrite <- app_assoc.
Qed.

(** C7: for an image that opens and decodes, and whose voxels can all be
    built, [renderImage] returns, column by column (x upwards, y downwards),
    the cube that [createVoxelOnFace] builds at
    (leftOffset * 2000 + x * scale, topOffset * faceHeight + y * scale) for
    exactly the pixels whose colour has, in the alpha-premultiplied 16-bit
    form that its method [RGBA] returns, an alpha and a red that both exceed
    32768; a pixel failing either test adds nothing. *)
Theorem renderImage_active_pixels `{Geo : Geometry}
    (filePath : string) (scale height leftOffsetPercent topOffsetPercent : float)
    (baseWidth baseHeight : float) (img : Image) :
  let voxel (x y : Z.t) :=
    createVoxelOnFace
      (leftOffsetPercent * float64 baseWidthVoxelResolution + float64 x * scale)
      (topOffsetPercent
       * float64 (int (float64 baseWidthVoxelResolution * baseHeight / baseWidth))
       + float64 y * scale)
      height baseWidth baseHeight in
  let active (x y : Z.t) :=
    (32768 <? chA (colorRGBA (At img x y)))%Z && (32768 <? chR (colorRGBA (At img x y)))%Z in
  osOpenImage filePath = None ->
  pngDecode filePath = Ok img ->
  (forall x y, In x (upto (boundsMaxX img)) -> In y (downfrom (boundsMaxY img)) ->
     active x y = true -> exists cube, voxel x y = Ok cube) ->
  renderImage filePath scale height leftOffsetPercent topOffsetPercent baseWidth baseHeight
  = Ok (concat (map (fun x =>
          concat (map (fun y => if active x y then trianglesOf (voxel x y) else [])
                    (downfrom (boundsMaxY img))))
          (upto (boundsMaxX img)))).
Proof.
  intros voxel active Hopen Hdecode Hvoxels. unfold renderImage. cbv zeta.
  rewrite Hopen, Hdecode.
  rewrite (forEachR_collect _ (fun x =>
    concat (map (fun y => if active x y then trianglesOf (voxel x y) else [])
              (downfrom (boundsMaxY img))))); [reflexivity|].
  intros acc x Hx. apply forEachR_collect.
  intros acc' y Hy. fold (active x y). fold (voxel x y).
  destruct (active x y) eqn:Hactive; [|now rewrite app_nil_r].
  destruct (Hvoxels x y Hx Hy Hactive) as [cube Hcube].
  now rewrite Hcube.
Qed.

Lemma renderImage_active_pixels_witness :
  @renderImage Sample.geometry "logo.png" logoScale voxelDepth logoLeftOffset logoTopOffset
     132.5 10
  = Ok (Sample.boxTriangles
          ((logoLeftOffset * 2000 + 0 * logoScale) / 2000 * 132.5)
          (- voxelDepth)
          (- (1 / (2000 * 10 / 132.5) * 10)
           - (logoTopOffset * float64 (int (2000 * 10 / 132.5)) + 0 * logoScale)
             / (2000 * 10 / 132.5) * 10)
          (1 / 2000 * 132.5) voxelDepth (1 / (2000 * 10 / 132.5) * 10)).
Proof.
  rewrite (@renderImage_active_pixels Sample.geometry "logo.png" logoScale voxelDepth
             logoLeftOffset logoTopOffset 132.5 10 Sample.sampleImage).
  - vm_compute. reflexivity.
  - reflexivity.
  - reflexivity.
  - intros x y Hx Hy Hactive. vm_compute in Hx, Hy.
    destruct Hx as [<-|[<-|[]]], Hy as [<-|[<-|[]]];
      try (exfalso; vm_compute in Hactive; discriminate Hactive).
    vm_compute. eexists. reflexivity.
Defined.

(** The test is not on the channels of the source pixel against half of
    their range.  A pixel of a PNG with alpha whose red is 200 of 255 and
    whose alpha is 160 of 255 has both above half, but its premultiplied red
    is 32250; and white at an alpha of 32768 of 65535, which is more than
    half, has premultiplied red and alpha 32768, which does not exceed
    32768.  Neither pixel gives a voxel. *)
Lemma renderImage_premultiplied_red :
  At Sample.translucentImage 0 0 = NRGBA 200 200 200 160
  /\ (255 < 2 * 200)%Z /\ (255 < 2 * 160)%Z
  /\ colorRGBA (NRGBA 200 200 200 160) = mkRGBA 32250 32250 32250 41120
  /\ At Sample.translucentImage 1 0 = NRGBA64 65535 65535 65535 32768
  /\ (65535 < 2 * 32768)%Z
  /\ colorRGBA (NRGBA64 65535 65535 65535 32768) = mkRGBA 32768 32768 32768 32768
  /\ @renderImage Sample.translucentGeometry "logo.png" logoScale voxelDepth logoLeftOffset
       logoTopOffset 132.5 10
     = Ok [].
Proof. repeat split; vm_compute; reflexivity. Qed.

(** * Further properties of the code *)

(** ** The maximum contribution count *)

Lemma week_max (week : list ContributionDay) :
  forall m0,
    let r := fold_left maxStep week m0 in
    (m0 <= r)%Z
    /\ Forall (fun day => (ContributionCount day <= r)%Z) week
    /\ (r = m0 \/ Exists (fun day => ContributionCount day = r) week).
Proof.
  induction week as [|day rest IH]; intros m0; simpl.
  - split; [lia|]. split; [constructor|now left].
  - destruct (IH (maxStep m0 day)) as (Hle & Hall & Hatt).
    assert (Hstep : (m0 <= maxStep m0 day)%Z /\ (ContributionCount day <= maxStep m0 day)%Z
                    /\ (maxStep m0 day = m0 \/ maxStep m0 day = ContributionCount day)).
    { unfold maxStep. destruct (m0 <? ContributionCount day)%Z eqn:Hlt.
      - apply Z.ltb_lt in Hlt. lia.
      - apply Z.ltb_ge in Hlt. lia. }
    destruct Hstep as (H1 & H2 & H3).
    split; [lia|]. split.
    + constructor; [lia|exact Hall].
    + destruct Hatt as [Heq|Hex]; [|right; now apply Exists_cons_tl].
      destruct H3 as [H3|H3]; [left; congruence|].
      right. apply Exists_cons_hd. congruence.
Qed.

Lemma grid_max (contributions : Grid) :
  forall m0,
    let r := fold_left (fun m week => fold_left maxStep week m) contributions m0 in
    (m0 <= r)%Z
    /\ Forall (Forall (fun day => (ContributionCount day <= r)%Z)) contributions
    /\ (r = m0 \/ Exists (Exists (fun day => ContributionCount day = r)) contributions).
Proof.
  induction contributions as [|week rest IH]; intros m0; simpl.
  - split; [lia|]. split; [constructor|now left].
  - destruct (week_max week m0) as (W1 & W2 & W3).
    destruct (IH (fold_left maxStep week m0)) as (H1 & H2 & H3).
    split; [lia|]. split.
    + constructor; [|exact H2].
      eapply Forall_impl; [exact W2|]. simpl. intros day Hday. lia.
    + destruct H3 as [Heq|Hex]; [|right; now apply Exists_cons_tl].
      destruct W3 as [W3|W3]; [left; congruence|].
      right. apply Exists_cons_hd. now rewrite Heq.
Qed.

Lemma findMaxContributions_fold (contributions : Grid) :
  findMaxContributions contributions
  = fold_left (fun m week => fold_left maxStep week m) contributions 0%Z.
Proof. reflexivity. Qed.

Lemma years_max (contributionsPerYear : list Grid) :
  forall m0,
    (0 <= m0)%Z ->
    let step := fun m year =>
      if (m <? findMaxContributions year)%Z then findMaxContributions year else m in
    let r := fold_left step contributionsPerYear m0 in
    (m0 <= r)%Z
    /\ Forall (Forall (Forall (fun day => (ContributionCount day <= r)%Z))) contributionsPerYear
    /\ (r = m0
        \/ Exists (Exists (Exists (fun day => ContributionCount day = r))) contributionsPerYear).
Proof.
  induction contributionsPerYear as [|year rest IH]; intros m0 Hm0; simpl.
  - split; [lia|]. split; [constructor|now left].
  - set (ym := findMaxContributions year).
    set (m1 := if (m0 <? ym)%Z then ym else m0).
    destruct (grid_max year 0%Z) as (G1 & G2 & G3).
    rewrite <- findMaxContributions_fold in G1, G2, G3. fold ym in G1, G2, G3.
    assert (Hm1 : (m0 <= m1)%Z /\ (ym <= m1)%Z /\ (m1 = m0 \/ (m1 = ym /\ (m0 < ym)%Z))).
    { unfold m1. destruct (m0 <? ym)%Z eqn:Hlt.
      - apply Z.ltb_lt in Hlt. lia.
      - apply Z.ltb_ge in Hlt. lia. }
    destruct Hm1 as (M1 & M2 & M3).
    destruct (IH m1) as (H1 & H2 & H3); [lia|].
    split; [lia|]. split.
    + constructor; [|exact H2].
      eapply Forall_impl; [exact G2|]. simpl. intros week Hweek.
      eapply Forall_impl; [exact Hweek|]. simpl. intros day Hday. lia.
    + destruct H3 as [Heq|Hex]; [|right; now apply Exists_cons_tl].
      destruct M3 as [M3|[M3 Hlt]]; [left; congruence|].
      right. apply Exists_cons_hd.
      destruct G3 as [G3|G3]; [lia|]. rewrite Heq, M3. exact G3.
Qed.

(** X1: the maximum that [GenerateSTLRange] hands to the column generator
    is never negative, is at least the count of every day of every year,
    and is either 0 or the count of one of the days. *)
Theorem findMaxContributionsAcrossYears_is_max (contributionsPerYear : list Grid) :
  let maxContrib := findMaxContributionsAcrossYears contributionsPerYear in
  (0 <= maxContrib)%Z
  /\ Forall (Forall (Forall (fun day => (ContributionCount day <= maxContrib)%Z)))
            contributionsPerYear
  /\ (maxContrib = 0%Z
      \/ Exists (Exists (Exists (fun day => ContributionCount day = maxContrib)))
                contributionsPerYear).
Proof. apply (years_max contributionsPerYear 0%Z). lia. Qed.

(** For a single year the maximum of [findMaxContributions] has the
    same three properties, so a grid without a positive count has maximum 0. *)
Theorem findMaxContributions_is_max (contributions : Grid) :
  let maxContrib := findMaxContributions contributions in
  (0 <= maxContrib)%Z
  /\ Forall (Forall (fun day => (ContributionCount day <= maxContrib)%Z)) contributions
  /\ (maxContrib = 0%Z
      \/ Exists (Exists (fun day => ContributionCount day = maxContrib)) contributions).
Proof. apply (grid_max contributions 0%Z). Qed.

(** ** Validation and dimensions *)

Section Validation.
Context `{Geo : Geometry}.

(** X2: [validateInput] accepts exactly the grids of 1 to [GridSize] weeks
    given with a non-empty output path and a non-empty username, and every
    rejection is a ValidationError without a cause. *)
Theorem validateInput_accepts_iff (contributions : Grid) (outputPath username : string) :
  (validateInput contributions outputPath username = Ret tt
   <-> (0 < length contributions <= GridSize)%nat /\ outputPath <> "" /\ username <> "")
  /\ (validateInput contributions outputPath username = Ret tt
      \/ exists msg, validateInput contributions outputPath username
                     = Fail (New ValidationError msg None)).
Proof.
  unfold validateInput.
  destruct (decide (length contributions = 0%nat)) as [Hlen|Hlen].
  { split; [|right; eauto]. split; [discriminate|]. lia. }
  destruct (decide (GridSize < length contributions)%nat) as [Hbig|Hbig].
  { split; [|right; eauto]. split; [discriminate|]. lia. }
  destruct (String.eqb_spec outputPath "") as [Hout|Hout].
  { split; [|right; eauto]. split; [discriminate|]. tauto. }
  destruct (String.eqb_spec username "") as [Huser|Huser].
  { split; [|right; eauto]. split; [discriminate|]. tauto. }
  split; [|now left]. split; [|reflexivity]. intros _. repeat split; try assumption; lia.
Qed.

(** X3: [calculateDimensions] succeeds exactly when the year count is
    positive and neither dimension computed for it compares as [<= 0]; it
    then returns those two dimensions with the fixed image path, and every
    failure is a ValidationError.  (A NaN dimension does not compare as
    [<= 0] and is accepted.) *)
Theorem calculateDimensions_accepts_iff (yearCount : Z.t) (dims : modelDimensions) :
  (calculateDimensions yearCount = Ret dims
   <-> (0 < yearCount)%Z
       /\ (fst (CalculateMultiYearDimensions yearCount) <=? 0) = false
       /\ (snd (CalculateMultiYearDimensions yearCount) <=? 0) = false
       /\ dims = mkDims (fst (CalculateMultiYearDimensions yearCount))
                        (snd (CalculateMultiYearDimensions yearCount))
                        "assets/invertocat.png")
  /\ ((exists d, calculateDimensions yearCount = Ret d)
      \/ exists msg, calculateDimensions yearCount = Fail (New ValidationError msg None)).
Proof.
  unfold calculateDimensions.
  destruct (yearCount <=? 0)%Z eqn:Hyc.
  { apply Z.leb_le in Hyc. split; [|right; eauto]. split; [discriminate|]. lia. }
  apply Z.leb_gt in Hyc.
  destruct (CalculateMultiYearDimensions yearCount) as [width depth]. simpl.
  destruct (width <=? 0) eqn:Hw; simpl.
  { split; [|right; eauto]. split; [discriminate|]. intros (_ & H & _). discriminate. }
  destruct (depth <=? 0) eqn:Hd; simpl.
  { split; [|right; eauto]. split; [discriminate|]. intros (_ & _ & H & _). discriminate. }
  split; [|left; eauto]. split.
  - intros [= <-]. auto.
  - intros (_ & _ & _ & ->). reflexivity.
Qed.

End Validation.

(** ** Transforms and the triangle estimate *)

(** X4: [translateTriangles] and [scaleTriangles] keep the number and the
    order of the triangles (triangle [i] of the result comes from triangle
    [i] of the input) and distribute over the concatenation of meshes. *)
Theorem transforms_keep_shape (ts ts' : list Triangle) (dx dy dz scale : float) (i : nat) :
  length (translateTriangles ts dx dy dz) = length ts
  /\ length (scaleTriangles ts scale) = length ts
  /\ translateTriangles ts dx dy dz !! i = option_map (moved dx dy dz) (ts !! i)
  /\ scaleTriangles ts scale !! i = option_map (scaled scale) (ts !! i)
  /\ translateTriangles (ts ++ ts') dx dy dz
     = translateTriangles ts dx dy dz ++ translateTriangles ts' dx dy dz
  /\ scaleTriangles (ts ++ ts') scale = scaleTriangles ts scale ++ scaleTriangles ts' scale.
Proof.
  rewrite !translateTriangles_map, !scaleTriangles_map, !length_map, !map_app.
  repeat split; change (map ?f ?l) with (f <$> l); now rewrite list_lookup_fmap.
Qed.

Section Estimate.
Context `{Log : Logger} `{Geo : Geometry}.

Lemma estimate_week (week : list ContributionDay) :
  forall total,
    fold_left (fun total day =>
      if (0 <? ContributionCount day)%Z then (total + 1)%Z else total) week total
    = (total + activeDays week)%Z.
Proof.
  induction week as [|day rest IH]; intros total; simpl; [lia|].
  rewrite IH. destruct (0 <? ContributionCount day)%Z; lia.
Qed.

Lemma estimate_grid (contributions : Grid) :
  forall total,
    fold_left (fun total week =>
      fold_left (fun total day =>
        if (0 <? ContributionCount day)%Z then (total + 1)%Z else total) week total)
      contributions total
    = (total + activeCells contributions)%Z.
Proof.
  induction contributions as [|week rest IH]; intros total; simpl; [lia|].
  rewrite estimate_week, IH. lia.
Qed.

Lemma week_boxes (yearIndex maxContrib weekIdx : Z.t) (week : list ContributionDay) :
  forall dayIdx,
    twelvePerColumn yearIndex maxContrib weekIdx dayIdx week ->
    Z.of_nat (length (concat (imap (fun d day =>
       cellBox yearIndex maxContrib weekIdx (dayIdx + Z.of_nat d) day) week)))
    = (12 * activeDays week)%Z.
Proof.
  induction week as [|day rest IH]; intros dayIdx Htwelve; [reflexivity|].
  rewrite imap_cons. cbn [concat activeDays]. rewrite length_app, Nat2Z.inj_add.
  assert (Himap : imap ((fun d day0 => cellBox yearIndex maxContrib weekIdx
                                         (dayIdx + Z.of_nat d) day0) ∘ S) rest
                  = imap (fun d day0 => cellBox yearIndex maxContrib weekIdx
                                          (dayIdx + 1 + Z.of_nat d) day0) rest).
  { apply imap_ext. intros d day' _. simpl. f_equal. lia. }
  rewrite Himap, IH.
  - unfold cellBox. destruct (0 <? ContributionCount day)%Z eqn:Hpos; [|simpl; lia].
    destruct (Htwelve 0%nat day eq_refl) as (box & Hbox & Hlen); [now apply Z.ltb_lt|].
    rewrite Hbox. simpl. rewrite Hlen. lia.
  - intros d day' Hd Hpos. specialize (Htwelve (S d) day' Hd Hpos).
    now replace (dayIdx + 1 + Z.of_nat d)%Z with (dayIdx + Z.of_nat (S d))%Z by lia.
Qed.

Lemma grid_boxes (yearIndex maxContrib : Z.t) (contributions : Grid) :
  forall weekIdx,
    (forall (w : nat) (week : list ContributionDay),
        contributions !! w = Some week ->
        twelvePerColumn yearIndex maxContrib (weekIdx + Z.of_nat w) 0 week) ->
    Z.of_nat (length (concat (imap (fun w week =>
       concat (imap (fun d day =>
         cellBox yearIndex maxContrib (weekIdx + Z.of_nat w) (Z.of_nat d) day) week))
       contributions)))
    = (12 * activeCells contributions)%Z.
Proof.
  induction contributions as [|week rest IH]; intros weekIdx Htwelve; [reflexivity|].
  rewrite imap_cons. cbn [concat activeCells]. rewrite length_app, Nat2Z.inj_add.
  assert (Hrest : imap ((fun w week0 => concat (imap (fun d day =>
                    cellBox yearIndex maxContrib (weekIdx + Z.of_nat w) (Z.of_nat d) day)
                    week0)) ∘ S) rest
                  = imap (fun w week0 => concat (imap (fun d day =>
                      cellBox yearIndex maxContrib (weekIdx + 1 + Z.of_nat w)
                        (Z.of_nat d) day) week0)) rest).
  { apply imap_ext. intros w week' _. simpl. f_equal.
    apply imap_ext. intros d day _. f_equal. lia. }
  assert (Hhead : Z.of_nat (length (concat (imap (fun d day =>
                    cellBox yearIndex maxContrib (weekIdx + Z.of_nat 0) (Z.of_nat d) day)
                    week)))
                  = (12 * activeDays week)%Z)
    by exact (week_boxes yearIndex maxContrib (weekIdx + Z.of_nat 0) week 0
                (Htwelve 0%nat week eq_refl)).
  cbn beta. rewrite Hrest, IH, Hhead.
  - lia.
  - intros w week' Hw. specialize (Htwelve (S w) week' Hw).
    now replace (weekIdx + 1 + Z.of_nat w)%Z with (weekIdx + Z.of_nat (S w))%Z by lia.
Qed.

(** X5: [estimateTriangleCount] is 1012 plus twelve times the number of
    cells with a count above 0; when every such cell gets a column of twelve
    triangles, that is the length of [CreateContributionGeometry]'s mesh
    plus the 12 triangles of the base and the 1000 set aside for text. *)
Theorem estimateTriangleCount_counts_columns
    (contributions : Grid) (yearIndex maxContrib : Z.t) :
  estimateTriangleCount contributions = (1012 + 12 * activeCells contributions)%Z
  /\ ((forall (w : nat) (week : list ContributionDay),
          contributions !! w = Some week ->
          twelvePerColumn yearIndex maxContrib (Z.of_nat w) 0 week) ->
      estimateTriangleCount contributions
      = (12 + Z.of_nat (length (CreateContributionGeometry contributions yearIndex maxContrib))
         + 1000)%Z).
Proof.
  assert (Hest : estimateTriangleCount contributions
                 = (1012 + 12 * activeCells contributions)%Z).
  { unfold estimateTriangleCount. rewrite estimate_grid. lia. }
  split; [exact Hest|]. intros Htwelve. rewrite Hest.
  unfold CreateContributionGeometry. rewrite weeksLoop_spec.
  - pose proof (grid_boxes yearIndex maxContrib contributions 0) as Hboxes.
    simpl in Hboxes. simpl. rewrite Hboxes; [lia|].
    intros w week Hw. rewrite Z.add_0_l. now apply Htwelve.
  - intros w week Hw d day Hd Hpos. rewrite Z.add_0_l.
    destruct (Htwelve w week Hw d day Hd Hpos) as (box & Hbox & _). eauto.
Qed.

End Estimate.

Lemma estimateTriangleCount_counts_columns_witness :
  @estimateTriangleCount Sample.year2023
  = (12 + Z.of_nat (length (@CreateContributionGeometry Sample.quietLogger Sample.geometry
                              Sample.year2023 1 5)) + 1000)%Z.
Proof.
  apply (@estimateTriangleCount_counts_columns Sample.quietLogger Sample.geometry
           Sample.year2023 1 5).
  intros [|[|w]] week Hw [|[|d]] day Hd Hpos; simpl in Hw; try discriminate;
    injection Hw as <-; simpl in Hd; try discriminate; injection Hd as <-;
    try (exfalso; vm_compute in Hpos; discriminate);
    vm_compute; eexists; split; reflexivity.
Defined.

(** ** The columns producer and the fan-in *)

Section ColumnsProducer.
Context `{Log : Logger} `{Geo : Geometry}.

Lemma columnsLoop_skips (len maxContrib : Z.t) (years : list (Z.t * Grid)) :
  logCall Warning "Failed to generate column geometry for year %d: %v. Skipping year." = None ->
  forall acc,
    columnsLoop len maxContrib years acc
    = Some (mkResult
              (acc ++ concat (map (fun y =>
                 trianglesOf (yearGeometry (snd y) (len - 1 - fst y) maxContrib)) years))
              None).
Proof.
  intros Hlog. induction years as [|[i grid] rest IH]; intros acc.
  - simpl. now rewrite app_nil_r.
  - cbn [columnsLoop map concat fst snd].
    destruct (yearGeometry grid (len - 1 - i) maxContrib) as [ts|e]; simpl.
    + rewrite IH. now rewrite <- app_assoc.
    + rewrite Hlog, IH. reflexivity.
Qed.

Lemma columnsLoop_gives_up (len maxContrib : Z.t) (years : list (Z.t * Grid)) (logErr : error) :
  logCall Warning "Failed to generate column geometry for year %d: %v. Skipping year."
    = Some logErr ->
  forall acc,
    (columnsLoop len maxContrib years acc = None
     <-> Exists (fun y => exists e,
                   yearGeometry (snd y) (len - 1 - fst y) maxContrib = Err e) years)
    /\ (columnsLoop len maxContrib years acc = None
        \/ columnsLoop len maxContrib years acc
           = Some (mkResult
                     (acc ++ concat (map (fun y =>
                        trianglesOf (yearGeometry (snd y) (len - 1 - fst y) maxContrib))
                        years))
                     None)).
Proof.
  intros Hlog. induction years as [|[i grid] rest IH]; intros acc.
  - simpl. rewrite app_nil_r. split; [|now right].
    split; [discriminate|]. intros Hex. inversion Hex.
  - cbn [columnsLoop map concat fst snd].
    destruct (yearGeometry grid (len - 1 - i) maxContrib) as [ts|e] eqn:Hyear; simpl.
    + destruct (IH (acc ++ ts)) as [Hiff Hcases]. split.
      * rewrite Hiff. split; [intros Hex; now apply Exists_cons_tl|].
        intros Hex. apply Exists_cons in Hex as [[e He]|Hex]; [|exact Hex].
        simpl in He. congruence.
      * rewrite <- app_assoc in Hcases. exact Hcases.
    + rewrite Hlog. split; [|now left].
      split; [|reflexivity]. intros _. apply Exists_cons_hd. simpl. eauto.
Qed.

(** X6: [generateColumnsForYearRange] with a working warning log always
    sends a mesh with a nil error, made of the years that could be built,
    last year first, a failed year adding nothing; with a failing warning
    log it returns without sending exactly when the geometry of some year
    fails. *)
Theorem generateColumnsForYearRange_failed_year
    (contributionsPerYear : list Grid) (maxContrib : Z.t) :
  let format := "Failed to generate column geometry for year %d: %v. Skipping year." in
  let depth (p : nat) := (Z.of_nat (length contributionsPerYear) - 1 - Z.of_nat p)%Z in
  let built :=
    Some (mkResult
            (concat (rev (imap (fun p grid =>
               trianglesOf (yearGeometry grid (depth p) maxContrib)) contributionsPerYear)))
            None) in
  (logCall Warning format = None ->
   generateColumnsForYearRange contributionsPerYear maxContrib = built)
  /\ (forall logErr, logCall Warning format = Some logErr ->
        (generateColumnsForYearRange contributionsPerYear maxContrib = None
         <-> exists p grid e,
               contributionsPerYear !! p = Some grid
               /\ yearGeometry grid (depth p) maxContrib = Err e)
        /\ (generateColumnsForYearRange contributionsPerYear maxContrib = None
            \/ generateColumnsForYearRange contributionsPerYear maxContrib = built)).
Proof.
  intros format depth built. unfold generateColumnsForYearRange.
  assert (Hbuilt : forall years : list (Z.t * Grid),
             years = rev (imap (fun i y => (Z.of_nat i, y)) contributionsPerYear) ->
             Some (mkResult
                     ([] ++ concat (map (fun y => trianglesOf
                        (yearGeometry (snd y)
                           (Z.of_nat (length contributionsPerYear) - 1 - fst y) maxContrib))
                        years)) None) = built).
  { intros years ->. unfold built. simpl. rewrite map_rev. do 4 f_equal.
    change (map ?f ?l) with (f <$> l). rewrite fmap_imap. reflexivity. }
  split.
  - intros Hlog. rewrite columnsLoop_skips by exact Hlog. now apply Hbuilt.
  - intros logErr Hlog.
    destruct (columnsLoop_gives_up (Z.of_nat (length contributionsPerYear)) maxContrib
                (rev (imap (fun i y => (Z.of_nat i, y)) contributionsPerYear)) logErr Hlog [])
      as [Hiff Hcases].
    split.
    + rewrite Hiff, Exists_exists. split.
      * intros ([i grid] & Hin & e & He). apply list_elem_of_In, in_rev in Hin.
        apply list_elem_of_In, elem_of_lookup_imap in Hin as (p & g & [= -> ->] & Hp).
        exists p, g, e. split; [exact Hp|exact He].
      * intros (p & grid & e & Hp & He). exists (Z.of_nat p, grid). split; [|eauto].
        apply list_elem_of_In, in_rev. rewrite rev_involutive. apply list_elem_of_In.
        apply (elem_of_lookup_imap_2 (fun i y => (Z.of_nat i, y)) _ _ _ Hp).
    + destruct Hcases as [Hnone|Hsome]; [now left|right].
      rewrite Hsome. now apply Hbuilt.
Qed.

End ColumnsProducer.

Section Deadlock.
Import Orchestrator.


End Deadlock.


(** ** The effects of GenerateSTLRange *)

Lemma bind_inv_trace {A B} (m : Run A) (k : A -> Run B) (ev : Event) :
  In ev (snd (bind m k)) -> ~ In ev (snd m) ->
  exists a, fst m = Ret a /\ snd (bind m k) = snd m ++ snd (k a) /\ In ev (snd (k a)).
Proof.
  intros Hin Hnot. rewrite snd_bind in *.
  destruct (fst m) as [a| | |]; try contradiction.
  apply in_app_iff in Hin as [Hin|Hin]; [contradiction|]. eauto.
Qed.

Lemma ret_bind {A B} (m : Run A) (k : A -> Run B) (b : B) :
  fst (bind m k) = Ret b -> exists a, fst m = Ret a /\ fst (k a) = Ret b.
Proof. rewrite fst_bind. destruct (fst m) as [a| | |]; try discriminate. eauto. Qed.

Lemma in_bind_r {A B} (m : Run A) (k : A -> Run B) (a : A) (ev : Event) :
  fst m = Ret a -> In ev (snd (k a)) -> In ev (snd (bind m k)).
Proof. intros Hm Hin. rewrite snd_bind, Hm. apply in_app_iff. now right. Qed.

Lemma wrapErr_ret {A} (o : Outcome A) (msg : string) (a : A) :
  wrapErr o msg = Ret a -> o = Ret a.
Proof. destruct o; simpl; congruence. Qed.

Section Effects.
Context `{Log : Logger} `{Geo : Geometry} `{Sys : System}.

(** The stage of [GenerateSTLRange] that merges the character mesh. *)
Lemma merge_stage (read : Result (list Triangle)) (dims : modelDimensions)
    (model : list Triangle) :
  let stage :=
    match read with
    | Ok (t :: ts) =>
        let characterTriangles := placeCharacter dims (t :: ts) in
        let modelTriangles := model ++ characterTriangles in
        logOr Info "Merged character.stl with %d triangles (right-top, scaled)"
              "failed to log info message" ;;;
        ret modelTriangles
    | Ok [] | Err _ =>
        logOr Debug "No character.stl found or error reading it: %v"
              "failed to log debug message" ;;;
        ret model
    end in
  snd stage = [characterEvent read]
  /\ forall final, fst stage = Ret final ->
       final = match read with
               | Ok (t :: ts) => model ++ placeCharacter dims (t :: ts)
               | _ => model
               end.
Proof.
  destruct read as [[|t ts]|e]; cbv zeta; rewrite snd_bind, fst_bind, logOr_run; simpl;
    destruct (logCall _ _); simpl; (split; [reflexivity|intros final; congruence]).
Qed.

Lemma GenerateSTLRange_when_written (contributions : list Grid) (outputPath username : string)
    (startYear endYear : Z.t) (topText rightText : string) (path : string)
    (mesh : list Triangle) :
  In (EvWrite path mesh)
     (snd (GenerateSTLRange contributions outputPath username startYear endYear
             topText rightText)) ->
  exists dims model read rest,
    calculateDimensions (Z.of_nat (length contributions)) = Ret dims
    /\ fst (generateModelGeometry contributions dims
              (findMaxContributionsAcrossYears contributions)
              username startYear endYear topText rightText) = Ret model
    /\ fst readCharacter = Ret read
    /\ path = outputPath
    /\ mesh = match read with
              | Ok (t :: ts) => model ++ placeCharacter dims (t :: ts)
              | _ => model
              end
    /\ snd (GenerateSTLRange contributions outputPath username startYear endYear
              topText rightText)
       = [EvLog Debug "Starting STL generation for user %s, years %d-%d";
          EvGo TBase; EvGo TColumns; EvGo TText; EvGo TImage;
          EvRead "character.stl"; EvRead "character.stl";
          characterEvent read;
          EvLog Info "Model generation complete: %d total triangles";
          EvLog Debug "Writing STL file to: %s";
          EvWrite outputPath mesh] ++ rest
    /\ (rest = [] \/ rest = [EvLog Info "STL file written successfully to: %s"]).
Proof.
  unfold GenerateSTLRange. intros Hin.
  apply bind_inv_trace in Hin as (u1 & _ & -> & Hin);
    [|rewrite logOr_run; simpl; intuition discriminate].
  apply bind_inv_trace in Hin as (first & Hfirst & -> & Hin); [|simpl; tauto].
  apply bind_inv_trace in Hin as (u2 & _ & -> & Hin); [|simpl; tauto].
  apply bind_inv_trace in Hin as (dims & Hdims & -> & Hin); [|simpl; tauto].
  assert (Hne : contributions <> []) by (intros ->; discriminate).
  apply bind_inv_trace in Hin as (model & Hmodel & -> & Hin);
    [|unfold wrapRun; rewrite generateModelGeometry_run by assumption;
      simpl; intuition discriminate].
  apply bind_inv_trace in Hin as (read & Hread & -> & Hin);
    [|rewrite readCharacter_trace; simpl; intuition discriminate].
  destruct (merge_stage read dims model) as [Hstage Hfinal]. cbv zeta in Hstage, Hfinal.
  apply bind_inv_trace in Hin as (final & Hfin & -> & Hin);
    [|rewrite Hstage; destruct read as [[|t ts]|e]; simpl; intuition discriminate].
  apply Hfinal in Hfin.
  apply bind_inv_trace in Hin as (u3 & _ & -> & Hin);
    [|rewrite logOr_run; simpl; intuition discriminate].
  apply bind_inv_trace in Hin as (u4 & _ & -> & Hin);
    [|rewrite logOr_run; simpl; intuition discriminate].
  assert (Hpm : path = outputPath /\ mesh = final).
  { apply in_bind in Hin as [Hin|(u5 & _ & Hin)].
    - simpl in Hin. destruct Hin as [[= <- <-]|[]]. now split.
    - exfalso. apply in_bind in Hin as [Hin|(u6 & _ & Hin)]; [contradiction|].
      rewrite logOr_run in Hin. simpl in Hin. intuition discriminate. }
  destruct Hpm as [-> ->]. clear Hin.
  rewrite Hstage, readCharacter_trace, !logOr_run.
  unfold wrapRun. rewrite generateModelGeometry_run by assumption.
  simpl in Hdims. apply wrapErr_ret in Hdims.
  unfold wrapRun in Hmodel. simpl in Hmodel. apply wrapErr_ret in Hmodel.
  rewrite !snd_bind. cbn [fst snd emit lift app].
  destruct (WriteSTLBinary outputPath final) as [e|]; cbn [check wrapErr app].
  - exists dims, model, read, []. auto 10.
  - exists dims, model, read, [EvLog Info "STL file written successfully to: %s"].
    auto 10.
Qed.

End Effects.

Lemma bind_ext {A B} (m : Run A) (k k' : A -> Run B) :
  (forall a, k a = k' a) -> bind m k = bind m k'.
Proof. intros Hk. unfold bind. destruct (fst m); try reflexivity. now rewrite Hk. Qed.

Section EffectsOfGeneration.
Context `{Log : Logger} `{Geo : Geometry} `{Sys : System}.

(** X8: if [GenerateSTLRange] writes a file at all, it writes it once, to
    the output path, and its effects are, in this order: the start message,
    the four [go] statements, the probe and the read of character.stl, the
    message about the character mesh, two more messages, the write, and
    then at most the final message. *)
Theorem GenerateSTLRange_effects_in_order
    (contributions : list Grid) (outputPath username : string) (startYear endYear : Z.t)
    (topText rightText : string) (path : string) (mesh : list Triangle) :
  In (EvWrite path mesh)
     (snd (GenerateSTLRange contributions outputPath username startYear endYear
             topText rightText)) ->
  path = outputPath
  /\ exists read rest,
       fst readCharacter = Ret read
       /\ snd (GenerateSTLRange contributions outputPath username startYear endYear
                 topText rightText)
          = [EvLog Debug "Starting STL generation for user %s, years %d-%d";
             EvGo TBase; EvGo TColumns; EvGo TText; EvGo TImage;
             EvRead "character.stl"; EvRead "character.stl";
             characterEvent read;
             EvLog Info "Model generation complete: %d total triangles";
             EvLog Debug "Writing STL file to: %s";
             EvWrite outputPath mesh] ++ rest
       /\ (rest = [] \/ rest = [EvLog Info "STL file written successfully to: %s"]).
Proof.
  intros Hin.
  apply GenerateSTLRange_when_written in Hin
    as (dims & model & read & rest & _ & _ & Hread & Hpath & _ & Htrace & Hrest).
  split; [exact Hpath|]. exists read, rest. auto.
Qed.

(** X9: when character.stl cannot be read, or holds no triangle, the mesh
    written is exactly the mesh of [generateModelGeometry], and the debug
    message about the missing file has been logged. *)
Theorem unreadable_character_is_left_out
    (contributions : list Grid) (outputPath username : string) (startYear endYear : Z.t)
    (topText rightText : string) (path : string) (mesh : list Triangle) :
  In (EvWrite path mesh)
     (snd (GenerateSTLRange contributions outputPath username startYear endYear
             topText rightText)) ->
  (forall t ts, fst readCharacter <> Ret (Ok (t :: ts))) ->
  (exists dims,
      calculateDimensions (Z.of_nat (length contributions)) = Ret dims
      /\ fst (generateModelGeometry contributions dims
                (findMaxContributionsAcrossYears contributions)
                username startYear endYear topText rightText) = Ret mesh)
  /\ In (EvLog Debug "No character.stl found or error reading it: %v")
        (snd (GenerateSTLRange contributions outputPath username startYear endYear
                topText rightText)).
Proof.
  intros Hin Hnone.
  apply GenerateSTLRange_when_written in Hin
    as (dims & model & read & rest & Hdims & Hmodel & Hread & _ & Hmesh & Htrace & _).
  assert (Hread' : match read with Ok (_ :: _) => False | _ => True end).
  { destruct read as [[|t ts]|e]; try exact I. exfalso. eapply Hnone, Hread. }
  split.
  - exists dims. split; [exact Hdims|].
    destruct read as [[|t ts]|e]; try contradiction; now subst mesh.
  - rewrite Htrace. destruct read as [[|t ts]|e]; try contradiction;
      simpl; do 7 right; now left.
Qed.

(** X10: a call of [GenerateSTLRange] that returns nil has written the
    mesh to the output path, and [WriteSTLBinary] accepted it. *)
Theorem GenerateSTLRange_success_has_written
    (contributions : list Grid) (outputPath username : string) (startYear endYear : Z.t)
    (topText rightText : string) :
  fst (GenerateSTLRange contributions outputPath username startYear endYear
         topText rightText) = Ret tt ->
  exists mesh,
    In (EvWrite outputPath mesh)
       (snd (GenerateSTLRange contributions outputPath username startYear endYear
               topText rightText))
    /\ WriteSTLBinary outputPath mesh = None.
Proof.
  unfold GenerateSTLRange. intros Hret.
  apply ret_bind in Hret as (u1 & H1 & Hret).
  apply ret_bind in Hret as (first & H2 & Hret).
  apply ret_bind in Hret as (u2 & H3 & Hret).
  apply ret_bind in Hret as (dims & H4 & Hret).
  apply ret_bind in Hret as (model & H5 & Hret).
  apply ret_bind in Hret as (read & H6 & Hret).
  apply ret_bind in Hret as (final & H7 & Hret).
  apply ret_bind in Hret as (u3 & H8 & Hret).
  apply ret_bind in Hret as (u4 & H9 & Hret).
  apply ret_bind in Hret as (u5 & H10 & Hret).
  apply ret_bind in Hret as (u6 & H11 & _).
  exists final. split.
  - eapply in_bind_r; [exact H1|]. eapply in_bind_r; [exact H2|].
    eapply in_bind_r; [exact H3|]. eapply in_bind_r; [exact H4|].
    eapply in_bind_r; [exact H5|]. eapply in_bind_r; [exact H6|].
    eapply in_bind_r; [exact H7|]. eapply in_bind_r; [exact H8|].
    eapply in_bind_r; [exact H9|].
    rewrite snd_bind. simpl. now left.
  - simpl in H11. destruct (WriteSTLBinary outputPath final); [discriminate|reflexivity].
Qed.

Lemma validateInput_username (first : Grid) (outputPath username username' : string) :
  username <> "" -> username' <> "" ->
  validateInput first outputPath username = validateInput first outputPath username'.
Proof.
  intros Hu Hu'. unfold validateInput.
  destruct (String.eqb_spec username ""); [contradiction|].
  destruct (String.eqb_spec username' ""); [contradiction|]. reflexivity.
Qed.

(** X11: the username only passes through validation: for any two
    non-empty usernames [GenerateSTLRange] has the same outcome and the same
    effects, so the mesh it writes does not show the username
    ([generateText] is started with an empty one). *)
Theorem GenerateSTLRange_ignores_username
    (contributions : list Grid) (outputPath username username' : string)
    (startYear endYear : Z.t) (topText rightText : string) :
  username <> "" -> username' <> "" ->
  GenerateSTLRange contributions outputPath username startYear endYear topText rightText
  = GenerateSTLRange contributions outputPath username' startYear endYear topText rightText.
Proof.
  intros Hu Hu'. unfold GenerateSTLRange.
  apply bind_ext. intros _. apply bind_ext. intros first.
  now rewrite (validateInput_username first outputPath username username').
Qed.

End EffectsOfGeneration.

Lemma GenerateSTLRange_effects_in_order_witness :
  let run := @GenerateSTLRange Sample.quietLogger Sample.geometry Sample.system
               [Sample.year2023] "out.stl" "alice" 2023 2023 "" "" in
  exists read rest,
    snd run
    = [EvLog Debug "Starting STL generation for user %s, years %d-%d";
       EvGo TBase; EvGo TColumns; EvGo TText; EvGo TImage;
       EvRead "character.stl"; EvRead "character.stl";
       characterEvent read;
       EvLog Info "Model generation complete: %d total triangles";
       EvLog Debug "Writing STL file to: %s";
       EvWrite "out.stl" (written (snd run))] ++ rest.
Proof.
  intros run.
  destruct (@GenerateSTLRange_effects_in_order Sample.quietLogger Sample.geometry
              Sample.system [Sample.year2023] "out.stl" "alice" 2023 2023 "" ""
              "out.stl" (written (snd run)))
    as (_ & read & rest & _ & Htrace & _).
  - vm_compute. do 10 right. left. reflexivity.
  - exists read, rest. exact Htrace.
Defined.

Lemma unreadable_character_is_left_out_witness :
  let run := @GenerateSTLRange Sample.quietLogger Sample.geometry Sample.bareSystem
               [Sample.year2023] "out.stl" "alice" 2023 2023 "" "" in
  length (written (snd run)) = 48%nat
  /\ In (EvLog Debug "No character.stl found or error reading it: %v") (snd run).
Proof.
  intros run.
  destruct (@unreadable_character_is_left_out Sample.quietLogger Sample.geometry
              Sample.bareSystem [Sample.year2023] "out.stl" "alice" 2023 2023 "" ""
              "out.stl" (written (snd run)))
    as (_ & Hlog).
  - vm_compute. do 10 right. left. reflexivity.
  - intros t ts. vm_compute. discriminate.
  - split; [vm_compute; reflexivity|exact Hlog].
Defined.

Lemma GenerateSTLRange_success_has_written_witness :
  exists mesh,
    In (EvWrite "out.stl" mesh)
       (snd (@GenerateSTLRange Sample.quietLogger Sample.geometry Sample.bareSystem
               [Sample.year2023] "out.stl" "alice" 2023 2023 "" "")).
Proof.
  destruct (@GenerateSTLRange_success_has_written Sample.quietLogger Sample.geometry
              Sample.bareSystem [Sample.year2023] "out.stl" "alice" 2023 2023 "" "")
    as (mesh & Hin & _).
  - vm_compute. reflexivity.
  - exists mesh. exact Hin.
Defined.

Lemma GenerateSTLRange_ignores_username_witness :
  @GenerateSTLRange Sample.quietLogger Sample.geometry Sample.bareSystem
     [Sample.year2023] "out.stl" "alice" 2023 2023 "" ""
  = @GenerateSTLRange Sample.quietLogger Sample.geometry Sample.bareSystem
      [Sample.year2023] "out.stl" "bob" 2023 2023 "" "".
Proof.
  apply (@GenerateSTLRange_ignores_username Sample.quietLogger Sample.geometry
           Sample.bareSystem); discriminate.
Defined.

(** ** Package utils *)

Lemma splitFrom_length (sep : ascii) (s : string) :
  forall cur, length (splitFrom sep s cur) = S (countChar sep s).
Proof.
  induction s as [|c rest IH]; intros cur; simpl; [reflexivity|].
  destruct (Ascii.eqb c sep); simpl; now rewrite IH.
Qed.

Lemma Contains_char (sep : ascii) (s : string) :
  Contains s (String sep EmptyString) = negb (Nat.eqb (countChar sep s) 0).
Proof.
  induction s as [|c rest IH]; [reflexivity|].
  cbn [Contains countChar String.prefix].
  destruct (Ascii.eqb_spec c sep) as [->|Hne].
  - destruct (ascii_dec sep sep); [|contradiction]. now destruct rest.
  - destruct (ascii_dec sep c) as [->|_]; [contradiction|]. simpl. exact IH.
Qed.

Lemma ToLower_app (a b : string) : ToLower (a +:+ b) = ToLower a +:+ ToLower b.
Proof. induction a as [|c a IH]; simpl; [reflexivity|]. now rewrite IH. Qed.

Lemma HasSuffix_app (a b suffix : string) :
  HasSuffix b suffix = true -> HasSuffix (a +:+ b) suffix = true.
Proof.
  intros Hb. induction a as [|c a IH]; simpl; [exact Hb|].
  rewrite IH. apply orb_true_r.
Qed.

Lemma prefix_app (a b : string) : String.prefix a (a +:+ b) = true.
Proof.
  induction a as [|c a IH]; simpl; [now destruct b|].
  destruct (ascii_dec c c); [exact IH|contradiction].
Qed.

Lemma prefix_refl (a : string) : String.prefix a a = true.
Proof.
  induction a as [|c a IH]; simpl; [reflexivity|].
  destruct (ascii_dec c c); [exact IH|contradiction].
Qed.

Section UtilsProperties.
Context `{Lib : Library}.

Lemma validateYearRange_accepts (startYear endYear : Z.t) :
  validateYearRange startYear endYear = None
  <-> (githubLaunchYear <= startYear <= endYear)%Z /\ (endYear <= currentYear)%Z.
Proof.
  unfold validateYearRange.
  destruct (startYear <? githubLaunchYear)%Z eqn:H1;
    destruct (currentYear <? endYear)%Z eqn:H2;
    destruct (endYear <? startYear)%Z eqn:H3; simpl;
    rewrite ?Z.ltb_lt, ?Z.ltb_ge in *; split; try discriminate; try reflexivity; lia.
Qed.

(** X12: what [ParseYearRange] returns.  With a nil error the years satisfy
    2008 <= startYear <= endYear <= the current year; with an error, either
    both years are 0 (the text did not parse) or they are the parsed years
    and the error is the one of [validateYearRange]; and a text without a
    dash gives the same year twice. *)
Theorem ParseYearRange_postcondition (yearRange : string) :
  match ParseYearRange yearRange with
  | (startYear, endYear, None) =>
      (githubLaunchYear <= startYear <= endYear)%Z /\ (endYear <= currentYear)%Z
  | (startYear, endYear, Some e) =>
      (startYear = 0%Z /\ endYear = 0%Z) \/ validateYearRange startYear endYear = Some e
  end
  /\ (Contains yearRange "-" = false ->
      fst (fst (ParseYearRange yearRange)) = snd (fst (ParseYearRange yearRange))).
Proof.
  unfold ParseYearRange. split.
  - destruct (Contains yearRange "-").
    + destruct (Split yearRange "-") as [|part0 [|part1 [|part2 parts]]]; auto.
      destruct (Atoi part0) as [startYear|e0]; auto.
      destruct (Atoi part1) as [endYear|e1]; auto.
      destruct (validateYearRange startYear endYear) eqn:Hvalid; auto.
      now apply validateYearRange_accepts.
    + destruct (Atoi yearRange) as [year|e0]; auto.
      destruct (validateYearRange year year) eqn:Hvalid; auto.
      now apply validateYearRange_accepts.
  - intros ->. now destruct (Atoi yearRange).
Qed.

(** X13: a text with two or more dashes is rejected as an invalid range,
    whatever stands between the dashes; so a negative year in a range
    (as in 2019--5) is never read. *)
Theorem ParseYearRange_rejects_second_dash (yearRange : string) :
  (2 <= countChar "-" yearRange)%nat ->
  ParseYearRange yearRange = (0%Z, 0%Z, Some (Foreign "invalid year range format")).
Proof.
  intros Hdashes. unfold ParseYearRange.
  rewrite Contains_char.
  destruct (Nat.eqb_spec (countChar "-" yearRange) 0) as [Hzero|_]; [lia|]. simpl.
  pose proof (splitFrom_length "-" yearRange EmptyString) as Hlen.
  fold (Split yearRange "-") in Hlen.
  destruct (Split yearRange "-") as [|part0 [|part1 [|part2 parts]]]; simpl in Hlen;
    try reflexivity; lia.
Qed.

Lemma GenerateOutputFilename_ends (user : string) (startYear endYear : Z.t) (output : string) :
  HasSuffix (ToLower (GenerateOutputFilename user startYear endYear output)) ".stl" = true.
Proof.
  unfold GenerateOutputFilename. destruct (String.eqb output ""); simpl.
  - rewrite !ToLower_app. now do 3 apply HasSuffix_app.
  - destruct (HasSuffix (ToLower output) ".stl") eqn:Hsuffix; simpl; [exact Hsuffix|].
    rewrite ToLower_app. now apply HasSuffix_app.
Qed.

Lemma GenerateOutputFilename_starts (user : string) (startYear endYear : Z.t)
    (output : string) :
  String.prefix output (GenerateOutputFilename user startYear endYear output) = true.
Proof.
  unfold GenerateOutputFilename. destruct (String.eqb_spec output "") as [->|_]; simpl.
  - apply (prefix_app "").
  - destruct (HasSuffix (ToLower output) ".stl"); simpl; [|apply prefix_app].
    apply prefix_refl.
Qed.

(** X14: the file name of [GenerateOutputFilename] always ends in .stl (in
    any mix of upper and lower case), starts with the name the user gave,
    and is a fixed point: passing it back as the output gives it again. *)
Theorem GenerateOutputFilename_extension (user user' : string)
    (startYear endYear startYear' endYear' : Z.t) (output : string) :
  HasSuffix (ToLower (GenerateOutputFilename user startYear endYear output)) ".stl" = true
  /\ String.prefix output (GenerateOutputFilename user startYear endYear output) = true
  /\ GenerateOutputFilename user' startYear' endYear'
       (GenerateOutputFilename user startYear endYear output)
     = GenerateOutputFilename user startYear endYear output.
Proof.
  pose proof (GenerateOutputFilename_ends user startYear endYear output) as Hends.
  split; [exact Hends|]. split; [apply GenerateOutputFilename_starts|].
  remember (GenerateOutputFilename user startYear endYear output) as name.
  unfold GenerateOutputFilename at 1.
  rewrite Hends. simpl.
  destruct (String.eqb_spec name "") as [Hempty|_]; [|reflexivity].
  rewrite Hempty in Hends. discriminate.
Qed.

(** Without an output name, the file is named after the user and the
    very text that [generateText] embosses on the model when no right text
    is given: [FormatYearRange] and [embossedRight] agree. *)
Theorem default_filename_shows_embossed_years (user : string) (startYear endYear : Z.t) :
  FormatYearRange startYear endYear = embossedRight startYear endYear ""
  /\ GenerateOutputFilename user startYear endYear ""
     = user +:+ "-" +:+ embossedRight startYear endYear "" +:+ "-github-skyline.stl".
Proof.
  assert (Hsame : FormatYearRange startYear endYear = embossedRight startYear endYear "").
  { unfold FormatYearRange, embossedRight. simpl.
    destruct (Z.eqb_spec startYear endYear) as [->|_]; reflexivity. }
  split; [exact Hsame|]. unfold GenerateOutputFilename. simpl. now rewrite Hsame.
Qed.

End UtilsProperties.

Lemma ParseYearRange_rejects_second_dash_witness :
  @ParseYearRange SampleLibrary.library "2019-2020-2021"
  = (0%Z, 0%Z, Some (Foreign "invalid year range format")).
Proof.
  apply (@ParseYearRange_rejects_second_dash SampleLibrary.library). simpl. lia.
Defined.

(** ** The month filter of package skyline *)

Section MonthFilter.
Context `{Lib : Library}.

Lemma filterDays_from (startMonth endMonth : Z.t) (week : list ContributionDay) :
  forall kept,
    fold_left (fun filteredDays day =>
      match parseMonth (Date day) with
      | None => filteredDays
      | Some month =>
          if (startMonth <=? month)%Z && (month <=? endMonth)%Z
          then filteredDays ++ [day]
          else filteredDays
      end) week kept
    = kept ++ List.filter (inMonths startMonth endMonth) week.
Proof.
  induction week as [|day rest IH]; intros kept; simpl; [now rewrite app_nil_r|].
  rewrite IH. unfold inMonths.
  destruct (parseMonth (Date day)) as [month|]; [|reflexivity].
  destruct ((startMonth <=? month)%Z && (month <=? endMonth)%Z); [|reflexivity].
  now rewrite <- app_assoc.
Qed.

Lemma filterDays_filter (startMonth endMonth : Z.t) (week : list ContributionDay) :
  filterDays week startMonth endMonth = List.filter (inMonths startMonth endMonth) week.
Proof. unfold filterDays. now rewrite filterDays_from. Qed.

Lemma filterWeeks_from (startMonth endMonth : Z.t) (contributions : Grid) :
  forall kept,
    fold_left (fun filteredWeeks week =>
      let filteredDays := filterDays week startMonth endMonth in
      if decide (0 < length filteredDays)%nat then filteredWeeks ++ [filteredDays]
      else filteredWeeks) contributions kept
    = kept ++ List.filter nonEmpty
                (map (List.filter (inMonths startMonth endMonth)) contributions).
Proof.
  induction contributions as [|week rest IH]; intros kept; simpl; [now rewrite app_nil_r|].
  rewrite IH, filterDays_filter.
  destruct (List.filter (inMonths startMonth endMonth) week) as [|day days] eqn:Hweek.
  - destruct (decide (0 < length (@nil ContributionDay))%nat) as [Hlen|_];
      [simpl in Hlen; lia|reflexivity].
  - destruct (decide (0 < length (day :: days))%nat) as [_|Hlen];
      [|simpl in Hlen; lia].
    simpl. now rewrite <- app_assoc.
Qed.

Lemma filterContributionsByMonth_filter (contributions : Grid) (year startMonth endMonth : Z.t) :
  filterContributionsByMonth contributions year startMonth endMonth
  = List.filter nonEmpty (map (List.filter (inMonths startMonth endMonth)) contributions).
Proof. unfold filterContributionsByMonth. now rewrite filterWeeks_from. Qed.

(** X15: [filterContributionsByMonth] keeps, in their order, the days whose
    date parses to a month of the range, and then the weeks that still have
    a day; so no week of its result is empty, every day of its result lies
    in the range, and it has at most as many weeks as before. *)
Theorem filterContributionsByMonth_keeps (contributions : Grid) (year startMonth endMonth : Z.t) :
  filterContributionsByMonth contributions year startMonth endMonth
  = List.filter nonEmpty (map (List.filter (inMonths startMonth endMonth)) contributions)
  /\ Forall (fun week => week <> [])
            (filterContributionsByMonth contributions year startMonth endMonth)
  /\ Forall (Forall (fun day =>
               exists month, parseMonth (Date day) = Some month
                             /\ (startMonth <= month <= endMonth)%Z))
            (filterContributionsByMonth contributions year startMonth endMonth)
  /\ (length (filterContributionsByMonth contributions year startMonth endMonth)
      <= length contributions)%nat.
Proof.
  rewrite filterContributionsByMonth_filter. split; [reflexivity|]. split; [|split].
  - apply List.Forall_forall. intros week Hweek.
    apply filter_In in Hweek as [_ Hweek]. now destruct week.
  - apply List.Forall_forall. intros week Hweek.
    apply filter_In in Hweek as [Hweek _].
    apply in_map_iff in Hweek as (week0 & <- & _).
    apply List.Forall_forall. intros day Hday.
    apply filter_In in Hday as [_ Hday]. unfold inMonths in Hday.
    destruct (parseMonth (Date day)) as [month|]; [|discriminate].
    exists month. split; [reflexivity|].
    apply andb_true_iff in Hday as [H1 H2]. apply Z.leb_le in H1, H2. lia.
  - etransitivity; [apply List.filter_length_le|]. now rewrite length_map.
Qed.

Lemma filter_narrow (startMonth endMonth startMonth' endMonth' : Z.t)
    (week : list ContributionDay) :
  (startMonth <= startMonth')%Z -> (endMonth' <= endMonth)%Z ->
  List.filter (inMonths startMonth' endMonth') (List.filter (inMonths startMonth endMonth) week)
  = List.filter (inMonths startMonth' endMonth') week.
Proof.
  intros Hs He. induction week as [|day rest IH]; simpl; [reflexivity|].
  destruct (inMonths startMonth endMonth day) eqn:Hwide; simpl; rewrite IH; [reflexivity|].
  destruct (inMonths startMonth' endMonth' day) eqn:Hnarrow; [|reflexivity].
  exfalso. unfold inMonths in Hwide, Hnarrow.
  destruct (parseMonth (Date day)) as [month|]; [|discriminate].
  apply andb_true_iff in Hnarrow as [H1 H2]. apply Z.leb_le in H1, H2.
  apply andb_false_iff in Hwide as [H3|H3]; apply Z.leb_gt in H3; lia.
Qed.

(** X16: filtering a filtered grid by a month range inside the first one
    gives what filtering the original grid by the inner range gives; in
    particular the filter is idempotent, and its year argument is not used. *)
Theorem filterContributionsByMonth_narrows (contributions : Grid)
    (year year' startMonth endMonth startMonth' endMonth' : Z.t) :
  (startMonth <= startMonth')%Z -> (endMonth' <= endMonth)%Z ->
  filterContributionsByMonth
    (filterContributionsByMonth contributions year startMonth endMonth)
    year' startMonth' endMonth'
  = filterContributionsByMonth contributions year startMonth' endMonth'.
Proof.
  intros Hs He. rewrite !filterContributionsByMonth_filter.
  induction contributions as [|week rest IH]; simpl; [reflexivity|].
  destruct (List.filter (inMonths startMonth endMonth) week) as [|day days] eqn:Hweek; simpl.
  - rewrite IH, <- (filter_narrow startMonth endMonth startMonth' endMonth' week Hs He), Hweek.
    reflexivity.
  - rewrite IH, <- (filter_narrow startMonth endMonth startMonth' endMonth' week Hs He), Hweek.
    reflexivity.
Qed.

(** X17: a grid without an empty week, all of whose days lie in the month
    range, passes the filter unchanged. *)
Theorem filterContributionsByMonth_keeps_all (contributions : Grid)
    (year startMonth endMonth : Z.t) :
  Forall (fun week => week <> []
                      /\ Forall (fun day => inMonths startMonth endMonth day = true) week)
         contributions ->
  filterContributionsByMonth contributions year startMonth endMonth = contributions.
Proof.
  intros Hall. rewrite filterContributionsByMonth_filter.
  induction Hall as [|week rest [Hne Hweek] Hrest IH]; simpl; [reflexivity|].
  assert (Hsame : List.filter (inMonths startMonth endMonth) week = week).
  { clear Hne. induction Hweek as [|day days Hday Hdays IHd]; simpl; [reflexivity|].
    now rewrite Hday, IHd. }
  rewrite Hsame, IH. destruct week; [contradiction|reflexivity].
Qed.

Lemma filtered_days (contributions : Grid) (year startMonth endMonth : Z.t)
    (week : list ContributionDay) (day : ContributionDay) :
  In week (filterContributionsByMonth contributions year startMonth endMonth) ->
  In day week ->
  exists week0, In week0 contributions /\ In day week0.
Proof.
  rewrite filterContributionsByMonth_filter. intros Hweek Hday.
  apply filter_In in Hweek as [Hweek _].
  apply in_map_iff in Hweek as (week0 & <- & Hweek0).
  apply filter_In in Hday as [Hday _]. eauto.
Qed.

(** X18: filtering never raises the maximum that scales the columns: the
    maximum of the filtered grid lies between 0 and the maximum of the grid. *)
Theorem filterContributionsByMonth_lowers_max (contributions : Grid)
    (year startMonth endMonth : Z.t) :
  (0 <= findMaxContributions
          (filterContributionsByMonth contributions year startMonth endMonth)
     <= findMaxContributions contributions)%Z.
Proof.
  destruct (grid_max (filterContributionsByMonth contributions year startMonth endMonth) 0%Z)
    as (Hpos' & _ & Hattained).
  destruct (grid_max contributions 0%Z) as (Hpos & Hbound & _).
  rewrite <- !findMaxContributions_fold in *.
  split; [exact Hpos'|].
  destruct Hattained as [->|Hattained]; [exact Hpos|].
  apply List.Exists_exists in Hattained as (week & Hweek & Hday).
  apply List.Exists_exists in Hday as (day & Hday & <-).
  destruct (filtered_days _ _ _ _ _ _ Hweek Hday) as (week0 & Hweek0 & Hday0).
  rewrite List.Forall_forall in Hbound. specialize (Hbound week0 Hweek0).
  rewrite List.Forall_forall in Hbound. exact (Hbound day Hday0).
Qed.

End MonthFilter.

Section FilteredGeneration.
Context `{Lib : Library} `{Log : Logger} `{Geo : Geometry} `{Sys : System}.

(** X19: when no day of the year lies in the month range, the filtered
    grid is empty, and [GenerateSTL] on it fails in validation (with a
    logger that works), having started no goroutine and written no file. *)
Theorem GenerateSTL_of_empty_months (contributions : Grid) (year startMonth endMonth : Z.t)
    (outputPath username topText rightText : string) :
  Forall (Forall (fun day => inMonths startMonth endMonth day = false)) contributions ->
  logCall Debug "Starting STL generation for user %s, years %d-%d" = None ->
  filterContributionsByMonth contributions year startMonth endMonth = []
  /\ GenerateSTL (filterContributionsByMonth contributions year startMonth endMonth)
       outputPath username year topText rightText
     = (Fail (Wrap (New ValidationError "contributions data cannot be empty" None)
                "input validation failed"),
        [EvLog Debug "Starting STL generation for user %s, years %d-%d"]).
Proof.
  intros Hnone Hlog.
  assert (Hempty : filterContributionsByMonth contributions year startMonth endMonth = []).
  { rewrite filterContributionsByMonth_filter.
    induction Hnone as [|week rest Hweek Hrest IH]; simpl; [reflexivity|].
    assert (Hdays : List.filter (inMonths startMonth endMonth) week = []).
    { clear IH. induction Hweek as [|day days Hday Hdays IHd]; simpl; [reflexivity|].
      now rewrite Hday. }
    now rewrite Hdays. }
  split; [exact Hempty|]. rewrite Hempty.
  unfold GenerateSTL, GenerateSTLRange. rewrite logOr_run, Hlog. reflexivity.
Qed.

End FilteredGeneration.

Lemma filterContributionsByMonth_narrows_witness :
  @filterContributionsByMonth SampleLibrary.library
    (@filterContributionsByMonth SampleLibrary.library SampleLibrary.winter 2023 1 6)
    2023 2 2
  = [[SampleLibrary.day "2023-02-01" 7];
     [SampleLibrary.day "2023-02-02" 1; SampleLibrary.day "2023-02-03" 9]].
Proof.
  rewrite (@filterContributionsByMonth_narrows SampleLibrary.library); [|lia..].
  vm_compute. reflexivity.
Defined.

Lemma filterContributionsByMonth_keeps_all_witness :
  @filterContributionsByMonth SampleLibrary.library SampleLibrary.winter 2023 1 2
  = SampleLibrary.winter.
Proof.
  apply (@filterContributionsByMonth_keeps_all SampleLibrary.library).
  repeat constructor; discriminate.
Defined.

Lemma GenerateSTL_of_empty_months_witness :
  fst (@GenerateSTL Sample.quietLogger Sample.geometry Sample.bareSystem
         (@filterContributionsByMonth SampleLibrary.library SampleLibrary.winter 2023 3 12)
         "out.stl" "alice" 2023 "" "")
  = Fail (Wrap (New ValidationError "contributions data cannot be empty" None)
            "input validation failed").
Proof.
  destruct (@GenerateSTL_of_empty_months SampleLibrary.library Sample.quietLogger
              Sample.geometry Sample.bareSystem SampleLibrary.winter 2023 3 12
              "out.stl" "alice" "" "") as [_ Hrun].
  - repeat constructor.
  - reflexivity.
  - now rewrite Hrun.
Defined.

(** ** The ASCII reader *)

Lemma forEach_app {A S : Type} (body : S -> A -> Outcome S) (xs ys : list A) :
  forall s, forEach body (xs ++ ys) s = bindO (forEach body xs s) (forEach body ys).
Proof.
  induction xs as [|x rest IH]; intros s; simpl; [reflexivity|].
  destruct (body s x); simpl; auto.
Qed.

Section ReaderShape.
Context `{Sys : System}.

Lemma readLine_short (st : ReaderState) (text : string) :
  if shortLine text then readLine st text = Panic "index out of range"
  else exists st', readLine st text = Ret st'.
Proof.
  unfold shortLine, readLine.
  destruct (HasPrefix (TrimSpace text) "facet normal").
  - destruct (Fields (TrimSpace text)) as [|f0 [|f1 [|f2 [|f3 [|f4 rest]]]]]; simpl; eauto.
  - destruct (HasPrefix (TrimSpace text) "vertex").
    + destruct (Fields (TrimSpace text)) as [|f0 [|f1 [|f2 [|f3 rest]]]]; simpl; eauto.
    + destruct (HasPrefix (TrimSpace text) "endfacet"); [|eauto].
      destruct (rdVertices st) as [|v0 [|v1 [|v2 [|v3 rest]]]]; eauto.
Qed.

Lemma forEach_short (lines : list string) :
  forall st,
    if existsb shortLine lines
    then forEach readLine lines st = Panic "index out of range"
    else exists st', forEach readLine lines st = Ret st'.
Proof.
  induction lines as [|text rest IH]; intros st; simpl; [eauto|].
  pose proof (readLine_short st text) as Hline.
  destruct (shortLine text); simpl.
  - now rewrite Hline.
  - destruct Hline as [st' ->]. simpl. apply IH.
Qed.

(** X20: [ReadASCIISTL] panics with an index out of range exactly when
    the file has a facet-normal line with fewer than five fields or a vertex
    line with fewer than four, whether or not the scanner ends with an
    error; without such a line it returns the scanner's error, or else a
    list of triangles. *)
Theorem ReadASCIISTL_panics_on_short_line (filename : string) (lines : list string)
    (scanErr : option error) :
  scanFile filename = Ok (lines, scanErr) ->
  if existsb shortLine lines
  then ReadASCIISTL filename = Panic "index out of range"
  else match scanErr with
       | Some e => ReadASCIISTL filename = Fail e
       | None => exists triangles, ReadASCIISTL filename = Ret triangles
       end.
Proof.
  intros Hscan. unfold ReadASCIISTL. rewrite Hscan. simpl.
  pose proof (forEach_short lines (mkReader [] zeroPoint [])) as Hloop.
  destruct (existsb shortLine lines).
  - now rewrite Hloop.
  - destruct Hloop as [st' ->]. simpl. destruct scanErr; simpl; eauto.
Qed.

Lemma readLine_other (st : ReaderState) (text : string) :
  otherLine text = true -> readLine st text = Ret st.
Proof.
  unfold otherLine, readLine. intros Hother.
  apply andb_true_iff in Hother as [Hother H3].
  apply andb_true_iff in Hother as [H1 H2].
  apply negb_true_iff in H1, H2, H3. now rewrite H1, H2, H3.
Qed.

Lemma forEach_skips_other (lines : list string) :
  forall st,
    forEach readLine lines st
    = forEach readLine (List.filter (fun text => negb (otherLine text)) lines) st.
Proof.
  induction lines as [|text rest IH]; intros st; simpl; [reflexivity|].
  destruct (otherLine text) eqn:Hother; simpl.
  - rewrite readLine_other by exact Hother. simpl. apply IH.
  - destruct (readLine st text); simpl; auto.
Qed.

Lemma readLine_normal (st : ReaderState) (text : string) (n : Point3D) :
  normalOf text = Some n ->
  readLine st text = Ret (mkReader (rdTriangles st) n (rdVertices st)).
Proof.
  unfold normalOf, readLine.
  destruct (HasPrefix (TrimSpace text) "facet normal"); [|discriminate].
  destruct (Fields (TrimSpace text)) as [|f0 [|f1 [|f2 [|f3 [|f4 rest]]]]]; try discriminate.
  now intros [= <-].
Qed.

Lemma readLine_vertex (st : ReaderState) (text : string) (v : Point3D) :
  vertexOf text = Some v ->
  readLine st text = Ret (mkReader (rdTriangles st) (rdNormal st) (rdVertices st ++ [v])).
Proof.
  unfold vertexOf, readLine.
  destruct (HasPrefix (TrimSpace text) "facet normal"); [discriminate|].
  destruct (HasPrefix (TrimSpace text) "vertex"); [|discriminate].
  destruct (Fields (TrimSpace text)) as [|f0 [|f1 [|f2 [|f3 rest]]]]; try discriminate.
  now intros [= <-].
Qed.

Lemma readLine_end (st : ReaderState) (text : string) :
  endsFacet text = true ->
  readLine st text
  = Ret (mkReader (rdTriangles st
                   ++ facetTriangles (mkFacet (rdNormal st) (rdVertices st)))
                  (rdNormal st) []).
Proof.
  unfold endsFacet, readLine. intros Hend.
  apply andb_true_iff in Hend as [Hend H3].
  apply andb_true_iff in Hend as [H1 H2].
  apply negb_true_iff in H1, H2. rewrite H1, H2, H3.
  unfold facetTriangles. simpl.
  destruct (rdVertices st) as [|v0 [|v1 [|v2 [|v3 rest]]]]; simpl;
    rewrite ?app_nil_r; reflexivity.
Qed.

Lemma forEach_vertices (vs : list string) (qs : list Point3D) :
  Forall2 (fun v q => vertexOf v = Some q) vs qs ->
  forall ts n seen,
    forEach readLine vs (mkReader ts n seen) = Ret (mkReader ts n (seen ++ qs)).
Proof.
  induction 1 as [|v q vs qs Hv Hrest IH]; intros ts n seen; simpl.
  - now rewrite app_nil_r.
  - rewrite (readLine_vertex _ _ _ Hv). simpl. rewrite IH. now rewrite <- app_assoc.
Qed.

Lemma forEach_facet (f : Facet) (block : list string) :
  facetLines f block ->
  forall ts n,
    forEach readLine block (mkReader ts n [])
    = Ret (mkReader (ts ++ facetTriangles f) (facetNormal f) []).
Proof.
  intros (nl & vs & e & -> & Hn & Hvs & He) ts n.
  cbn [forEach]. rewrite (readLine_normal _ _ _ Hn). cbn [bindO rdTriangles rdVertices].
  rewrite forEach_app, (forEach_vertices _ _ Hvs). cbn [bindO forEach app].
  rewrite (readLine_end _ _ He). cbn [bindO rdTriangles rdNormal rdVertices].
  now destruct f.
Qed.

Lemma forEach_facets (facets : list Facet) (blocks : list (list string)) :
  Forall2 facetLines facets blocks ->
  forall ts n,
    exists n',
      forEach readLine (concat blocks) (mkReader ts n [])
      = Ret (mkReader (ts ++ concat (map facetTriangles facets)) n' []).
Proof.
  induction 1 as [|f block facets blocks Hf Hrest IH]; intros ts n; simpl.
  - exists n. now rewrite app_nil_r.
  - rewrite forEach_app, (forEach_facet _ _ Hf). simpl.
    destruct (IH (ts ++ facetTriangles f) (facetNormal f)) as [n' ->].
    exists n'. now rewrite <- app_assoc.
Qed.

(** X21: reading a file of facets.  When the lines other than solid, loop
    and similar lines form facets (a complete facet-normal line, complete
    vertex lines, endfacet), [ReadASCIISTL] returns, in file order, one
    triangle for each facet with exactly three vertex lines, with the
    facet's normal and its vertices in order; a facet with any other number
    of vertex lines is dropped without an error. *)
Theorem ReadASCIISTL_reads_facets (filename : string) (lines : list string)
    (facets : list Facet) (blocks : list (list string)) :
  scanFile filename = Ok (lines, None) ->
  List.filter (fun text => negb (otherLine text)) lines = concat blocks ->
  Forall2 facetLines facets blocks ->
  ReadASCIISTL filename = Ret (concat (map facetTriangles facets)).
Proof.
  intros Hscan Hlines Hfacets. unfold ReadASCIISTL. rewrite Hscan. simpl.
  rewrite forEach_skips_other, Hlines.
  destruct (forEach_facets _ _ Hfacets [] zeroPoint) as [n' ->]. reflexivity.
Qed.

End ReaderShape.

Section TruncatedCharacter.
Context `{Log : Logger} `{Geo : Geometry} `{Sys : System}.

(** X22: an ASCII character.stl with a short facet-normal or vertex line
    stops [GenerateSTLRange]: whatever the other inputs, it does not return
    nil and it writes no file. *)
Theorem truncated_character_writes_nothing
    (contributions : list Grid) (outputPath username : string) (startYear endYear : Z.t)
    (topText rightText : string) (header : string) (lines : list string)
    (scanErr : option error) :
  readHeader "character.stl" = Some (header, None) ->
  HasPrefix header "solid" = true ->
  scanFile "character.stl" = Ok (lines, scanErr) ->
  existsb shortLine lines = true ->
  fst (GenerateSTLRange contributions outputPath username startYear endYear
         topText rightText) <> Ret tt
  /\ forall path mesh,
       ~ In (EvWrite path mesh)
            (snd (GenerateSTLRange contributions outputPath username startYear endYear
                    topText rightText)).
Proof.
  intros Hheader Hsolid Hscan Hshort.
  assert (Hpanic : fst readCharacter = Panic "index out of range").
  { unfold readCharacter. rewrite Hheader, Hsolid.
    pose proof (forEach_short lines (mkReader [] zeroPoint [])) as Hread.
    rewrite Hshort in Hread. rewrite !fst_bind. simpl.
    unfold ReadASCIISTL. rewrite Hscan. simpl. now rewrite Hread. }
  assert (Hnone : forall path mesh,
             ~ In (EvWrite path mesh)
                  (snd (GenerateSTLRange contributions outputPath username startYear endYear
                          topText rightText))).
  { intros path mesh Hin.
    apply GenerateSTLRange_when_written in Hin
      as (dims & model & read & rest & _ & _ & Hread & _).
    rewrite Hpanic in Hread. discriminate. }
  split; [|exact Hnone].
  unfold GenerateSTLRange. intros Hret.
  apply ret_bind in Hret as (u1 & _ & Hret).
  apply ret_bind in Hret as (first & _ & Hret).
  apply ret_bind in Hret as (u2 & _ & Hret).
  apply ret_bind in Hret as (dims & _ & Hret).
  apply ret_bind in Hret as (model & _ & Hret).
  apply ret_bind in Hret as (read & Hread & _).
  rewrite Hpanic in Hread. discriminate.
Qed.

End TruncatedCharacter.

Lemma ReadASCIISTL_panics_on_short_line_witness :
  @ReadASCIISTL truncatedSystem "character.stl" = Panic "index out of range".
Proof.
  exact (@ReadASCIISTL_panics_on_short_line truncatedSystem "character.stl" _ None
           eq_refl).
Defined.

Lemma ReadASCIISTL_reads_facets_witness :
  @ReadASCIISTL Sample.system "character.stl"
  = Ret [mkTriangle (mkPoint3D 0 0 1) (mkPoint3D 0 0 4) (mkPoint3D 10 0 4) (mkPoint3D 0 10 0)].
Proof.
  apply (@ReadASCIISTL_reads_facets Sample.system "character.stl" Sample.characterLines
           [mkFacet (mkPoint3D 0 0 1) [mkPoint3D 0 0 4; mkPoint3D 10 0 4; mkPoint3D 0 10 0]]
           [["  facet normal 0 0 1"; "      vertex 0 0 4"; "      vertex 10 0 4";
             "      vertex 0 10 4.x"; "  endfacet"]]).
  - reflexivity.
  - vm_compute. reflexivity.
  - constructor; [|constructor].
    exists "  facet normal 0 0 1",
           ["      vertex 0 0 4"; "      vertex 10 0 4"; "      vertex 0 10 4.x"],
           "  endfacet".
    split; [reflexivity|]. split; [vm_compute; reflexivity|]. split; [|vm_compute; reflexivity].
    repeat constructor.
Defined.

Lemma truncated_character_writes_nothing_witness :
  let run := @GenerateSTLRange Sample.quietLogger Sample.geometry truncatedSystem
               [Sample.year2023] "out.stl" "alice" 2023 2023 "" "" in
  fst run <> Ret tt /\ forall path mesh, ~ In (EvWrite path mesh) (snd run).
Proof.
  apply (@truncated_character_writes_nothing Sample.quietLogger Sample.geometry
           truncatedSystem [Sample.year2023] "out.stl" "alice" 2023 2023 "" ""
           "solid character"
           ["solid character"; "  facet normal 0 0 1"; "    outer loop";
            "      vertex 0 0 4"; "      vertex 10 0"] None); reflexivity.
Defined.

(** ** The text path of the rasteriser *)

Section Raster.
Context `{Geo : Geometry}.

Variable red : Z.t -> Z.t -> Z.t.
Variable voxel : Z.t -> Z.t -> Result (list Triangle).

Lemma column_result (x : Z.t) (ys : list Z.t) :
  forall acc,
    match forEachR (fun triangles y =>
            if isPixelActive red x y then appendVoxel triangles (voxel x y)
            else Ok triangles) ys acc with
    | Ok ts =>
        ts = acc ++ concat (map (fun y => if (32768 <? red x y)%Z
                                          then trianglesOf (voxel x y) else []) ys)
        /\ forall y, In y ys -> (32768 < red x y)%Z -> exists v, voxel x y = Ok v
    | Err err => failedCube red voxel [x] ys err
    end.
Proof.
  induction ys as [|y rest IH]; intros acc; simpl.
  - split; [now rewrite app_nil_r|]. intros y [].
  - unfold isPixelActive at 1. destruct (32768 <? red x y)%Z eqn:Hactive; simpl.
    + apply Z.ltb_lt in Hactive. destruct (voxel x y) as [v|e] eqn:Hvoxel; simpl.
      * specialize (IH (acc ++ v)).
        destruct (forEachR _ rest (acc ++ v)) as [ts|err].
        -- destruct IH as [-> Hall]. split; [now rewrite <- app_assoc|].
           intros y' [<-|Hy'] Hred; eauto.
        -- destruct IH as (x' & y' & e & Hx' & Hy' & Hrest).
           exists x', y', e. split; [exact Hx'|]. split; [now right|exact Hrest].
      * exists x, y, e. repeat split; auto; now left.
    + apply Z.ltb_ge in Hactive. specialize (IH acc).
      destruct (forEachR _ rest acc) as [ts|err].
      * destruct IH as [-> Hall]. split; [reflexivity|].
        intros y' [<-|Hy'] Hred; [lia|eauto].
      * destruct IH as (x' & y' & e & Hx' & Hy' & Hrest).
        exists x', y', e. split; [exact Hx'|]. split; [now right|exact Hrest].
Qed.

Lemma raster_result (xs ys : list Z.t) :
  forall acc,
    match forEachR (fun triangles x =>
            forEachR (fun triangles y =>
              if isPixelActive red x y then appendVoxel triangles (voxel x y)
              else Ok triangles) ys triangles) xs acc with
    | Ok ts =>
        ts = acc ++ activeVoxels red voxel xs ys
        /\ forall x y, In x xs -> In y ys -> (32768 < red x y)%Z ->
                       exists v, voxel x y = Ok v
    | Err err => failedCube red voxel xs ys err
    end.
Proof.
  induction xs as [|x rest IH]; intros acc; simpl.
  - split; [now rewrite app_nil_r|]. intros x y [].
  - pose proof (column_result x ys acc) as Hcolumn.
    destruct (forEachR _ ys acc) as [column|err]; simpl.
    + destruct Hcolumn as [-> Hall]. specialize (IH (acc ++ concat (map (fun y =>
        if (32768 <? red x y)%Z then trianglesOf (voxel x y) else []) ys))).
      destruct (forEachR _ rest _) as [ts|err].
      * destruct IH as [-> Hrest]. split.
        -- unfold activeVoxels. simpl. now rewrite <- app_assoc.
        -- intros x' y' [<-|Hx'] Hy' Hred; eauto.
      * destruct IH as (x' & y' & e & Hx' & Hrest).
        exists x', y', e. split; [now right|exact Hrest].
    + destruct Hcolumn as (x' & y' & e & [<-|[]] & Hrest).
      exists x, y', e. split; [now left|exact Hrest].
Qed.

Lemma raster_from_empty (xs ys : list Z.t) :
  match forEachR (fun triangles x =>
          forEachR (fun triangles y =>
            if isPixelActive red x y then appendVoxel triangles (voxel x y)
            else Ok triangles) ys triangles) xs [] with
  | Ok ts =>
      ts = activeVoxels red voxel xs ys
      /\ forall x y, In x xs -> In y ys -> (32768 < red x y)%Z ->
                     exists v, voxel x y = Ok v
  | Err err => failedCube red voxel xs ys err
  end.
Proof.
  pose proof (raster_result xs ys []) as Hraster.
  destruct (forEachR _ xs []) as [ts|err]; [|exact Hraster].
  destruct Hraster as [-> Hall]. split; [reflexivity|exact Hall].
Qed.

End Raster.

Section TextRaster.
Context `{Geo : Geometry}.

Lemma loadFont_error (fontSize : float) (e : error) :
  loadFont fontSize = Err e -> exists msg cause, e = New IOError msg (Some cause).
Proof.
  unfold loadFont.
  destruct (writeTempFont PrimaryFont) as [fontPath|e1]; simpl.
  - destruct (LoadFontFace fontPath fontSize); intros [= <-]; eauto.
  - destruct (writeTempFont FallbackFont) as [fontPath|e2]; simpl.
    + destruct (LoadFontFace fontPath fontSize); intros [= <-]; eauto.
    + intros [= <-]. eauto.
Qed.

Lemma renderText_loaded (text justification : string)
    (leftOffsetPercent fontSize baseWidth baseHeight : float) (fontPath : string) :
  loadFont fontSize = Ok fontPath ->
  renderText text justification leftOffsetPercent fontSize baseWidth baseHeight
  = forEachR (fun triangles x =>
      forEachR (fun triangles y =>
        if isPixelActive (faceCanvas text justification leftOffsetPercent fontSize
                            baseWidth baseHeight fontPath) x y
        then appendVoxel triangles
               (createVoxelOnFace (float64 x) (float64 y) voxelDepth baseWidth baseHeight)
        else Ok triangles)
        (upto (faceRes baseWidth baseHeight)) triangles)
      (upto baseWidthVoxelResolution) [].
Proof. intros Hfont. unfold renderText. rewrite Hfont. reflexivity. Qed.

Lemma renderTextOnTop_loaded (text justification : string)
    (leftOffsetPercent topOffsetPercent fontSize baseWidth baseDepth baseHeight : float)
    (fontPath : string) :
  loadFont fontSize = Ok fontPath ->
  renderTextOnTop text justification leftOffsetPercent topOffsetPercent fontSize
    baseWidth baseDepth baseHeight
  = forEachR (fun triangles x =>
      forEachR (fun triangles y =>
        if isPixelActive (topCanvas text justification leftOffsetPercent topOffsetPercent
                            fontSize baseWidth baseDepth fontPath) x y
        then appendVoxel triangles
               (createVoxelOnTop (float64 x) (float64 y) voxelDepth
                  baseWidth baseDepth baseHeight)
        else Ok triangles)
        (upto (faceRes baseWidth baseDepth)) triangles)
      (upto baseWidthVoxelResolution) [].
Proof. intros Hfont. unfold renderTextOnTop. rewrite Hfont. reflexivity. Qed.

Lemma renderText_unloaded (text justification : string)
    (leftOffsetPercent fontSize baseWidth baseHeight : float) (e : error) :
  loadFont fontSize = Err e ->
  renderText text justification leftOffsetPercent fontSize baseWidth baseHeight = Err e.
Proof. intros Hfont. unfold renderText. rewrite Hfont. reflexivity. Qed.

Lemma renderTextOnTop_unloaded (text justification : string)
    (leftOffsetPercent topOffsetPercent fontSize baseWidth baseDepth baseHeight : float)
    (e : error) :
  loadFont fontSize = Err e ->
  renderTextOnTop text justification leftOffsetPercent topOffsetPercent fontSize
    baseWidth baseDepth baseHeight = Err e.
Proof. intros Hfont. unfold renderTextOnTop. rewrite Hfont. reflexivity. Qed.

(** X23: what [renderText] returns.  If no font can be loaded, the
    IOError of the font; otherwise it returns triangles exactly when the
    cube of every canvas pixel whose red channel exceeds 32768 can be
    built, namely those cubes column by column (x from 0 to 1999, y from 0
    upwards), and else the STLError of such a pixel whose cube failed. *)
Theorem renderText_result (text justification : string)
    (leftOffsetPercent fontSize baseWidth baseHeight : float) :
  match loadFont fontSize with
  | Err e =>
      renderText text justification leftOffsetPercent fontSize baseWidth baseHeight = Err e
      /\ exists msg cause, e = New IOError msg (Some cause)
  | Ok fontPath =>
      let red := faceCanvas text justification leftOffsetPercent fontSize
                   baseWidth baseHeight fontPath in
      let voxel := fun x y =>
        createVoxelOnFace (float64 x) (float64 y) voxelDepth baseWidth baseHeight in
      let xs := upto baseWidthVoxelResolution in
      let ys := upto (faceRes baseWidth baseHeight) in
      match renderText text justification leftOffsetPercent fontSize baseWidth baseHeight with
      | Ok triangles =>
          triangles = activeVoxels red voxel xs ys
          /\ forall x y, In x xs -> In y ys -> (32768 < red x y)%Z ->
                         exists v, voxel x y = Ok v
      | Err err => failedCube red voxel xs ys err
      end
  end.
Proof.
  destruct (loadFont fontSize) as [fontPath|e] eqn:Hfont.
  - rewrite (renderText_loaded _ _ _ _ _ _ _ Hfont). apply raster_from_empty.
  - split; [now apply renderText_unloaded|]. eapply loadFont_error, Hfont.
Qed.

(** X24: the same for [renderTextOnTop], whose cubes stand on the top
    face: the canvas is as deep as the base, and the result is the cubes of
    the pixels above the threshold, or the font's IOError, or the STLError
    of a pixel whose cube failed. *)
Theorem renderTextOnTop_result (text justification : string)
    (leftOffsetPercent topOffsetPercent fontSize baseWidth baseDepth baseHeight : float) :
  match loadFont fontSize with
  | Err e =>
      renderTextOnTop text justification leftOffsetPercent topOffsetPercent fontSize
        baseWidth baseDepth baseHeight = Err e
      /\ exists msg cause, e = New IOError msg (Some cause)
  | Ok fontPath =>
      let red := topCanvas text justification leftOffsetPercent topOffsetPercent fontSize
                   baseWidth baseDepth fontPath in
      let voxel := fun x y =>
        createVoxelOnTop (float64 x) (float64 y) voxelDepth baseWidth baseDepth baseHeight in
      let xs := upto baseWidthVoxelResolution in
      let ys := upto (faceRes baseWidth baseDepth) in
      match renderTextOnTop text justification leftOffsetPercent topOffsetPercent fontSize
              baseWidth baseDepth baseHeight with
      | Ok triangles =>
          triangles = activeVoxels red voxel xs ys
          /\ forall x y, In x xs -> In y ys -> (32768 < red x y)%Z ->
                         exists v, voxel x y = Ok v
      | Err err => failedCube red voxel xs ys err
      end
  end.
Proof.
  destruct (loadFont fontSize) as [fontPath|e] eqn:Hfont.
  - rewrite (renderTextOnTop_loaded _ _ _ _ _ _ _ _ _ Hfont). apply raster_from_empty.
  - split; [now apply renderTextOnTop_unloaded|]. eapply loadFont_error, Hfont.
Qed.

End TextRaster.

(** ** The bounding box *)

Lemma SFltb_trans (a b c : spec_float) :
  SFltb a b = true -> SFltb b c = true -> SFltb a c = true.
Proof.
  unfold SFltb.
  destruct a as [sa|sa| |sa ma ea], b as [sb|sb| |sb mb eb], c as [sc|sc| |sc mc ec];
    simpl; try discriminate;
    repeat match goal with s : bool |- _ => destruct s end;
    simpl; try discriminate; try reflexivity.
  - destruct (Z.compare_spec ea eb), (Z.compare_spec eb ec), (Z.compare_spec ea ec);
      try discriminate; try reflexivity; try lia; subst.
    fold (Pos.compare ma mb) (Pos.compare mb mc) (Pos.compare ma mc).
    destruct (Pos.compare_spec ma mb), (Pos.compare_spec mb mc), (Pos.compare_spec ma mc);
      simpl; try discriminate; try reflexivity; lia.
  - destruct (Z.compare_spec ea eb), (Z.compare_spec eb ec), (Z.compare_spec ea ec);
      try discriminate; try reflexivity; try lia; subst.
    fold (Pos.compare ma mb) (Pos.compare mb mc) (Pos.compare ma mc).
    destruct (Pos.compare_spec ma mb), (Pos.compare_spec mb mc), (Pos.compare_spec ma mc);
      simpl; try discriminate; try reflexivity; lia.
Qed.

(** Between two ordered numbers every number is above the first or below
    the second. *)
Lemma SFltb_between (a b c : spec_float) :
  SFltb a c = true -> b <> S754_nan -> SFltb a b = true \/ SFltb b c = true.
Proof.
  unfold SFltb.
  destruct a as [sa|sa| |sa ma ea], b as [sb|sb| |sb mb eb], c as [sc|sc| |sc mc ec];
    simpl; try discriminate; try congruence;
    repeat match goal with s : bool |- _ => destruct s end;
    simpl; try discriminate; try congruence; auto.
  - destruct (Z.compare_spec ea eb), (Z.compare_spec eb ec), (Z.compare_spec ea ec);
      try discriminate; auto; try lia; subst.
    fold (Pos.compare ma mb) (Pos.compare mb mc) (Pos.compare ma mc).
    destruct (Pos.compare_spec ma mb), (Pos.compare_spec mb mc), (Pos.compare_spec ma mc);
      simpl; try discriminate; auto; lia.
  - destruct (Z.compare_spec ea eb), (Z.compare_spec eb ec), (Z.compare_spec ea ec);
      try discriminate; auto; try lia; subst.
    fold (Pos.compare ma mb) (Pos.compare mb mc) (Pos.compare ma mc).
    destruct (Pos.compare_spec ma mb), (Pos.compare_spec mb mc), (Pos.compare_spec ma mc);
      simpl; try discriminate; auto; lia.
Qed.

Lemma SFltb_numbers (a b : spec_float) :
  SFltb a b = true -> a <> S754_nan /\ b <> S754_nan.
Proof. unfold SFltb. destruct a, b; simpl; try discriminate; split; discriminate. Qed.

Lemma ltb_trans (a b c : float) :
  (a <? b)%float = true -> (b <? c)%float = true -> (a <? c)%float = true.
Proof. rewrite !FloatAxioms.ltb_spec. apply SFltb_trans. Qed.

Lemma ltb_between (a b c : float) :
  (a <? c)%float = true -> number b -> (a <? b)%float = true \/ (b <? c)%float = true.
Proof. rewrite !FloatAxioms.ltb_spec. apply SFltb_between. Qed.

Lemma ltb_numbers (a b : float) : (a <? b)%float = true -> number a /\ number b.
Proof. rewrite FloatAxioms.ltb_spec. apply SFltb_numbers. Qed.

Lemma lowest_fold (cs : list float) :
  forall m0,
    number m0 ->
    let r := fold_left lowest cs m0 in
    number r
    /\ (m0 <? r)%float = false
    /\ Forall (fun c => (c <? r)%float = false) cs
    /\ (r = m0 \/ In r cs).
Proof.
  induction cs as [|c rest IH]; intros m0 Hm0; simpl.
  - repeat split; auto.
    destruct (m0 <? m0)%float eqn:Hlt; [|reflexivity].
    rewrite FloatAxioms.ltb_spec in Hlt. unfold SFltb in Hlt.
    destruct (Prim2SF m0) as [s|s| |s m e]; simpl in Hlt; try discriminate;
      destruct s; try discriminate.
    + rewrite Z.compare_refl in Hlt. fold (Pos.compare m m) in Hlt.
      now rewrite Pos.compare_refl in Hlt.
    + rewrite Z.compare_refl in Hlt. fold (Pos.compare m m) in Hlt.
      now rewrite Pos.compare_refl in Hlt.
  - assert (Hm1 : number (lowest m0 c)).
    { unfold lowest. destruct (c <? m0)%float eqn:Hc; [|exact Hm0]. now apply ltb_numbers in Hc. }
    destruct (IH (lowest m0 c) Hm1) as (Hr & Hle & Hall & Hatt).
    set (r := fold_left lowest rest (lowest m0 c)) in *.
    unfold lowest in Hle, Hatt. destruct (c <? m0)%float eqn:Hc.
    + split; [exact Hr|]. split; [|split].
      * destruct (m0 <? r)%float eqn:Hlt; [|reflexivity].
        now rewrite (ltb_trans _ _ _ Hc Hlt) in Hle.
      * constructor; [exact Hle|exact Hall].
      * right. destruct Hatt as [->|Hin]; [now left|now right].
    + split; [exact Hr|]. split; [exact Hle|]. split.
      * constructor; [|exact Hall].
        destruct (c <? r)%float eqn:Hlt; [|reflexivity].
        destruct (ltb_between _ m0 _ Hlt Hm0) as [H1|H1]; congruence.
      * destruct Hatt as [->|Hin]; [now left|right; now right].
Qed.

Lemma highest_fold (cs : list float) :
  forall m0,
    number m0 ->
    let r := fold_left highest cs m0 in
    number r
    /\ (r <? m0)%float = false
    /\ Forall (fun c => (r <? c)%float = false) cs
    /\ (r = m0 \/ In r cs).
Proof.
  induction cs as [|c rest IH]; intros m0 Hm0; simpl.
  - repeat split; auto.
    destruct (m0 <? m0)%float eqn:Hlt; [|reflexivity].
    rewrite FloatAxioms.ltb_spec in Hlt. unfold SFltb in Hlt.
    destruct (Prim2SF m0) as [s|s| |s m e]; simpl in Hlt; try discriminate;
      destruct s; try discriminate.
    + rewrite Z.compare_refl in Hlt. fold (Pos.compare m m) in Hlt.
      now rewrite Pos.compare_refl in Hlt.
    + rewrite Z.compare_refl in Hlt. fold (Pos.compare m m) in Hlt.
      now rewrite Pos.compare_refl in Hlt.
  - assert (Hm1 : number (highest m0 c)).
    { unfold highest. destruct (m0 <? c)%float eqn:Hc; [|exact Hm0]. now apply ltb_numbers in Hc. }
    destruct (IH (highest m0 c) Hm1) as (Hr & Hle & Hall & Hatt).
    set (r := fold_left highest rest (highest m0 c)) in *.
    unfold highest in Hle, Hatt. destruct (m0 <? c)%float eqn:Hc.
    + split; [exact Hr|]. split; [|split].
      * destruct (r <? m0)%float eqn:Hlt; [|reflexivity].
        now rewrite (ltb_trans _ _ _ Hlt Hc) in Hle.
      * constructor; [exact Hle|exact Hall].
      * right. destruct Hatt as [->|Hin]; [now left|now right].
    + split; [exact Hr|]. split; [exact Hle|]. split.
      * constructor; [|exact Hall].
        destruct (r <? c)%float eqn:Hlt; [|reflexivity].
        destruct (ltb_between _ m0 _ Hlt Hm0) as [H1|H1]; congruence.
      * destruct Hatt as [->|Hin]; [now left|right; now right].
Qed.

Lemma boxVertex_axes (b : BoundingBox) (v : Point3D) :
  boxVertex b v
  = mkBox (lowest (minX b) (X v)) (lowest (minY b) (Y v)) (lowest (minZ b) (Z v))
          (highest (maxX b) (X v)) (highest (maxY b) (Y v)) (highest (maxZ b) (Z v)).
Proof.
  unfold boxVertex, lowest, highest. destruct b as [x0 y0 z0 x1 y1 z1]. simpl.
  destruct (X v <? x0); simpl; destruct (Y v <? y0); simpl; destruct (Z v <? z0); simpl;
    destruct (x1 <? X v); simpl; destruct (y1 <? Y v); simpl; destruct (z1 <? Z v);
    reflexivity.
Qed.

Lemma box_fold (triangles : list Triangle) :
  forall b0,
    fold_left (fun b t => fold_left boxVertex [V1 t; V2 t; V3 t] b) triangles b0
    = mkBox (fold_left lowest (coordinates X triangles) (minX b0))
            (fold_left lowest (coordinates Y triangles) (minY b0))
            (fold_left lowest (coordinates Z triangles) (minZ b0))
            (fold_left highest (coordinates X triangles) (maxX b0))
            (fold_left highest (coordinates Y triangles) (maxY b0))
            (fold_left highest (coordinates Z triangles) (maxZ b0)).
Proof.
  induction triangles as [|t rest IH]; intros b0; [now destruct b0|].
  cbn [fold_left coordinates flat_map vertices map app]. rewrite IH, !boxVertex_axes.
  reflexivity.
Qed.

Lemma number_MaxFloat64 : number MaxFloat64 /\ number (- MaxFloat64).
Proof. split; vm_compute; discriminate. Qed.

Lemma axis_bounds (cs : list float) :
  bounds (fold_left lowest cs MaxFloat64) (fold_left highest cs (- MaxFloat64)) cs.
Proof.
  destruct number_MaxFloat64 as [Hmax Hmin].
  destruct (lowest_fold cs MaxFloat64 Hmax) as (_ & _ & Hlow & Hlo).
  destruct (highest_fold cs (- MaxFloat64) Hmin) as (_ & _ & Hhigh & Hhi).
  split; [|split; assumption].
  rewrite List.Forall_forall in *. intros c Hc. split; auto.
Qed.

(** X25: the box of [calcBoundingBox] contains the mesh: along each axis
    no vertex coordinate is below the minimum or above the maximum (a NaN
    coordinate compares false and so leaves the box as it is), and each
    bound is the coordinate of a vertex unless no vertex moved it from its
    initial value, MaxFloat64 for a minimum and -MaxFloat64 for a maximum. *)
Theorem calcBoundingBox_contains (triangles : list Triangle) :
  bounds (minX (calcBoundingBox triangles)) (maxX (calcBoundingBox triangles))
         (coordinates X triangles)
  /\ bounds (minY (calcBoundingBox triangles)) (maxY (calcBoundingBox triangles))
            (coordinates Y triangles)
  /\ bounds (minZ (calcBoundingBox triangles)) (maxZ (calcBoundingBox triangles))
            (coordinates Z triangles).
Proof.
  unfold calcBoundingBox. rewrite box_fold. cbn [minX minY minZ maxX maxY maxZ].
  repeat split; apply axis_bounds.
Qed.

(** ** GenerateSkyline *)

Lemma fst_bindS {A B} (m : Sky A) (k : A -> Sky B) :
  fst (bindS m k) = match fst m with
                    | Ret a => fst (k a)
                    | Fail e => Fail e
                    | Panic r => Panic r
                    | Blocked => Blocked
                    end.
Proof. unfold bindS. now destruct (fst m). Qed.

Lemma snd_bindS {A B} (m : Sky A) (k : A -> Sky B) :
  snd (bindS m k) = match fst m with
                    | Ret a => snd m ++ snd (k a)
                    | _ => snd m
                    end.
Proof. unfold bindS. now destruct (fst m). Qed.

Lemma in_bindS {A B} (m : Sky A) (k : A -> Sky B) (eff : Effect) :
  In eff (snd (bindS m k)) ->
  In eff (snd m) \/ exists a, fst m = Ret a /\ In eff (snd (k a)).
Proof.
  rewrite snd_bindS. destruct (fst m) as [a| | |]; auto.
  intros Hin. apply in_app_iff in Hin as [Hin|Hin]; eauto.
Qed.

Lemma ret_bindS {A B} (m : Sky A) (k : A -> Sky B) (b : B) :
  fst (bindS m k) = Ret b -> exists a, fst m = Ret a /\ fst (k a) = Ret b.
Proof. rewrite fst_bindS. destruct (fst m) as [a| | |]; try discriminate. eauto. Qed.

Lemma fetches_app (t1 t2 : list Effect) : fetches (t1 ++ t2) = fetches t1 ++ fetches t2.
Proof.
  induction t1 as [|eff rest IH]; simpl; [reflexivity|].
  destruct eff as [e|[| | |username year]|text]; simpl; now rewrite ?IH.
Qed.

Lemma yearsFromTo_empty (steps : nat) (startYear endYear : Z.t) :
  (endYear < startYear)%Z ->
  yearsFromTo steps startYear endYear = [] /\ loopEnds steps startYear endYear = true.
Proof.
  intros Hlt. apply Z.leb_gt in Hlt.
  destruct steps; simpl; rewrite ?Hlt; auto.
Qed.

Lemma increment_below (year endYear : Z.t) :
  (year <= endYear)%Z -> (endYear < maxInt)%Z -> increment year = (year + 1)%Z.
Proof.
  intros Hle Hlt. unfold increment.
  destruct (Z.eqb_spec year maxInt) as [->|_]; [lia|reflexivity].
Qed.

(** Below the largest int the counter does not wrap: the years are
    consecutive, and the loop ends after [endYear - startYear + 1]
    iterations. *)
Lemma yearsFromTo_below (steps : nat) :
  forall startYear endYear : Z.t,
    (endYear < maxInt)%Z ->
    (forall i year, yearsFromTo steps startYear endYear !! i = Some year ->
                    year = (startYear + Z.of_nat i)%Z)
    /\ length (yearsFromTo steps startYear endYear)
       = Nat.min steps (Z.to_nat (endYear - startYear + 1))
    /\ (loopEnds steps startYear endYear = true
        <-> (endYear - startYear + 1 <= Z.of_nat steps)%Z).
Proof.
  induction steps as [|steps IH]; intros startYear endYear Hmax.
  - cbn [yearsFromTo loopEnds]. split; [intros i year; now rewrite lookup_nil|].
    split; [reflexivity|].
    destruct (Z.leb_spec startYear endYear); split; try discriminate; try reflexivity; lia.
  - cbn [yearsFromTo loopEnds].
    destruct (Z.leb_spec startYear endYear) as [Hle|Hgt].
    + rewrite (increment_below _ _ Hle Hmax).
      destruct (IH (startYear + 1)%Z endYear Hmax) as (Hyears & Hlen & Hends).
      split; [|split].
      * intros [|i] year; cbn [lookup list_lookup].
        -- intros [= <-]. lia.
        -- intros Hi. apply Hyears in Hi. lia.
      * cbn [length]. rewrite Hlen. lia.
      * rewrite Hends. lia.
    + split; [intros i year; now rewrite lookup_nil|].
      split; [cbn [length]; lia|]. split; [lia|reflexivity].
Qed.

(** With the largest int as last year the test of the loop never fails. *)
Lemma yearsFromTo_unbounded (steps : nat) :
  forall startYear : Z.t,
    (startYear <= maxInt)%Z ->
    loopEnds steps startYear maxInt = false
    /\ length (yearsFromTo steps startYear maxInt) = steps.
Proof.
  induction steps as [|steps IH]; intros startYear Hle; cbn [yearsFromTo loopEnds].
  - destruct (Z.leb_spec startYear maxInt); [auto|lia].
  - destruct (Z.leb_spec startYear maxInt) as [_|Hgt]; [|lia].
    assert (Hnext : (increment startYear <= maxInt)%Z).
    { unfold increment. destruct (Z.eqb_spec startYear maxInt); [discriminate|lia]. }
    destruct (IH _ Hnext) as [Hends Hlen]. split; [exact Hends|].
    cbn [length]. now rewrite Hlen.
Qed.

Section SkylineProperties.
Context `{Lib : Library} `{Log : Logger} `{Geo : Geometry} `{Sys : System} `{Cli : Client}.

(** The art of one year: a warning or a line of output. *)
Lemma art_stage (filtered : Grid) (targetUser : string) (year startYear : Z.t) (artOnly : bool) :
  let stage :=
    match GenerateASCII filtered targetUser year
            ((year =? startYear)%Z && negb artOnly) (negb artOnly) with
    | Err _ => logS Warning "Failed to generate ASCII preview: %v"
    | Ok asciiArt =>
        if (year =? startYear)%Z then println asciiArt else println (gridOnly asciiArt)
    end in
  fetches (snd stage) = []
  /\ forall e, In (Ev e) (snd stage) -> isLog e = true.
Proof.
  simpl. destruct (GenerateASCII _ _ _ _ _) as [asciiArt|err]; simpl.
  - destruct (year =? startYear)%Z; simpl; split; auto; intros e [Hin|[]]; discriminate.
  - split; [reflexivity|]. intros e [[= <-]|[]]. reflexivity.
Qed.

Lemma fetch_trace (targetUser : string) (year : Z.t) :
  snd (fetchContributionData targetUser year) = [Net (Contributions targetUser year)].
Proof. reflexivity. Qed.

Lemma fetch_outcome (targetUser : string) (year : Z.t) :
  fst (fetchContributionData targetUser year)
  = match FetchContributions targetUser year with
    | Err err => Fail (Foreign ("failed to fetch contributions: " +:+ errorText err))
    | Ok weeks => Ret (rangeStore ContributionDays 0%nat weeks (replicate (length weeks) []))
    end.
Proof. unfold fetchContributionData, call. now destruct (FetchContributions targetUser year). Qed.

Lemma yearsLoop_effects (years : list Z.t) (startYear : Z.t) (targetUser : string)
    (artOnly : bool) (startMonth endMonth : Z.t) :
  forall allContributions,
    let loop := yearsLoop years startYear targetUser artOnly startMonth endMonth
                  allContributions in
    (forall e, In (Ev e) (snd loop) -> isLog e = true)
    /\ exists n,
         fetches (snd loop) = map (pair targetUser) (take n years)
         /\ (forall all, fst loop = Ret all ->
                         n = length years
                         /\ length all = (length allContributions + length years)%nat)
         /\ (forall i year err,
               years !! i = Some year -> (i < n)%nat ->
               FetchContributions targetUser year = Err err ->
               n = S i
               /\ fst loop
                  = Fail (Foreign ("failed to fetch contributions: " +:+ errorText err))).
Proof.
  induction years as [|year rest IH]; intros allContributions; cbn [yearsLoop].
  - split; [intros e []|]. exists 0%nat. split; [reflexivity|]. split.
    + intros all [= <-]. simpl. split; [reflexivity|lia].
    + intros i y err _ Hi. lia.
  - cbv zeta. rewrite fst_bindS, snd_bindS, fetch_trace, fetch_outcome.
    destruct (FetchContributions targetUser year) as [weeks|err0] eqn:Hfetch.
    2:{ split; [intros e [Hin|[]]; discriminate|].
        exists 1%nat. split; [reflexivity|]. split; [discriminate|].
        intros i y err Hy Hi Herr. assert (i = 0%nat) as -> by lia.
        cbn in Hy. injection Hy as <-. rewrite Hfetch in Herr. injection Herr as <-.
        split; reflexivity. }
    set (contributions := rangeStore ContributionDays 0%nat weeks
                            (replicate (length weeks) [])).
    set (filtered := filterContributionsByMonth contributions year startMonth endMonth).
    pose proof (art_stage filtered targetUser year startYear artOnly) as Hstage.
    cbv zeta in Hstage. destruct Hstage as [Hnone Hlogs].
    destruct (IH (allContributions ++ [filtered])) as (Hev & n & Hfetches & Hret & Hfail).
    cbv zeta in Hev, Hfetches, Hret, Hfail.
    set (stage := match GenerateASCII filtered targetUser year _ _ with
                  | Ok asciiArt => _
                  | Err _ => _
                  end) in *.
    clearbody stage.
    rewrite fst_bindS, snd_bindS.
    assert (Hfirst : forall i y err,
               (year :: rest) !! i = Some y -> (i < 1)%nat ->
               FetchContributions targetUser y = Err err -> False).
    { intros i y err Hy Hi Herr. assert (i = 0%nat) as -> by lia.
      cbn in Hy. injection Hy as <-. rewrite Hfetch in Herr. discriminate. }
    destruct (fst stage) as [u|err|reason|].
    + split.
      * intros e [Hin|Hin]; [discriminate|].
        cbn [app] in Hin. destruct (in_app_or _ _ _ Hin) as [Hstage|Hnext]; auto.
      * exists (S n). split; [|split].
        -- cbn [app fetches]. rewrite fetches_app, Hnone, Hfetches. reflexivity.
        -- intros all Hall. destruct (Hret all Hall) as [-> Hlen].
           split; [reflexivity|]. rewrite length_app in Hlen. simpl in *. lia.
        -- intros [|i] y err Hy Hi Herr.
           ++ exfalso. apply (Hfirst 0%nat y err Hy); [lia|exact Herr].
           ++ cbn in Hy. destruct (Hfail i y err Hy) as [-> Hloop]; [lia|exact Herr|].
              split; [reflexivity|exact Hloop].
    + split; [intros e [Hin|Hin]; [discriminate|cbn [app] in Hin; auto]|].
      exists 1%nat. split; [|split; [discriminate|]].
      * cbn [app fetches]. now rewrite Hnone.
      * intros i y err' Hy Hi Herr. exfalso. exact (Hfirst i y err' Hy Hi Herr).
    + split; [intros e [Hin|Hin]; [discriminate|cbn [app] in Hin; auto]|].
      exists 1%nat. split; [|split; [discriminate|]].
      * cbn [app fetches]. now rewrite Hnone.
      * intros i y err' Hy Hi Herr. exfalso. exact (Hfirst i y err' Hy Hi Herr).
    + split; [intros e [Hin|Hin]; [discriminate|cbn [app] in Hin; auto]|].
      exists 1%nat. split; [|split; [discriminate|]].
      * cbn [app fetches]. now rewrite Hnone.
      * intros i y err' Hy Hi Herr. exfalso. exact (Hfirst i y err' Hy Hi Herr).
Qed.

End SkylineProperties.

Lemma bindS_ret {A B} (a : A) (trace : list Effect) (k : A -> Sky B) :
  bindS (Ret a, trace) k = (fst (k a), trace ++ snd (k a)).
Proof. reflexivity. Qed.

Lemma events_app (t1 t2 : list Effect) : events (t1 ++ t2) = events t1 ++ events t2.
Proof.
  induction t1 as [|eff rest IH]; simpl; [reflexivity|].
  destruct eff; simpl; now rewrite ?IH.
Qed.

Lemma events_Ev (trace : list Event) : events (map Ev trace) = trace.
Proof. induction trace as [|e rest IH]; simpl; [reflexivity|]. now rewrite IH. Qed.

Lemma fetches_Ev (trace : list Event) : fetches (map Ev trace) = [].
Proof. induction trace as [|e rest IH]; simpl; [reflexivity|exact IH]. Qed.

Lemma setup_fetches (setup : list Effect) :
  Forall (fun eff => setupEffect eff = true) setup -> fetches setup = [].
Proof.
  induction 1 as [|eff rest Heff Hrest IH]; simpl; [reflexivity|].
  destruct eff as [e|[| | |username year]|text]; try discriminate; exact IH.
Qed.

Lemma setup_events (setup : list Effect) :
  Forall (fun eff => setupEffect eff = true) setup ->
  Forall (fun e => isLog e = true) (events setup).
Proof.
  induction 1 as [|eff rest Heff Hrest IH]; simpl; [constructor|].
  destruct eff as [e|c|text]; try exact IH.
  constructor; [|exact IH]. now destruct e.
Qed.

Lemma ValidateMonthRange_accepts (startMonth endMonth : Z.t) :
  ValidateMonthRange startMonth endMonth = None
  <-> (1 <= startMonth <= endMonth)%Z /\ (endMonth <= 12)%Z.
Proof.
  unfold ValidateMonthRange.
  destruct (startMonth <? 1)%Z eqn:H1; destruct (12 <? startMonth)%Z eqn:H2;
    destruct (endMonth <? 1)%Z eqn:H3; destruct (12 <? endMonth)%Z eqn:H4;
    destruct (endMonth <? startMonth)%Z eqn:H5; simpl;
    rewrite ?Z.ltb_lt, ?Z.ltb_ge in *; split; try discriminate; try reflexivity; lia.
Qed.

Section SkylineRuns.
Context `{Lib : Library} `{Log : Logger} `{Geo : Geometry} `{Sys : System} `{Cli : Client}.

(** The stages of [GenerateSkyline]: the set-up, which may end the run with
    an error, then the loop over the years and the generation of the file. *)
Lemma GenerateSkyline_stages (steps : nat) (startYear endYear : Z.t) (targetUser : string)
    (full : bool) (output : string) (artOnly : bool) (text : string)
    (startMonth endMonth : Z.t) (rightText : string) :
  exists setup : list Effect,
    Forall (fun eff => setupEffect eff = true) setup
    /\ (((exists e, fst (GenerateSkyline steps startYear endYear targetUser full output
                          artOnly text startMonth endMonth rightText) = Fail e)
         /\ snd (GenerateSkyline steps startYear endYear targetUser full output artOnly text
                   startMonth endMonth rightText) = setup)
        \/ exists (user : string) (firstYear lastYear : Z.t),
             (targetUser <> "" -> user = targetUser)
             /\ (full = false -> firstYear = startYear /\ lastYear = endYear)
             /\ (full = true -> lastYear = currentYear)
             /\ ValidateMonthRange startMonth endMonth = None
             /\ GenerateSkyline steps startYear endYear targetUser full output artOnly text
                  startMonth endMonth rightText
                = (fst (generation steps user firstYear lastYear output artOnly text
                          startMonth endMonth rightText),
                   setup ++ snd (generation steps user firstYear lastYear output artOnly text
                                   startMonth endMonth rightText))).
Proof.
  unfold GenerateSkyline, call, logS, retS.
  destruct InitializeGitHubClient as [err|].
  { exists [Net InitializeClient]. split; [repeat constructor|]. left.
    split; [eexists; reflexivity|reflexivity]. }
  rewrite bindS_ret.
  assert (Hrest : forall (user : string) (setup : list Effect),
    Forall (fun eff => setupEffect eff = true) setup ->
    (targetUser <> "" -> user = targetUser) ->
    exists setup' : list Effect,
      Forall (fun eff => setupEffect eff = true) setup'
      /\ let run :=
           bindS (Ret user, setup) (fun targetUser =>
             years <~
               (if full then
                  joinYear <~
                    (match GetUserJoinYear targetUser with
                     | Err err =>
                         Fail (New NetworkError "failed to get user join year" (Some err))
                     | Ok joinYear => Ret joinYear
                     end, [Net (UserJoinYear targetUser)]) ;;
                  (Ret (joinYear, currentYear), [])
                else (Ret (startYear, endYear), [])) ;;
             (match ValidateMonthRange startMonth endMonth with
              | Some err => (Fail (Foreign ("invalid month range: " +:+ errorText err)), [])
              | None => (Ret tt, [])
              end) ~;;
             generation steps targetUser (fst years) (snd years) output artOnly text
               startMonth endMonth rightText) in
         (((exists e, fst run = Fail e) /\ snd run = setup')
          \/ exists (user' : string) (firstYear lastYear : Z.t),
               (targetUser <> "" -> user' = targetUser)
               /\ (full = false -> firstYear = startYear /\ lastYear = endYear)
               /\ (full = true -> lastYear = currentYear)
               /\ ValidateMonthRange startMonth endMonth = None
               /\ run = (fst (generation steps user' firstYear lastYear output artOnly text
                                startMonth endMonth rightText),
                         setup' ++ snd (generation steps user' firstYear lastYear output
                                          artOnly text startMonth endMonth rightText)))).
  { intros user setup Hsetup Huser. cbv zeta. rewrite bindS_ret.
    destruct full.
    - destruct (GetUserJoinYear user) as [joinYear|err].
      + rewrite !bindS_ret. cbn [fst snd].
        destruct (ValidateMonthRange startMonth endMonth) as [err|] eqn:Hmonths.
        * exists (setup ++ [Net (UserJoinYear user)]). split.
          -- apply Forall_app. split; [exact Hsetup|repeat constructor].
          -- left. split; [eexists; reflexivity|].
             cbn [bindS fst snd]. rewrite ?app_nil_r; reflexivity.
        * exists (setup ++ [Net (UserJoinYear user)]). split.
          -- apply Forall_app. split; [exact Hsetup|repeat constructor].
          -- right. exists user, joinYear, currentYear.
             repeat split; try discriminate; auto.
             all: rewrite ?bindS_ret; cbn [fst snd]; rewrite <- ?app_assoc; cbn [app]; rewrite ?app_nil_r; reflexivity.
      + exists (setup ++ [Net (UserJoinYear user)]). split.
        * apply Forall_app. split; [exact Hsetup|repeat constructor].
        * left. split; [eexists; reflexivity|reflexivity].
    - rewrite !bindS_ret. cbn [fst snd].
      destruct (ValidateMonthRange startMonth endMonth) as [err|] eqn:Hmonths.
      + exists setup. split; [exact Hsetup|].
        left. split; [eexists; reflexivity|].
        cbn [bindS fst snd]. rewrite ?app_nil_r; reflexivity.
      + exists setup. split; [exact Hsetup|].
        right. exists user, startYear, endYear.
        repeat split; try discriminate; auto.
        all: rewrite ?bindS_ret; cbn [fst snd]; rewrite <- ?app_assoc; cbn [app]; rewrite ?app_nil_r; reflexivity. }
  destruct (String.eqb_spec targetUser "") as [Hempty|Hgiven].
  - destruct (logCall Debug "No target user specified, using authenticated user")
      as [err|].
    + exists [Net InitializeClient;
              Ev (EvLog Debug "No target user specified, using authenticated user")].
      split; [repeat constructor|]. left. split; [eexists; reflexivity|reflexivity].
    + destruct GetAuthenticatedUser as [username|err].
      * destruct (Hrest username
                    [Ev (EvLog Debug "No target user specified, using authenticated user");
                     Net AuthenticatedUser])
          as (setup' & Hsetup' & Hrun); [repeat constructor|contradiction|].
        cbv zeta in Hrun.
        exists (Net InitializeClient :: setup').
        split; [constructor; [reflexivity|exact Hsetup']|].
        destruct Hrun
          as [[Hfail Htrace]|(user' & firstYear & lastYear & H1 & H2 & H3 & H4 & Hrun)].
        -- left. split; [exact Hfail|]. cbn [snd app]. f_equal. exact Htrace.
        -- right. exists user', firstYear, lastYear.
           split; [exact H1|]. split; [exact H2|]. split; [exact H3|]. split; [exact H4|].
           apply pair_equal_spec. split; [exact (f_equal fst Hrun)|].
           cbn [snd app]. f_equal. exact (f_equal snd Hrun).
      * exists [Net InitializeClient;
                Ev (EvLog Debug "No target user specified, using authenticated user");
                Net AuthenticatedUser].
        split; [repeat constructor|]. left. split; [eexists; reflexivity|reflexivity].
  - destruct (Hrest targetUser []) as (setup' & Hsetup' & Hrun); [constructor|reflexivity|].
    cbv zeta in Hrun.
    exists (Net InitializeClient :: setup').
    split; [constructor; [reflexivity|exact Hsetup']|].
    destruct Hrun
      as [[Hfail Htrace]|(user' & firstYear & lastYear & H1 & H2 & H3 & H4 & Hrun)].
    + left. split; [exact Hfail|]. cbn [snd app]. f_equal. exact Htrace.
    + right. exists user', firstYear, lastYear.
      split; [exact H1|]. split; [exact H2|]. split; [exact H3|]. split; [exact H4|].
      apply pair_equal_spec. split; [exact (f_equal fst Hrun)|].
      cbn [snd app]. f_equal. exact (f_equal snd Hrun).
Qed.

End SkylineRuns.

Lemma snd_finished {A} (m : Sky A) : snd (finished m) = snd m.
Proof. reflexivity. Qed.

Lemma finished_returns {A} (m : Sky A) : fst (finished m) <> Ret None.
Proof. unfold finished. cbn [fst]. destruct (fst m); discriminate. Qed.

Lemma loop_events (trace : list Effect) :
  (forall e, In (Ev e) trace -> isLog e = true) ->
  Forall (fun e => isLog e = true) (events trace).
Proof.
  intros Hlogs. induction trace as [|eff rest IH]; [constructor|].
  destruct eff as [e|c|line]; simpl.
  - constructor; [apply Hlogs; now left|]. apply IH. intros e' He'. apply Hlogs. now right.
  - apply IH. intros e' He'. apply Hlogs. now right.
  - apply IH. intros e' He'. apply Hlogs. now right.
Qed.

Section SkylineGuarantees.
Context `{Lib : Library} `{Log : Logger} `{Geo : Geometry} `{Sys : System} `{Cli : Client}.

Lemma generation_art_only (steps : nat) (user : string) (firstYear lastYear : Z.t)
    (output text : string) (startMonth endMonth : Z.t) (rightText : string) :
  Forall (fun e => isLog e = true)
         (events (snd (generation steps user firstYear lastYear output true text
                         startMonth endMonth rightText))).
Proof.
  unfold generation. rewrite snd_bindS.
  destruct (yearsLoop_effects (yearsFromTo steps firstYear lastYear) firstYear user true
              startMonth endMonth []) as [Hlogs _].
  cbv zeta in Hlogs. apply loop_events in Hlogs.
  destruct (fst (yearsLoop _ _ _ _ _ _ _)); try exact Hlogs.
  destruct (loopEnds steps firstYear lastYear); simpl; now rewrite app_nil_r.
Qed.

(** X26: with [artOnly] set, [GenerateSkyline] runs nothing of package
    stl: apart from calls of the logger, its run starts no goroutine, reads
    no file and writes no file, however long it is followed. *)
Theorem GenerateSkyline_art_only (steps : nat) (startYear endYear : Z.t)
    (targetUser : string) (full : bool) (output text : string)
    (startMonth endMonth : Z.t) (rightText : string) :
  Forall (fun e => isLog e = true)
         (events (snd (GenerateSkyline steps startYear endYear targetUser full output true
                         text startMonth endMonth rightText))).
Proof.
  destruct (GenerateSkyline_stages steps startYear endYear targetUser full output true text
              startMonth endMonth rightText)
    as (setup & Hsetup & [[_ ->]|(user & firstYear & lastYear & _ & _ & _ & _ & ->)]).
  - now apply setup_events.
  - cbn [snd]. rewrite events_app. apply Forall_app. split.
    + now apply setup_events.
    + apply generation_art_only.
Qed.

(** X27: with a month range that is not 1 <= startMonth <= endMonth <= 12,
    [GenerateSkyline] returns an error, and its run is only the set-up: the
    client has been initialised (and the user and the join year requested,
    if asked for), but no contributions are fetched, nothing is printed and
    no file is generated. *)
Theorem GenerateSkyline_invalid_months (steps : nat) (startYear endYear : Z.t)
    (targetUser : string) (full : bool) (output : string) (artOnly : bool) (text : string)
    (startMonth endMonth : Z.t) (rightText : string) :
  ~ ((1 <= startMonth <= endMonth)%Z /\ (endMonth <= 12)%Z) ->
  (exists e, fst (GenerateSkyline steps startYear endYear targetUser full output artOnly
                    text startMonth endMonth rightText) = Fail e)
  /\ Forall (fun eff => setupEffect eff = true)
            (snd (GenerateSkyline steps startYear endYear targetUser full output artOnly
                    text startMonth endMonth rightText))
  /\ fetches (snd (GenerateSkyline steps startYear endYear targetUser full output artOnly
                     text startMonth endMonth rightText)) = [].
Proof.
  intros Hmonths.
  destruct (GenerateSkyline_stages steps startYear endYear targetUser full output artOnly
              text startMonth endMonth rightText)
    as (setup & Hsetup & [[Hfail Htrace]|(user & firstYear & lastYear & _ & _ & _ & Hvalid & _)]).
  - rewrite Htrace. split; [exact Hfail|]. split; [exact Hsetup|now apply setup_fetches].
  - apply ValidateMonthRange_accepts in Hvalid. contradiction.
Qed.

Lemma written_names (steps : nat) (user : string) (firstYear lastYear : Z.t)
    (output text : string) (artOnly : bool) (startMonth endMonth : Z.t) (rightText : string) :
  Forall (fun e => match e with
                   | EvWrite path _ =>
                       HasSuffix (ToLower path) ".stl" = true
                       /\ String.prefix output path = true
                   | _ => True
                   end)
         (events (snd (generation steps user firstYear lastYear output artOnly text
                         startMonth endMonth rightText))).
Proof.
  assert (Hlogs : forall trace : list Event,
             Forall (fun e => isLog e = true) trace ->
             Forall (fun e => match e with
                              | EvWrite path _ =>
                                  HasSuffix (ToLower path) ".stl" = true
                                  /\ String.prefix output path = true
                              | _ => True
                              end) trace).
  { intros trace Htrace. eapply Forall_impl; [exact Htrace|].
    intros [level format|t|path|path mesh]; simpl; auto; discriminate. }
  destruct artOnly; [apply Hlogs, generation_art_only|].
  unfold generation. rewrite snd_bindS.
  destruct (yearsLoop_effects (yearsFromTo steps firstYear lastYear) firstYear user false
              startMonth endMonth []) as [Hloop _].
  cbv zeta in Hloop. apply loop_events in Hloop.
  destruct (fst (yearsLoop _ _ _ _ _ _ _)) as [allContributions|err|reason|];
    try (apply Hlogs; exact Hloop).
  rewrite events_app. apply Forall_app. split; [apply Hlogs; exact Hloop|].
  destruct (loopEnds steps firstYear lastYear); [|constructor].
  rewrite snd_finished. cbn [negb]. cbv zeta.
  assert (Hstl : forall contributions startYear endYear,
             Forall (fun e => match e with
                              | EvWrite path _ =>
                                  HasSuffix (ToLower path) ".stl" = true
                                  /\ String.prefix output path = true
                              | _ => True
                              end)
               (snd (GenerateSTLRange contributions
                       (GenerateOutputFilename user firstYear lastYear output)
                       user startYear endYear text rightText))).
  { intros contributions startYear endYear. apply List.Forall_forall.
    intros [level format|t|path|path mesh] Hin; try exact I.
    apply GenerateSTLRange_written in Hin as (_ & _ & _ & _ & _ & _ & -> & _).
    split; [apply GenerateOutputFilename_ends|apply GenerateOutputFilename_starts]. }
  destruct allContributions as [|only [|second others]]; unfold fromStl; cbn [snd];
    rewrite events_Ev; apply Hstl.
Qed.

(** X28: every file that a run of [GenerateSkyline] writes has a name that
    ends in .stl (in any mix of upper and lower case) and starts with the
    output name the user gave. *)
Theorem GenerateSkyline_writes_stl (steps : nat) (startYear endYear : Z.t)
    (targetUser : string) (full : bool) (output : string) (artOnly : bool) (text : string)
    (startMonth endMonth : Z.t) (rightText : string) :
  Forall (fun e => match e with
                   | EvWrite path _ =>
                       HasSuffix (ToLower path) ".stl" = true
                       /\ String.prefix output path = true
                   | _ => True
                   end)
         (events (snd (GenerateSkyline steps startYear endYear targetUser full output
                         artOnly text startMonth endMonth rightText))).
Proof.
  assert (Hlogs : forall trace : list Event,
             Forall (fun e => isLog e = true) trace ->
             Forall (fun e => match e with
                              | EvWrite path _ =>
                                  HasSuffix (ToLower path) ".stl" = true
                                  /\ String.prefix output path = true
                              | _ => True
                              end) trace).
  { intros trace Htrace. eapply Forall_impl; [exact Htrace|].
    intros [level format|t|path|path mesh]; simpl; auto; discriminate. }
  destruct (GenerateSkyline_stages steps startYear endYear targetUser full output artOnly
              text startMonth endMonth rightText)
    as (setup & Hsetup & [[_ ->]|(user & firstYear & lastYear & _ & _ & _ & _ & ->)]).
  - now apply Hlogs, setup_events.
  - cbn [snd]. rewrite events_app. apply Forall_app. split.
    + now apply Hlogs, setup_events.
    + apply written_names.
Qed.

(** The requests of the part that follows the set-up. *)
Lemma generation_fetches (steps : nat) (user : string) (firstYear lastYear : Z.t)
    (output text : string) (artOnly : bool) (startMonth endMonth : Z.t) (rightText : string) :
  let run := generation steps user firstYear lastYear output artOnly text
               startMonth endMonth rightText in
  let years := yearsFromTo steps firstYear lastYear in
  exists n : nat,
    fetches (snd run) = map (pair user) (take n years)
    /\ (forall i year err,
          years !! i = Some year -> (i < n)%nat ->
          FetchContributions user year = Err err ->
          n = S i
          /\ fst run = Fail (Foreign ("failed to fetch contributions: " +:+ errorText err)))
    /\ (fst run = Ret (Some tt) ->
        n = length years /\ loopEnds steps firstYear lastYear = true)
    /\ (loopEnds steps firstYear lastYear = true -> fst run <> Ret None).
Proof.
  intros run years. unfold run, generation. rewrite fst_bindS, snd_bindS.
  destruct (yearsLoop_effects years firstYear user artOnly startMonth endMonth [])
    as (_ & n & Hfetch & Hret & Hfail).
  cbv zeta in Hfetch, Hret, Hfail. fold years.
  exists n.
  destruct (fst (yearsLoop years firstYear user artOnly startMonth endMonth []))
    as [allContributions|err|reason|] eqn:Hloop.
  - destruct (Hret allContributions eq_refl) as [-> _].
    split; [|split; [|split]].
    + rewrite fetches_app, Hfetch.
      destruct (loopEnds steps firstYear lastYear); [|simpl; now rewrite app_nil_r].
      rewrite snd_finished.
      destruct artOnly; cbn [negb]; [simpl; now rewrite app_nil_r|].
      cbv zeta.
      destruct allContributions as [|only [|second others]]; unfold fromStl; cbn [snd];
        now rewrite fetches_Ev, app_nil_r.
    + intros i year err Hyear Hi Herr.
      destruct (Hfail i year err Hyear Hi Herr) as [_ Hcontra]. discriminate.
    + destruct (loopEnds steps firstYear lastYear); [auto|discriminate].
    + intros ->. apply finished_returns.
  - split; [exact Hfetch|]. split; [|split; discriminate].
    intros i year err' Hyear Hi Herr.
    destruct (Hfail i year err' Hyear Hi Herr) as [-> Hsame].
    split; [reflexivity|]. injection Hsame as ->. reflexivity.
  - split; [exact Hfetch|]. split; [|split; discriminate].
    intros i year err' Hyear Hi Herr.
    destruct (Hfail i year err' Hyear Hi Herr) as [_ Hcontra]. discriminate.
  - split; [exact Hfetch|]. split; [|split; discriminate].
    intros i year err' Hyear Hi Herr.
    destruct (Hfail i year err' Hyear Hi Herr) as [_ Hcontra]. discriminate.
Qed.

(** X29: the contributions are requested for one user, in the order of the
    values of the loop counter and up to the first request that fails, which
    ends the run with its error: the user is the target user when one is
    given, the years are the ones given unless the full lifetime is asked
    for.  With a last year below the largest int the counter counts from the
    first year upwards without a gap and the loop ends after
    last - first + 1 iterations; a run that returns nil has requested every
    year of the loop, and a run that has not returned is still in its loop.
    With the largest int as last year the test of the loop never fails. *)
Theorem GenerateSkyline_fetches_in_order (steps : nat) (startYear endYear : Z.t)
    (targetUser : string) (full : bool) (output : string) (artOnly : bool) (text : string)
    (startMonth endMonth : Z.t) (rightText : string) :
  let run := GenerateSkyline steps startYear endYear targetUser full output artOnly text
               startMonth endMonth rightText in
  exists (user : string) (firstYear lastYear : Z.t) (n : nat),
    let years := yearsFromTo steps firstYear lastYear in
    fetches (snd run) = map (pair user) (take n years)
    /\ (targetUser <> "" -> user = targetUser)
    /\ (full = false -> firstYear = startYear /\ lastYear = endYear)
    /\ (forall i year err,
          years !! i = Some year -> (i < n)%nat ->
          FetchContributions user year = Err err ->
          n = S i
          /\ fst run = Fail (Foreign ("failed to fetch contributions: " +:+ errorText err)))
    /\ (fst run = Ret (Some tt) ->
        n = length years /\ loopEnds steps firstYear lastYear = true)
    /\ (fst run = Ret None -> loopEnds steps firstYear lastYear = false)
    /\ ((lastYear < maxInt)%Z ->
        (forall i year, years !! i = Some year -> year = (firstYear + Z.of_nat i)%Z)
        /\ length years = Nat.min steps (Z.to_nat (lastYear - firstYear + 1))
        /\ (loopEnds steps firstYear lastYear = true
            <-> (lastYear - firstYear + 1 <= Z.of_nat steps)%Z))
    /\ (lastYear = maxInt -> (firstYear <= maxInt)%Z ->
        loopEnds steps firstYear lastYear = false /\ length years = steps).
Proof.
  intros run. unfold run.
  destruct (GenerateSkyline_stages steps startYear endYear targetUser full output artOnly
              text startMonth endMonth rightText)
    as (setup & Hsetup & [[[e Hfail] Htrace]
                         |(user & firstYear & lastYear & H1 & H2 & _ & _ & Hrun)]).
  - exists targetUser, startYear, endYear, 0%nat. cbv zeta. rewrite Htrace, Hfail.
    split; [now apply setup_fetches|]. split; [auto|]. split; [auto|].
    split; [intros i year err _ Hi; lia|]. split; [discriminate|]. split; [discriminate|].
    split; [intros Hmax; apply yearsFromTo_below, Hmax|].
    intros -> Hle. now apply yearsFromTo_unbounded.
  - rewrite Hrun. cbn [fst snd]. rewrite fetches_app, (setup_fetches _ Hsetup). cbn [app].
    destruct (generation_fetches steps user firstYear lastYear output text artOnly
                startMonth endMonth rightText) as (n & Hfetch & Hfirst & Hnil & Hends).
    cbv zeta in Hfetch, Hfirst, Hnil, Hends.
    exists user, firstYear, lastYear, n. cbv zeta.
    split; [exact Hfetch|]. split; [exact H1|]. split; [exact H2|].
    split; [exact Hfirst|]. split; [exact Hnil|]. split.
    + intros Hgoing. destruct (loopEnds steps firstYear lastYear); [|reflexivity].
      exfalso. now apply Hends.
    + split; [intros Hmax; apply yearsFromTo_below, Hmax|].
      intros -> Hle. now apply yearsFromTo_unbounded.
Qed.

(** X30: when the end year lies before the start year (and the client, a
    given user and the months are in order, and the first debug message of
    the generator is logged), a run that is to write a file passes the empty
    list of years to [GenerateSTLRange], which panics on its first index;
    nothing has been fetched or printed. *)
Theorem GenerateSkyline_empty_range_panics (steps : nat) (startYear endYear : Z.t)
    (targetUser : string) (output text : string) (startMonth endMonth : Z.t)
    (rightText : string) :
  InitializeGitHubClient = None ->
  targetUser <> "" ->
  (1 <= startMonth <= endMonth)%Z /\ (endMonth <= 12)%Z ->
  (endYear < startYear)%Z ->
  logCall Debug "Starting STL generation for user %s, years %d-%d" = None ->
  GenerateSkyline steps startYear endYear targetUser false output false text
    startMonth endMonth rightText
  = (Panic "index out of range",
     [Net InitializeClient;
      Ev (EvLog Debug "Starting STL generation for user %s, years %d-%d")]).
Proof.
  intros Hinit Huser Hmonths Hyears Hlog.
  apply ValidateMonthRange_accepts in Hmonths.
  unfold GenerateSkyline, call, retS. rewrite Hinit, Hmonths.
  destruct (String.eqb_spec targetUser "") as [Hempty|_]; [contradiction|].
  rewrite !bindS_ret. cbn [fst snd].
  destruct (yearsFromTo_empty steps _ _ Hyears) as [-> ->]. cbn [yearsLoop]. unfold retS.
  rewrite !bindS_ret. cbn [fst snd negb]. cbv zeta.
  unfold finished, fromStl. rewrite (GenerateSTLRange_no_years _ _ _ _ _ _ Hlog). reflexivity.
Qed.

End SkylineGuarantees.

(** The counter at the largest int: the loop goes on with the smallest int
    and has not ended, however long it is followed. *)
Example yearsFromTo_wraps :
  yearsFromTo 3 (maxInt - 1) maxInt = [(maxInt - 1)%Z; maxInt; minInt]
  /\ loopEnds 1000 (maxInt - 1) maxInt = false.
Proof. split; vm_compute; reflexivity. Qed.

Lemma GenerateSkyline_invalid_months_witness :
  let run := @GenerateSkyline SampleLibrary.library Sample.quietLogger Sample.geometry
               Sample.bareSystem SampleLibrary.client
               5 2023 2023 "alice" false "" false "" 6 3 "" in
  (exists e, fst run = Fail e)
  /\ Forall (fun eff => setupEffect eff = true) (snd run)
  /\ fetches (snd run) = [].
Proof.
  apply (@GenerateSkyline_invalid_months SampleLibrary.library Sample.quietLogger
           Sample.geometry Sample.bareSystem SampleLibrary.client
           5 2023 2023 "alice" false "" false "" 6 3 "").
  lia.
Defined.

Lemma GenerateSkyline_empty_range_panics_witness :
  fst (@GenerateSkyline SampleLibrary.library Sample.quietLogger Sample.geometry
         Sample.bareSystem SampleLibrary.client 5 2023 2021 "alice" false "" false "" 1 12 "")
  = Panic "index out of range".
Proof.
  rewrite (@GenerateSkyline_empty_range_panics SampleLibrary.library Sample.quietLogger
             Sample.geometry Sample.bareSystem SampleLibrary.client
             5 2023 2021 "alice" "" "" 1 12 ""); try reflexivity; try discriminate; lia.
Defined.

(** A run over two years, followed long enough: both years are requested
    and the run returns nil; followed for one iteration only, it has
    requested the first year and is still in its loop. *)
Example GenerateSkyline_two_years :
  let run (steps : nat) :=
    @GenerateSkyline SampleLibrary.library Sample.quietLogger Sample.geometry
      Sample.bareSystem SampleLibrary.client steps 2022 2023 "alice" false "" true "" 1 12 "" in
  fst (run 5%nat) = Ret (Some tt)
  /\ fetches (snd (run 5%nat)) = [("alice", 2022%Z); ("alice", 2023%Z)]
  /\ fst (run 1%nat) = Ret None
  /\ fetches (snd (run 1%nat)) = [("alice", 2022%Z)].
Proof. repeat split; vm_compute; reflexivity. Qed.
